(** * Calorie-Counter: the upload and analyze route handlers

    A shallow embedding of [src/app/api/upload/route.ts] and
    [src/app/api/analyze/route.ts].  JavaScript strings are sequences of
    UTF-16 code units, JSON numbers are IEEE-754 binary64 values, and the
    handlers run in a small trace-and-exception monad against a record of
    what the platform answers (request body, environment, network, disk). *)

From Stdlib Require Import String Ascii.
From Stdlib Require Import List NArith ZArith Bool Lia.
From Stdlib Require Import Floats.SpecFloat.
From Stdlib Require Decimal DecimalZ.
Import ListNotations.

Local Open Scope N_scope.

(** ** JavaScript strings *)

Module Js.

(** A string is its list of UTF-16 code units. *)
Definition jsstring := list N.

(** Literals of this file are written as Basic Latin text. *)
Definition str (s : string) : jsstring :=
  map N_of_ascii (list_ascii_of_string s).

(** The same, with every apostrophe standing for a double quote (code unit
    34) and every vertical bar for a line feed (code unit 10). *)
Definition quoted (s : string) : jsstring :=
  map (fun c => if c =? 39 then 34 else if c =? 124 then 10 else c) (str s).

(** [a === b] on two strings. *)
Fixpoint eqb (a b : jsstring) : bool :=
  match a, b with
  | [], [] => true
  | x :: a', y :: b' => (x =? y) && eqb a' b'
  | _, _ => false
  end.

(** ECMAScript WhiteSpace and LineTerminator code points, which
    [String.prototype.trim] removes. *)
Definition isWhiteSpace (c : N) : bool :=
  ((9 <=? c) && (c <=? 13)) || (c =? 32) || (c =? 160) || (c =? 5760)
  || ((8192 <=? c) && (c <=? 8202)) || (c =? 8232) || (c =? 8233)
  || (c =? 8239) || (c =? 8287) || (c =? 12288) || (c =? 65279).

Fixpoint dropWhile (p : N -> bool) (s : jsstring) : jsstring :=
  match s with
  | [] => []
  | c :: r => if p c then dropWhile p r else s
  end.

Definition dropWhileEnd (p : N -> bool) (s : jsstring) : jsstring :=
  rev (dropWhile p (rev s)).

Definition trim (s : jsstring) : jsstring :=
  dropWhileEnd isWhiteSpace (dropWhile isWhiteSpace s).

Fixpoint startsWith (s p : jsstring) : bool :=
  match p, s with
  | [], _ => true
  | x :: p', y :: s' => (x =? y) && startsWith s' p'
  | _ :: _, [] => false
  end.

Definition endsWith (s p : jsstring) : bool :=
  startsWith (rev s) (rev p).

(** [s.split(sep)] for a separator of one code unit; the result always has
    at least one piece. *)
Fixpoint split (sep : N) (s : jsstring) : list jsstring :=
  match s with
  | [] => [[]]
  | c :: r =>
      if c =? sep then [] :: split sep r
      else match split sep r with
           | h :: t => (c :: h) :: t
           | [] => [[c]]
           end
  end.

(** [pieces.join(sep)]. *)
Fixpoint join (sep : N) (pieces : list jsstring) : jsstring :=
  match pieces with
  | [] => []
  | [p] => p
  | p :: rest => p ++ sep :: join sep rest
  end.

(** [s.substring(i, j)] for [0 <= i <= j]. *)
Definition substring (i j : nat) (s : jsstring) : jsstring :=
  firstn (j - i) (skipn i s).

(** *** Lower-casing *)

(** [String.prototype.toLowerCase] reads the string as code points: a
    leading surrogate followed by a trailing one is one code point, every
    other code unit stands alone. *)
Inductive point : Type :=
  | Single (u : N)
  | Surrogates (lead trail : N).

Definition isLead (c : N) : bool := (0xD800 <=? c) && (c <=? 0xDBFF).
Definition isTrail (c : N) : bool := (0xDC00 <=? c) && (c <=? 0xDFFF).

Fixpoint points (s : jsstring) : list point :=
  match s with
  | [] => []
  | h :: r =>
      match r with
      | l :: r' =>
          if isLead h && isTrail l then Surrogates h l :: points r'
          else Single h :: points r
      | [] => [Single h]
      end
  end.

Definition codePoint (p : point) : N :=
  match p with
  | Single u => u
  | Surrogates h l => 0x10000 + (h - 0xD800) * 0x400 + (l - 0xDC00)
  end.

(** The code units of a code point. *)
Definition unitsOf (cp : N) : jsstring :=
  if cp <? 0x10000 then [cp]
  else [0xD800 + (cp - 0x10000) / 0x400; 0xDC00 + (cp - 0x10000) mod 0x400].

(** The lower-case mappings of the Unicode Character Database (version 14)
    beyond Basic Latin: [(first, last, step, image)] maps every [step]-th
    code point from [first] to [last] to the code point at the same
    distance from [image], the lower-case form of [first].  Capital I with
    dot above (U+0130), the one code point whose lower-case form is two
    code points long, is not listed. *)
Definition lowerCaseMappings : list (N * N * N * N) :=
  [ (0xC0, 0xD6, 1, 0xE0); (0xD8, 0xDE, 1, 0xF8); (0x100, 0x12E, 2, 0x101);
   (0x132, 0x136, 2, 0x133); (0x139, 0x147, 2, 0x13A); (0x14A, 0x176, 2, 0x14B);
   (0x178, 0x178, 1, 0xFF); (0x179, 0x17D, 2, 0x17A); (0x181, 0x181, 1, 0x253);
   (0x182, 0x184, 2, 0x183); (0x186, 0x186, 1, 0x254); (0x187, 0x187, 1, 0x188);
   (0x189, 0x18A, 1, 0x256); (0x18B, 0x18B, 1, 0x18C); (0x18E, 0x18E, 1, 0x1DD);
   (0x18F, 0x18F, 1, 0x259); (0x190, 0x190, 1, 0x25B); (0x191, 0x191, 1, 0x192);
   (0x193, 0x193, 1, 0x260); (0x194, 0x194, 1, 0x263); (0x196, 0x196, 1, 0x269);
   (0x197, 0x197, 1, 0x268); (0x198, 0x198, 1, 0x199); (0x19C, 0x19C, 1, 0x26F);
   (0x19D, 0x19D, 1, 0x272); (0x19F, 0x19F, 1, 0x275); (0x1A0, 0x1A4, 2, 0x1A1);
   (0x1A6, 0x1A6, 1, 0x280); (0x1A7, 0x1A7, 1, 0x1A8); (0x1A9, 0x1A9, 1, 0x283);
   (0x1AC, 0x1AC, 1, 0x1AD); (0x1AE, 0x1AE, 1, 0x288); (0x1AF, 0x1AF, 1, 0x1B0);
   (0x1B1, 0x1B2, 1, 0x28A); (0x1B3, 0x1B5, 2, 0x1B4); (0x1B7, 0x1B7, 1, 0x292);
   (0x1B8, 0x1B8, 1, 0x1B9); (0x1BC, 0x1BC, 1, 0x1BD); (0x1C4, 0x1C4, 1, 0x1C6);
   (0x1C5, 0x1C5, 1, 0x1C6); (0x1C7, 0x1C7, 1, 0x1C9); (0x1C8, 0x1C8, 1, 0x1C9);
   (0x1CA, 0x1CA, 1, 0x1CC); (0x1CB, 0x1DB, 2, 0x1CC); (0x1DE, 0x1EE, 2, 0x1DF);
   (0x1F1, 0x1F1, 1, 0x1F3); (0x1F2, 0x1F4, 2, 0x1F3); (0x1F6, 0x1F6, 1, 0x195);
   (0x1F7, 0x1F7, 1, 0x1BF); (0x1F8, 0x21E, 2, 0x1F9); (0x220, 0x220, 1, 0x19E);
   (0x222, 0x232, 2, 0x223); (0x23A, 0x23A, 1, 0x2C65); (0x23B, 0x23B, 1, 0x23C);
   (0x23D, 0x23D, 1, 0x19A); (0x23E, 0x23E, 1, 0x2C66); (0x241, 0x241, 1, 0x242);
   (0x243, 0x243, 1, 0x180); (0x244, 0x244, 1, 0x289); (0x245, 0x245, 1, 0x28C);
   (0x246, 0x24E, 2, 0x247); (0x370, 0x372, 2, 0x371); (0x376, 0x376, 1, 0x377);
   (0x37F, 0x37F, 1, 0x3F3); (0x386, 0x386, 1, 0x3AC); (0x388, 0x38A, 1, 0x3AD);
   (0x38C, 0x38C, 1, 0x3CC); (0x38E, 0x38F, 1, 0x3CD); (0x391, 0x3A1, 1, 0x3B1);
   (0x3A3, 0x3AB, 1, 0x3C3); (0x3CF, 0x3CF, 1, 0x3D7); (0x3D8, 0x3EE, 2, 0x3D9);
   (0x3F4, 0x3F4, 1, 0x3B8); (0x3F7, 0x3F7, 1, 0x3F8); (0x3F9, 0x3F9, 1, 0x3F2);
   (0x3FA, 0x3FA, 1, 0x3FB); (0x3FD, 0x3FF, 1, 0x37B); (0x400, 0x40F, 1, 0x450);
   (0x410, 0x42F, 1, 0x430); (0x460, 0x480, 2, 0x461); (0x48A, 0x4BE, 2, 0x48B);
   (0x4C0, 0x4C0, 1, 0x4CF); (0x4C1, 0x4CD, 2, 0x4C2); (0x4D0, 0x52E, 2, 0x4D1);
   (0x531, 0x556, 1, 0x561); (0x10A0, 0x10C5, 1, 0x2D00); (0x10C7, 0x10C7, 1, 0x2D27);
   (0x10CD, 0x10CD, 1, 0x2D2D); (0x13A0, 0x13EF, 1, 0xAB70); (0x13F0, 0x13F5, 1, 0x13F8);
   (0x1C90, 0x1CBA, 1, 0x10D0); (0x1CBD, 0x1CBF, 1, 0x10FD); (0x1E00, 0x1E94, 2, 0x1E01);
   (0x1E9E, 0x1E9E, 1, 0xDF); (0x1EA0, 0x1EFE, 2, 0x1EA1); (0x1F08, 0x1F0F, 1, 0x1F00);
   (0x1F18, 0x1F1D, 1, 0x1F10); (0x1F28, 0x1F2F, 1, 0x1F20); (0x1F38, 0x1F3F, 1, 0x1F30);
   (0x1F48, 0x1F4D, 1, 0x1F40); (0x1F59, 0x1F5F, 2, 0x1F51); (0x1F68, 0x1F6F, 1, 0x1F60);
   (0x1F88, 0x1F8F, 1, 0x1F80); (0x1F98, 0x1F9F, 1, 0x1F90); (0x1FA8, 0x1FAF, 1, 0x1FA0);
   (0x1FB8, 0x1FB9, 1, 0x1FB0); (0x1FBA, 0x1FBB, 1, 0x1F70); (0x1FBC, 0x1FBC, 1, 0x1FB3);
   (0x1FC8, 0x1FCB, 1, 0x1F72); (0x1FCC, 0x1FCC, 1, 0x1FC3); (0x1FD8, 0x1FD9, 1, 0x1FD0);
   (0x1FDA, 0x1FDB, 1, 0x1F76); (0x1FE8, 0x1FE9, 1, 0x1FE0); (0x1FEA, 0x1FEB, 1, 0x1F7A);
   (0x1FEC, 0x1FEC, 1, 0x1FE5); (0x1FF8, 0x1FF9, 1, 0x1F78); (0x1FFA, 0x1FFB, 1, 0x1F7C);
   (0x1FFC, 0x1FFC, 1, 0x1FF3); (0x2126, 0x2126, 1, 0x3C9); (0x212A, 0x212A, 1, 0x6B);
   (0x212B, 0x212B, 1, 0xE5); (0x2132, 0x2132, 1, 0x214E); (0x2160, 0x216F, 1, 0x2170);
   (0x2183, 0x2183, 1, 0x2184); (0x24B6, 0x24CF, 1, 0x24D0); (0x2C00, 0x2C2F, 1, 0x2C30);
   (0x2C60, 0x2C60, 1, 0x2C61); (0x2C62, 0x2C62, 1, 0x26B); (0x2C63, 0x2C63, 1, 0x1D7D);
   (0x2C64, 0x2C64, 1, 0x27D); (0x2C67, 0x2C6B, 2, 0x2C68); (0x2C6D, 0x2C6D, 1, 0x251);
   (0x2C6E, 0x2C6E, 1, 0x271); (0x2C6F, 0x2C6F, 1, 0x250); (0x2C70, 0x2C70, 1, 0x252);
   (0x2C72, 0x2C72, 1, 0x2C73); (0x2C75, 0x2C75, 1, 0x2C76); (0x2C7E, 0x2C7F, 1, 0x23F);
   (0x2C80, 0x2CE2, 2, 0x2C81); (0x2CEB, 0x2CED, 2, 0x2CEC); (0x2CF2, 0x2CF2, 1, 0x2CF3);
   (0xA640, 0xA66C, 2, 0xA641); (0xA680, 0xA69A, 2, 0xA681); (0xA722, 0xA72E, 2, 0xA723);
   (0xA732, 0xA76E, 2, 0xA733); (0xA779, 0xA77B, 2, 0xA77A); (0xA77D, 0xA77D, 1, 0x1D79);
   (0xA77E, 0xA786, 2, 0xA77F); (0xA78B, 0xA78B, 1, 0xA78C); (0xA78D, 0xA78D, 1, 0x265);
   (0xA790, 0xA792, 2, 0xA791); (0xA796, 0xA7A8, 2, 0xA797); (0xA7AA, 0xA7AA, 1, 0x266);
   (0xA7AB, 0xA7AB, 1, 0x25C); (0xA7AC, 0xA7AC, 1, 0x261); (0xA7AD, 0xA7AD, 1, 0x26C);
   (0xA7AE, 0xA7AE, 1, 0x26A); (0xA7B0, 0xA7B0, 1, 0x29E); (0xA7B1, 0xA7B1, 1, 0x287);
   (0xA7B2, 0xA7B2, 1, 0x29D); (0xA7B3, 0xA7B3, 1, 0xAB53); (0xA7B4, 0xA7C2, 2, 0xA7B5);
   (0xA7C4, 0xA7C4, 1, 0xA794); (0xA7C5, 0xA7C5, 1, 0x282); (0xA7C6, 0xA7C6, 1, 0x1D8E);
   (0xA7C7, 0xA7C9, 2, 0xA7C8); (0xA7D0, 0xA7D0, 1, 0xA7D1); (0xA7D6, 0xA7D8, 2, 0xA7D7);
   (0xA7F5, 0xA7F5, 1, 0xA7F6); (0xFF21, 0xFF3A, 1, 0xFF41); (0x10400, 0x10427, 1, 0x10428);
   (0x104B0, 0x104D3, 1, 0x104D8); (0x10570, 0x1057A, 1, 0x10597); (0x1057C, 0x1058A, 1, 0x105A3);
   (0x1058C, 0x10592, 1, 0x105B3); (0x10594, 0x10595, 1, 0x105BB); (0x10C80, 0x10CB2, 1, 0x10CC0);
   (0x118A0, 0x118BF, 1, 0x118C0); (0x16E40, 0x16E5F, 1, 0x16E60); (0x1E900, 0x1E921, 1, 0x1E922)].

Fixpoint mapped (table : list (N * N * N * N)) (cp : N) : N :=
  match table with
  | [] => cp
  | (first, last, step, image) :: rest =>
      if (first <=? cp) && (cp <=? last) && ((cp - first) mod step =? 0)
      then image + (cp - first)
      else mapped rest cp
  end.

(** The code points with the property Cased, and those with the property
    Case_Ignorable, as ranges. *)
Definition casedRanges : list (N * N) :=
  [ (0x41, 0x5A); (0x61, 0x7A); (0xAA, 0xAA); (0xB5, 0xB5);
   (0xBA, 0xBA); (0xC0, 0xD6); (0xD8, 0xF6); (0xF8, 0x1BA);
   (0x1BC, 0x1BF); (0x1C4, 0x293); (0x295, 0x2B8); (0x2C0, 0x2C1);
   (0x2E0, 0x2E4); (0x345, 0x345); (0x370, 0x373); (0x376, 0x377);
   (0x37A, 0x37D); (0x37F, 0x37F); (0x386, 0x386); (0x388, 0x38A);
   (0x38C, 0x38C); (0x38E, 0x3A1); (0x3A3, 0x3F5); (0x3F7, 0x481);
   (0x48A, 0x52F); (0x531, 0x556); (0x560, 0x588); (0x10A0, 0x10C5);
   (0x10C7, 0x10C7); (0x10CD, 0x10CD); (0x10D0, 0x10FA); (0x10FD, 0x10FF);
   (0x13A0, 0x13F5); (0x13F8, 0x13FD); (0x1C80, 0x1C88); (0x1C90, 0x1CBA);
   (0x1CBD, 0x1CBF); (0x1D00, 0x1DBF); (0x1E00, 0x1F15); (0x1F18, 0x1F1D);
   (0x1F20, 0x1F45); (0x1F48, 0x1F4D); (0x1F50, 0x1F57); (0x1F59, 0x1F59);
   (0x1F5B, 0x1F5B); (0x1F5D, 0x1F5D); (0x1F5F, 0x1F7D); (0x1F80, 0x1FB4);
   (0x1FB6, 0x1FBC); (0x1FBE, 0x1FBE); (0x1FC2, 0x1FC4); (0x1FC6, 0x1FCC);
   (0x1FD0, 0x1FD3); (0x1FD6, 0x1FDB); (0x1FE0, 0x1FEC); (0x1FF2, 0x1FF4);
   (0x1FF6, 0x1FFC); (0x2071, 0x2071); (0x207F, 0x207F); (0x2090, 0x209C);
   (0x2102, 0x2102); (0x2107, 0x2107); (0x210A, 0x2113); (0x2115, 0x2115);
   (0x2119, 0x211D); (0x2124, 0x2124); (0x2126, 0x2126); (0x2128, 0x2128);
   (0x212A, 0x212D); (0x212F, 0x2134); (0x2139, 0x2139); (0x213C, 0x213F);
   (0x2145, 0x2149); (0x214E, 0x214E); (0x2160, 0x217F); (0x2183, 0x2184);
   (0x24B6, 0x24E9); (0x2C00, 0x2CE4); (0x2CEB, 0x2CEE); (0x2CF2, 0x2CF3);
   (0x2D00, 0x2D25); (0x2D27, 0x2D27); (0x2D2D, 0x2D2D); (0xA640, 0xA66D);
   (0xA680, 0xA69D); (0xA722, 0xA787); (0xA78B, 0xA78E); (0xA790, 0xA7CA);
   (0xA7D0, 0xA7D1); (0xA7D3, 0xA7D3); (0xA7D5, 0xA7D9); (0xA7F5, 0xA7F6);
   (0xA7F8, 0xA7FA); (0xAB30, 0xAB5A); (0xAB5C, 0xAB68); (0xAB70, 0xABBF);
   (0xFB00, 0xFB06); (0xFB13, 0xFB17); (0xFF21, 0xFF3A); (0xFF41, 0xFF5A);
   (0x10400, 0x1044F); (0x104B0, 0x104D3); (0x104D8, 0x104FB); (0x10570, 0x1057A);
   (0x1057C, 0x1058A); (0x1058C, 0x10592); (0x10594, 0x10595); (0x10597, 0x105A1);
   (0x105A3, 0x105B1); (0x105B3, 0x105B9); (0x105BB, 0x105BC); (0x10780, 0x10780);
   (0x10783, 0x10785); (0x10787, 0x107B0); (0x107B2, 0x107BA); (0x10C80, 0x10CB2);
   (0x10CC0, 0x10CF2); (0x118A0, 0x118DF); (0x16E40, 0x16E7F); (0x1D400, 0x1D454);
   (0x1D456, 0x1D49C); (0x1D49E, 0x1D49F); (0x1D4A2, 0x1D4A2); (0x1D4A5, 0x1D4A6);
   (0x1D4A9, 0x1D4AC); (0x1D4AE, 0x1D4B9); (0x1D4BB, 0x1D4BB); (0x1D4BD, 0x1D4C3);
   (0x1D4C5, 0x1D505); (0x1D507, 0x1D50A); (0x1D50D, 0x1D514); (0x1D516, 0x1D51C);
   (0x1D51E, 0x1D539); (0x1D53B, 0x1D53E); (0x1D540, 0x1D544); (0x1D546, 0x1D546);
   (0x1D54A, 0x1D550); (0x1D552, 0x1D6A5); (0x1D6A8, 0x1D6C0); (0x1D6C2, 0x1D6DA);
   (0x1D6DC, 0x1D6FA); (0x1D6FC, 0x1D714); (0x1D716, 0x1D734); (0x1D736, 0x1D74E);
   (0x1D750, 0x1D76E); (0x1D770, 0x1D788); (0x1D78A, 0x1D7A8); (0x1D7AA, 0x1D7C2);
   (0x1D7C4, 0x1D7CB); (0x1DF00, 0x1DF09); (0x1DF0B, 0x1DF1E); (0x1E900, 0x1E943);
   (0x1F130, 0x1F149); (0x1F150, 0x1F169); (0x1F170, 0x1F189)].

Definition caseIgnorableRanges : list (N * N) :=
  [ (0x27, 0x27); (0x2E, 0x2E); (0x3A, 0x3A); (0x5E, 0x5E);
   (0x60, 0x60); (0xA8, 0xA8); (0xAD, 0xAD); (0xAF, 0xAF);
   (0xB4, 0xB4); (0xB7, 0xB8); (0x2B0, 0x36F); (0x374, 0x375);
   (0x37A, 0x37A); (0x384, 0x385); (0x387, 0x387); (0x483, 0x489);
   (0x559, 0x559); (0x55F, 0x55F); (0x591, 0x5BD); (0x5BF, 0x5BF);
   (0x5C1, 0x5C2); (0x5C4, 0x5C5); (0x5C7, 0x5C7); (0x5F4, 0x5F4);
   (0x600, 0x605); (0x610, 0x61A); (0x61C, 0x61C); (0x640, 0x640);
   (0x64B, 0x65F); (0x670, 0x670); (0x6D6, 0x6DD); (0x6DF, 0x6E8);
   (0x6EA, 0x6ED); (0x70F, 0x70F); (0x711, 0x711); (0x730, 0x74A);
   (0x7A6, 0x7B0); (0x7EB, 0x7F5); (0x7FA, 0x7FA); (0x7FD, 0x7FD);
   (0x816, 0x82D); (0x859, 0x85B); (0x888, 0x888); (0x890, 0x891);
   (0x898, 0x89F); (0x8C9, 0x902); (0x93A, 0x93A); (0x93C, 0x93C);
   (0x941, 0x948); (0x94D, 0x94D); (0x951, 0x957); (0x962, 0x963);
   (0x971, 0x971); (0x981, 0x981); (0x9BC, 0x9BC); (0x9C1, 0x9C4);
   (0x9CD, 0x9CD); (0x9E2, 0x9E3); (0x9FE, 0x9FE); (0xA01, 0xA02);
   (0xA3C, 0xA3C); (0xA41, 0xA42); (0xA47, 0xA48); (0xA4B, 0xA4D);
   (0xA51, 0xA51); (0xA70, 0xA71); (0xA75, 0xA75); (0xA81, 0xA82);
   (0xABC, 0xABC); (0xAC1, 0xAC5); (0xAC7, 0xAC8); (0xACD, 0xACD);
   (0xAE2, 0xAE3); (0xAFA, 0xAFF); (0xB01, 0xB01); (0xB3C, 0xB3C);
   (0xB3F, 0xB3F); (0xB41, 0xB44); (0xB4D, 0xB4D); (0xB55, 0xB56);
   (0xB62, 0xB63); (0xB82, 0xB82); (0xBC0, 0xBC0); (0xBCD, 0xBCD);
   (0xC00, 0xC00); (0xC04, 0xC04); (0xC3C, 0xC3C); (0xC3E, 0xC40);
   (0xC46, 0xC48); (0xC4A, 0xC4D); (0xC55, 0xC56); (0xC62, 0xC63);
   (0xC81, 0xC81); (0xCBC, 0xCBC); (0xCBF, 0xCBF); (0xCC6, 0xCC6);
   (0xCCC, 0xCCD); (0xCE2, 0xCE3); (0xD00, 0xD01); (0xD3B, 0xD3C);
   (0xD41, 0xD44); (0xD4D, 0xD4D); (0xD62, 0xD63); (0xD81, 0xD81);
   (0xDCA, 0xDCA); (0xDD2, 0xDD4); (0xDD6, 0xDD6); (0xE31, 0xE31);
   (0xE34, 0xE3A); (0xE46, 0xE4E); (0xEB1, 0xEB1); (0xEB4, 0xEBC);
   (0xEC6, 0xEC6); (0xEC8, 0xECD); (0xF18, 0xF19); (0xF35, 0xF35);
   (0xF37, 0xF37); (0xF39, 0xF39); (0xF71, 0xF7E); (0xF80, 0xF84);
   (0xF86, 0xF87); (0xF8D, 0xF97); (0xF99, 0xFBC); (0xFC6, 0xFC6);
   (0x102D, 0x1030); (0x1032, 0x1037); (0x1039, 0x103A); (0x103D, 0x103E);
   (0x1058, 0x1059); (0x105E, 0x1060); (0x1071, 0x1074); (0x1082, 0x1082);
   (0x1085, 0x1086); (0x108D, 0x108D); (0x109D, 0x109D); (0x10FC, 0x10FC);
   (0x135D, 0x135F); (0x1712, 0x1714); (0x1732, 0x1733); (0x1752, 0x1753);
   (0x1772, 0x1773); (0x17B4, 0x17B5); (0x17B7, 0x17BD); (0x17C6, 0x17C6);
   (0x17C9, 0x17D3); (0x17D7, 0x17D7); (0x17DD, 0x17DD); (0x180B, 0x180F);
   (0x1843, 0x1843); (0x1885, 0x1886); (0x18A9, 0x18A9); (0x1920, 0x1922);
   (0x1927, 0x1928); (0x1932, 0x1932); (0x1939, 0x193B); (0x1A17, 0x1A18);
   (0x1A1B, 0x1A1B); (0x1A56, 0x1A56); (0x1A58, 0x1A5E); (0x1A60, 0x1A60);
   (0x1A62, 0x1A62); (0x1A65, 0x1A6C); (0x1A73, 0x1A7C); (0x1A7F, 0x1A7F);
   (0x1AA7, 0x1AA7); (0x1AB0, 0x1ACE); (0x1B00, 0x1B03); (0x1B34, 0x1B34);
   (0x1B36, 0x1B3A); (0x1B3C, 0x1B3C); (0x1B42, 0x1B42); (0x1B6B, 0x1B73);
   (0x1B80, 0x1B81); (0x1BA2, 0x1BA5); (0x1BA8, 0x1BA9); (0x1BAB, 0x1BAD);
   (0x1BE6, 0x1BE6); (0x1BE8, 0x1BE9); (0x1BED, 0x1BED); (0x1BEF, 0x1BF1);
   (0x1C2C, 0x1C33); (0x1C36, 0x1C37); (0x1C78, 0x1C7D); (0x1CD0, 0x1CD2);
   (0x1CD4, 0x1CE0); (0x1CE2, 0x1CE8); (0x1CED, 0x1CED); (0x1CF4, 0x1CF4);
   (0x1CF8, 0x1CF9); (0x1D2C, 0x1D6A); (0x1D78, 0x1D78); (0x1D9B, 0x1DFF);
   (0x1FBD, 0x1FBD); (0x1FBF, 0x1FC1); (0x1FCD, 0x1FCF); (0x1FDD, 0x1FDF);
   (0x1FED, 0x1FEF); (0x1FFD, 0x1FFE); (0x200B, 0x200F); (0x2018, 0x2019);
   (0x2024, 0x2024); (0x2027, 0x2027); (0x202A, 0x202E); (0x2060, 0x2064);
   (0x2066, 0x206F); (0x2071, 0x2071); (0x207F, 0x207F); (0x2090, 0x209C);
   (0x20D0, 0x20F0); (0x2C7C, 0x2C7D); (0x2CEF, 0x2CF1); (0x2D6F, 0x2D6F);
   (0x2D7F, 0x2D7F); (0x2DE0, 0x2DFF); (0x2E2F, 0x2E2F); (0x3005, 0x3005);
   (0x302A, 0x302D); (0x3031, 0x3035); (0x303B, 0x303B); (0x3099, 0x309E);
   (0x30FC, 0x30FE); (0xA015, 0xA015); (0xA4F8, 0xA4FD); (0xA60C, 0xA60C);
   (0xA66F, 0xA672); (0xA674, 0xA67D); (0xA67F, 0xA67F); (0xA69C, 0xA69F);
   (0xA6F0, 0xA6F1); (0xA700, 0xA721); (0xA770, 0xA770); (0xA788, 0xA78A);
   (0xA7F2, 0xA7F4); (0xA7F8, 0xA7F9); (0xA802, 0xA802); (0xA806, 0xA806);
   (0xA80B, 0xA80B); (0xA825, 0xA826); (0xA82C, 0xA82C); (0xA8C4, 0xA8C5);
   (0xA8E0, 0xA8F1); (0xA8FF, 0xA8FF); (0xA926, 0xA92D); (0xA947, 0xA951);
   (0xA980, 0xA982); (0xA9B3, 0xA9B3); (0xA9B6, 0xA9B9); (0xA9BC, 0xA9BD);
   (0xA9CF, 0xA9CF); (0xA9E5, 0xA9E6); (0xAA29, 0xAA2E); (0xAA31, 0xAA32);
   (0xAA35, 0xAA36); (0xAA43, 0xAA43); (0xAA4C, 0xAA4C); (0xAA70, 0xAA70);
   (0xAA7C, 0xAA7C); (0xAAB0, 0xAAB0); (0xAAB2, 0xAAB4); (0xAAB7, 0xAAB8);
   (0xAABE, 0xAABF); (0xAAC1, 0xAAC1); (0xAADD, 0xAADD); (0xAAEC, 0xAAED);
   (0xAAF3, 0xAAF4); (0xAAF6, 0xAAF6); (0xAB5B, 0xAB5F); (0xAB69, 0xAB6B);
   (0xABE5, 0xABE5); (0xABE8, 0xABE8); (0xABED, 0xABED); (0xFB1E, 0xFB1E);
   (0xFBB2, 0xFBC2); (0xFE00, 0xFE0F); (0xFE13, 0xFE13); (0xFE20, 0xFE2F);
   (0xFE52, 0xFE52); (0xFE55, 0xFE55); (0xFEFF, 0xFEFF); (0xFF07, 0xFF07);
   (0xFF0E, 0xFF0E); (0xFF1A, 0xFF1A); (0xFF3E, 0xFF3E); (0xFF40, 0xFF40);
   (0xFF70, 0xFF70); (0xFF9E, 0xFF9F); (0xFFE3, 0xFFE3); (0xFFF9, 0xFFFB);
   (0x101FD, 0x101FD); (0x102E0, 0x102E0); (0x10376, 0x1037A); (0x10780, 0x10785);
   (0x10787, 0x107B0); (0x107B2, 0x107BA); (0x10A01, 0x10A03); (0x10A05, 0x10A06);
   (0x10A0C, 0x10A0F); (0x10A38, 0x10A3A); (0x10A3F, 0x10A3F); (0x10AE5, 0x10AE6);
   (0x10D24, 0x10D27); (0x10EAB, 0x10EAC); (0x10F46, 0x10F50); (0x10F82, 0x10F85);
   (0x11001, 0x11001); (0x11038, 0x11046); (0x11070, 0x11070); (0x11073, 0x11074);
   (0x1107F, 0x11081); (0x110B3, 0x110B6); (0x110B9, 0x110BA); (0x110BD, 0x110BD);
   (0x110C2, 0x110C2); (0x110CD, 0x110CD); (0x11100, 0x11102); (0x11127, 0x1112B);
   (0x1112D, 0x11134); (0x11173, 0x11173); (0x11180, 0x11181); (0x111B6, 0x111BE);
   (0x111C9, 0x111CC); (0x111CF, 0x111CF); (0x1122F, 0x11231); (0x11234, 0x11234);
   (0x11236, 0x11237); (0x1123E, 0x1123E); (0x112DF, 0x112DF); (0x112E3, 0x112EA);
   (0x11300, 0x11301); (0x1133B, 0x1133C); (0x11340, 0x11340); (0x11366, 0x1136C);
   (0x11370, 0x11374); (0x11438, 0x1143F); (0x11442, 0x11444); (0x11446, 0x11446);
   (0x1145E, 0x1145E); (0x114B3, 0x114B8); (0x114BA, 0x114BA); (0x114BF, 0x114C0);
   (0x114C2, 0x114C3); (0x115B2, 0x115B5); (0x115BC, 0x115BD); (0x115BF, 0x115C0);
   (0x115DC, 0x115DD); (0x11633, 0x1163A); (0x1163D, 0x1163D); (0x1163F, 0x11640);
   (0x116AB, 0x116AB); (0x116AD, 0x116AD); (0x116B0, 0x116B5); (0x116B7, 0x116B7);
   (0x1171D, 0x1171F); (0x11722, 0x11725); (0x11727, 0x1172B); (0x1182F, 0x11837);
   (0x11839, 0x1183A); (0x1193B, 0x1193C); (0x1193E, 0x1193E); (0x11943, 0x11943);
   (0x119D4, 0x119D7); (0x119DA, 0x119DB); (0x119E0, 0x119E0); (0x11A01, 0x11A0A);
   (0x11A33, 0x11A38); (0x11A3B, 0x11A3E); (0x11A47, 0x11A47); (0x11A51, 0x11A56);
   (0x11A59, 0x11A5B); (0x11A8A, 0x11A96); (0x11A98, 0x11A99); (0x11C30, 0x11C36);
   (0x11C38, 0x11C3D); (0x11C3F, 0x11C3F); (0x11C92, 0x11CA7); (0x11CAA, 0x11CB0);
   (0x11CB2, 0x11CB3); (0x11CB5, 0x11CB6); (0x11D31, 0x11D36); (0x11D3A, 0x11D3A);
   (0x11D3C, 0x11D3D); (0x11D3F, 0x11D45); (0x11D47, 0x11D47); (0x11D90, 0x11D91);
   (0x11D95, 0x11D95); (0x11D97, 0x11D97); (0x11EF3, 0x11EF4); (0x13430, 0x13438);
   (0x16AF0, 0x16AF4); (0x16B30, 0x16B36); (0x16B40, 0x16B43); (0x16F4F, 0x16F4F);
   (0x16F8F, 0x16F9F); (0x16FE0, 0x16FE1); (0x16FE3, 0x16FE4); (0x1AFF0, 0x1AFF3);
   (0x1AFF5, 0x1AFFB); (0x1AFFD, 0x1AFFE); (0x1BC9D, 0x1BC9E); (0x1BCA0, 0x1BCA3);
   (0x1CF00, 0x1CF2D); (0x1CF30, 0x1CF46); (0x1D167, 0x1D169); (0x1D173, 0x1D182);
   (0x1D185, 0x1D18B); (0x1D1AA, 0x1D1AD); (0x1D242, 0x1D244); (0x1DA00, 0x1DA36);
   (0x1DA3B, 0x1DA6C); (0x1DA75, 0x1DA75); (0x1DA84, 0x1DA84); (0x1DA9B, 0x1DA9F);
   (0x1DAA1, 0x1DAAF); (0x1E000, 0x1E006); (0x1E008, 0x1E018); (0x1E01B, 0x1E021);
   (0x1E023, 0x1E024); (0x1E026, 0x1E02A); (0x1E130, 0x1E13D); (0x1E2AE, 0x1E2AE);
   (0x1E2EC, 0x1E2EF); (0x1E8D0, 0x1E8D6); (0x1E944, 0x1E94B); (0x1F3FB, 0x1F3FF);
   (0xE0001, 0xE0001); (0xE0020, 0xE007F); (0xE0100, 0xE01EF)].

Definition inRanges (ranges : list (N * N)) (cp : N) : bool :=
  existsb (fun r => (fst r <=? cp) && (cp <=? snd r)) ranges.

Definition cased (cp : N) : bool := inRanges casedRanges cp.
Definition caseIgnorable (cp : N) : bool := inRanges caseIgnorableRanges cp.

(** The lower-case form of a Basic Latin unit. *)
Definition lowerLatin (c : N) : N :=
  if (65 <=? c) && (c <=? 90) then c + 32 else c.

Definition simpleLower (cp : N) : N :=
  if cp <? 128 then lowerLatin cp else mapped lowerCaseMappings cp.

(** Past the case-ignorable code points at the head of [ps], the next code
    point is cased. *)
Fixpoint nextIsCased (ps : list point) : bool :=
  match ps with
  | [] => false
  | p :: rest =>
      if caseIgnorable (codePoint p) then nextIsCased rest
      else cased (codePoint p)
  end.

(** The lower-case form of one code point; [before] holds the code points
    that precede it, nearest first, and [after] those that follow.  Two
    code points have a form of their own: capital sigma (U+03A3), written
    as final sigma where a word ends, and capital I with dot above, which
    becomes [i] followed by a combining dot. *)
Definition lowerPoint (before after : list point) (p : point) : jsstring :=
  let cp := codePoint p in
  if cp =? 0x3A3 then
    if nextIsCased before && negb (nextIsCased after) then [0x3C2] else [0x3C3]
  else if cp =? 0x130 then [0x69; 0x307]
  else unitsOf (simpleLower cp).

Fixpoint lowerPoints (before ps : list point) : jsstring :=
  match ps with
  | [] => []
  | p :: rest => lowerPoint before rest p ++ lowerPoints (p :: before) rest
  end.

Definition toLowerCase (s : jsstring) : jsstring := lowerPoints [] (points s).

(** Decimal rendering of an integer, as a template literal prints an
    integral Number below 1e21. *)
Fixpoint digitsOf (u : Decimal.uint) : jsstring :=
  match u with
  | Decimal.Nil => []
  | Decimal.D0 r => 48 :: digitsOf r
  | Decimal.D1 r => 49 :: digitsOf r
  | Decimal.D2 r => 50 :: digitsOf r
  | Decimal.D3 r => 51 :: digitsOf r
  | Decimal.D4 r => 52 :: digitsOf r
  | Decimal.D5 r => 53 :: digitsOf r
  | Decimal.D6 r => 54 :: digitsOf r
  | Decimal.D7 r => 55 :: digitsOf r
  | Decimal.D8 r => 56 :: digitsOf r
  | Decimal.D9 r => 57 :: digitsOf r
  end.

Definition decimal (z : Z) : jsstring :=
  match Z.to_int z with
  | Decimal.Pos u => digitsOf u
  | Decimal.Neg u => 45 :: digitsOf u
  end.

End Js.

Import Js.

(** ** JavaScript values as [JSON.parse] produces them *)

Module Json.

(** A Number is a binary64 value. *)
Definition prec : Z := 53.
Definition emax : Z := 1024.

#[local] Set Warnings "-register-all".

Inductive value : Type :=
  | JNull
  | JBool (b : bool)
  | JNumber (x : spec_float)
  | JString (s : jsstring)
  | JArray (elements : list value)
  | JObject (props : list (jsstring * value)).

(** Own properties of a plain object, in the order in which they are
    listed. *)
Fixpoint lookup (k : jsstring) (props : list (jsstring * value)) : option value :=
  match props with
  | [] => None
  | (k', v) :: rest => if eqb k' k then Some v else lookup k rest
  end.

(** The array index a property key spells, if any: a decimal numeral
    without a leading zero that is at most 2^32 - 2. *)
Definition arrayIndex (k : jsstring) : option N :=
  match k with
  | [] => None
  | c :: r =>
      if forallb (fun d => (48 <=? d) && (d <=? 57)) k
         && (negb (c =? 48) || eqb r []) then
        let n := fold_left (fun a d => a * 10 + (d - 48)) k 0 in
        if n <=? 4294967294 then Some n else None
      else None
  end.

Fixpoint replaceProp (k : jsstring) (v : value) (props : list (jsstring * value))
  : list (jsstring * value) :=
  match props with
  | [] => []
  | (k', v') :: rest =>
      if eqb k' k then (k', v) :: rest else (k', v') :: replaceProp k v rest
  end.

(** A new key that spells the array index [n] goes after the keys that
    spell a smaller one. *)
Fixpoint insertIndexed (n : N) (k : jsstring) (v : value)
    (props : list (jsstring * value)) : list (jsstring * value) :=
  match props with
  | [] => [(k, v)]
  | (k', v') :: rest =>
      match arrayIndex k' with
      | Some m =>
          if m <? n then (k', v') :: insertIndexed n k v rest
          else (k, v) :: props
      | None => (k, v) :: props
      end
  end.

(** [CreateDataProperty] on an ordinary object, whose own properties are
    listed with the array indices first, in ascending order, and the other
    keys after them in the order of their creation: an existing key keeps
    its place and takes the new value, a new array index goes to its place
    among the indices, any other new key goes last. *)
Definition setProp (k : jsstring) (v : value) (props : list (jsstring * value))
  : list (jsstring * value) :=
  match lookup k props with
  | Some _ => replaceProp k v props
  | None =>
      match arrayIndex k with
      | Some n => insertIndexed n k v props
      | None => props ++ [(k, v)]
      end
  end.

(** [v.k] for the property names the handlers read ([imageUrl], [items],
    [name], [estimatedGrams], [type]): none is an array index, [length] or a
    member of a built-in prototype, so only a plain object can own one and
    every other value answers [undefined], here [None]. *)
Definition get (v : value) (k : jsstring) : option value :=
  match v with
  | JObject props => lookup k props
  | _ => None
  end.

(** [typeof v], with [None] for [undefined]. *)
Definition typeof (v : option value) : jsstring :=
  match v with
  | None => str "undefined"
  | Some JNull => str "object"
  | Some (JBool _) => str "boolean"
  | Some (JNumber _) => str "number"
  | Some (JString _) => str "string"
  | Some (JArray _) => str "object"
  | Some (JObject _) => str "object"
  end.

(** [ToBoolean]. *)
Definition truthy (v : option value) : bool :=
  match v with
  | None => false
  | Some JNull => false
  | Some (JBool b) => b
  | Some (JNumber (S754_zero _)) => false
  | Some (JNumber S754_nan) => false
  | Some (JNumber _) => true
  | Some (JString s) => negb (eqb s [])
  | Some (JArray _) => true
  | Some (JObject _) => true
  end.

Definition isArray (v : option value) : bool :=
  match v with
  | Some (JArray _) => true
  | _ => false
  end.

Definition zero : spec_float := S754_zero false.

(** [x < y] and [x >= y] on Numbers. *)
Definition lt (x y : spec_float) : bool := SFltb x y.
Definition ge (x y : spec_float) : bool := SFleb y x.

(** *** [JSON.stringify], read back *)

(** What [JSON.parse] reads in the text that [JSON.stringify] writes for a
    value: the content of a JSON body.  A finite Number is written with
    the digits that denote it and no others, so it is read back as itself,
    except that negative zero is written [0]; an infinity and NaN are
    written [null].  Strings, booleans, [null], the elements of arrays and
    the properties of objects are written in place. *)
Fixpoint serialized (v : value) : value :=
  match v with
  | JNumber (S754_zero _) => JNumber (S754_zero false)
  | JNumber (S754_finite s m e) => JNumber (S754_finite s m e)
  | JNumber _ => JNull
  | JArray xs => JArray (map serialized xs)
  | JObject props => JObject (map (fun kv => (fst kv, serialized (snd kv))) props)
  | _ => v
  end.

(** *** [JSON.parse] *)

Definition isJsonSpace (c : N) : bool :=
  (c =? 32) || (c =? 9) || (c =? 10) || (c =? 13).

Definition skipSpace (s : jsstring) : jsstring := dropWhile isJsonSpace s.

Definition isDigit (c : N) : bool := (48 <=? c) && (c <=? 57).

Definition hexValue (c : N) : option N :=
  if isDigit c then Some (c - 48)
  else if (97 <=? c) && (c <=? 102) then Some (c - 87)
  else if (65 <=? c) && (c <=? 70) then Some (c - 55)
  else None.

Definition hex4 (a b c d : N) : option N :=
  match hexValue a, hexValue b, hexValue c, hexValue d with
  | Some x, Some y, Some z, Some w => Some (((x * 16 + y) * 16 + z) * 16 + w)
  | _, _, _, _ => None
  end.

Definition simpleEscape (e : N) : option N :=
  if e =? 34 then Some 34 else if e =? 92 then Some 92
  else if e =? 47 then Some 47 else if e =? 98 then Some 8
  else if e =? 102 then Some 12 else if e =? 110 then Some 10
  else if e =? 114 then Some 13 else if e =? 116 then Some 9
  else None.

(** The characters of a string literal after its opening quote, and what
    follows the closing quote. *)
Fixpoint parseChars (s : jsstring) : option (jsstring * jsstring) :=
  match s with
  | [] => None
  | c :: r =>
      if c =? 34 then Some ([], r)
      else if c =? 92 then
        match r with
        | [] => None
        | e :: r1 =>
            if e =? 117 then
              match r1 with
              | a :: b :: c' :: d :: r2 =>
                  match hex4 a b c' d, parseChars r2 with
                  | Some u, Some (t, rest) => Some (u :: t, rest)
                  | _, _ => None
                  end
              | _ => None
              end
            else
              match simpleEscape e, parseChars r1 with
              | Some u, Some (t, rest) => Some (u :: t, rest)
              | _, _ => None
              end
        end
      else if c <? 32 then None
      else
        match parseChars r with
        | Some (t, rest) => Some (c :: t, rest)
        | None => None
        end
  end.

Fixpoint spanDigits (s : jsstring) : jsstring * jsstring :=
  match s with
  | [] => ([], [])
  | c :: r =>
      if isDigit c then let '(d, rest) := spanDigits r in (c :: d, rest)
      else ([], s)
  end.

Definition digitsValue (d : jsstring) : N :=
  fold_left (fun acc c => acc * 10 + (c - 48)) d 0.

(** The binary64 value nearest to [m * 10^e] (ties to even), with the sign
    [neg]; magnitudes beyond the binary64 range are settled without
    computing the power of ten. *)
Definition decimalToDouble (neg : bool) (m : N) (e : Z) : spec_float :=
  match m with
  | N0 => S754_zero neg
  | Npos p =>
      let scale := (Z.of_nat (Decimal.nb_digits (N.to_uint m)) + e)%Z in
      if (400 <? scale)%Z then S754_infinity neg
      else if (scale <? -400)%Z then S754_zero neg
      else if (0 <=? e)%Z then
        binary_round prec emax neg (p * Z.to_pos (10 ^ e)) 0
      else
        let '(q, e', l) :=
          SFdiv_core_binary prec emax (Zpos p) 0 (10 ^ (- e))%Z 0 in
        binary_round_aux prec emax neg q e' l
  end.

(** A number literal: [-? int frac? exp?]. *)
Definition parseNumber (s : jsstring) : option (spec_float * jsstring) :=
  let '(neg, s1) :=
    match s with
    | c :: r => if c =? 45 then (true, r) else (false, s)
    | [] => (false, s)
    end in
  let '(ip, s2) := spanDigits s1 in
  match ip with
  | [] => None
  | d0 :: more =>
      if (d0 =? 48) && negb (eqb more []) then None
      else
        let frac :=
          match s2 with
          | c :: r =>
              if c =? 46 then
                let '(fp, s3) := spanDigits r in
                match fp with [] => None | _ => Some (fp, s3) end
              else Some ([], s2)
          | [] => Some ([], s2)
          end in
        match frac with
        | None => None
        | Some (fp, s3) =>
            let expo :=
              match s3 with
              | c :: r =>
                  if (c =? 101) || (c =? 69) then
                    let '(eneg, r1) :=
                      match r with
                      | g :: r' =>
                          if g =? 45 then (true, r')
                          else if g =? 43 then (false, r') else (false, r)
                      | [] => (false, r)
                      end in
                    let '(ep, s4) := spanDigits r1 in
                    match ep with
                    | [] => None
                    | _ =>
                        let x := Z.of_N (digitsValue ep) in
                        Some (if eneg then (- x)%Z else x, s4)
                    end
                  else Some (0%Z, s3)
              | [] => Some (0%Z, s3)
              end in
            match expo with
            | None => None
            | Some (x, s4) =>
                Some (decimalToDouble neg (digitsValue (ip ++ fp))
                        (x - Z.of_nat (length fp))%Z, s4)
            end
        end
  end.

(** A value, preceded by white space.  [fuel] bounds the number of nested
    and successive calls; [JSON_parse] passes more than a text can use. *)
Fixpoint parseValue (fuel : nat) (s : jsstring) : option (value * jsstring) :=
  match fuel with
  | O => None
  | S f =>
      match skipSpace s with
      | [] => None
      | c :: r =>
          if c =? 123 then
            match skipSpace r with
            | c' :: r' =>
                if c' =? 125 then Some (JObject [], r') else parseMembers f r []
            | [] => None
            end
          else if c =? 91 then
            match skipSpace r with
            | c' :: r' =>
                if c' =? 93 then Some (JArray [], r') else parseElements f r []
            | [] => None
            end
          else if c =? 34 then
            match parseChars r with
            | Some (t, rest) => Some (JString t, rest)
            | None => None
            end
          else if startsWith (c :: r) (str "true") then
            Some (JBool true, skipn 4 (c :: r))
          else if startsWith (c :: r) (str "false") then
            Some (JBool false, skipn 5 (c :: r))
          else if startsWith (c :: r) (str "null") then
            Some (JNull, skipn 4 (c :: r))
          else
            match parseNumber (c :: r) with
            | Some (x, rest) => Some (JNumber x, rest)
            | None => None
            end
      end
  end

with parseElements (fuel : nat) (s : jsstring) (acc : list value)
  : option (value * jsstring) :=
  match fuel with
  | O => None
  | S f =>
      match parseValue f s with
      | None => None
      | Some (v, r) =>
          match skipSpace r with
          | c :: r' =>
              if c =? 44 then parseElements f r' (v :: acc)
              else if c =? 93 then Some (JArray (rev (v :: acc)), r')
              else None
          | [] => None
          end
      end
  end

with parseMembers (fuel : nat) (s : jsstring) (acc : list (jsstring * value))
  : option (value * jsstring) :=
  match fuel with
  | O => None
  | S f =>
      match skipSpace s with
      | q :: r0 =>
          if q =? 34 then
            match parseChars r0 with
            | None => None
            | Some (k, r1) =>
                match skipSpace r1 with
                | c :: r2 =>
                    if c =? 58 then
                      match parseValue f r2 with
                      | None => None
                      | Some (v, r3) =>
                          match skipSpace r3 with
                          | c' :: r4 =>
                              if c' =? 44 then parseMembers f r4 (setProp k v acc)
                              else if c' =? 125 then
                                Some (JObject (setProp k v acc), r4)
                              else None
                          | [] => None
                          end
                      end
                    else None
                | [] => None
                end
            end
          else None
      | [] => None
      end
  end.

(** [JSON.parse(text)]; [None] stands for the [SyntaxError] it throws. *)
Definition JSON_parse (text : jsstring) : option value :=
  match parseValue (2 * length text + 4) text with
  | Some (v, rest) =>
      match skipSpace rest with
      | [] => Some v
      | _ :: _ => None
      end
  | None => None
  end.

End Json.

Import Json.

(** ** Handlers: responses, exceptions and the trace of platform calls *)

Module Run.

(** What a [throw] carries: an [Error] with its message, or anything else. *)
Inductive exn : Type :=
  | JsError (message : jsstring)
  | Thrown.

(** A response with a JSON body: its status and the value its body text
    denotes. *)
Record response : Type := { status : N; body : value }.

(** [NextResponse.json(b, { status })]: the body is [JSON.stringify(b)]. *)
Definition json (b : value) (st : N) : response :=
  {| status := st; body := serialized b |}.

Definition errorBody (msg : jsstring) : value :=
  JObject [(str "error", JString msg)].

Section Monad.
(** [E] is the type of the platform calls a handler makes. *)
Context {E : Type}.

(** A computation extends the trace of calls made so far and either
    returns or throws. *)
Definition M (A : Type) : Type := list E -> (exn + A) * list E.

Definition ret {A} (a : A) : M A := fun t => (inr a, t).

Definition bind {A B} (m : M A) (k : A -> M B) : M B :=
  fun t =>
    match m t with
    | (inl e, t') => (inl e, t')
    | (inr a, t') => k a t'
    end.

Definition throw {A} (e : exn) : M A := fun t => (inl e, t).

(** A platform call: it is recorded, then answers or throws. *)
Definition call {A} (ev : E) (answer : exn + A) : M A :=
  fun t => (answer, t ++ [ev]).

(** [try { m } catch (e) { h e }]. *)
Definition tryCatch {A} (m : M A) (h : exn -> M A) : M A :=
  fun t =>
    match m t with
    | (inl e, t') => h e t'
    | (inr a, t') => (inr a, t')
    end.

(** An awaited read of the request or of the answer of a call; it may
    throw and is not a call of its own. *)
Definition await {A} (answer : exn + A) : M A := fun t => (answer, t).
End Monad.

Arguments M : clear implicits.

Declare Scope run_scope.
Delimit Scope run_scope with run.
Notation "x <- m ;; k" := (bind m (fun x => k))
  (at level 100, m at next level, right associativity) : run_scope.
Notation "m ;;; k" := (bind m (fun _ => k))
  (at level 100, right associativity) : run_scope.

(** [answer] of a call that returns nothing: [None] when it succeeds. *)
Definition unitAnswer (failure : option exn) : exn + unit :=
  match failure with
  | Some e => inl e
  | None => inr tt
  end.

End Run.

Import Run.

(** ** [src/app/api/upload/route.ts] *)

Module Upload.

Definition ALLOWED_TYPES : list jsstring :=
  [str "image/png"; str "image/jpeg"; str "image/jpg"; str "image/webp";
   str "image/gif"].

(** [array.includes(x)] for an array of strings; [undefined] is in none. *)
Definition includes (xs : list jsstring) (x : option jsstring) : bool :=
  match x with
  | Some s => existsb (fun a => eqb a s) xs
  | None => false
  end.

(** A path is kept as the segments handed to [path.join]. *)
Definition path := list jsstring.

(** A form entry: a [File], or the string of a plain text field. *)
Inductive entry : Type :=
  | EntryFile (name type : jsstring) (bytes : list Byte.byte)
  | EntryString (s : jsstring).

(** What the platform answers during one request. *)
Record world : Type := {
  cwd : jsstring;                       (* process.cwd() *)
  existsSync : bool;                    (* existsSync(UPLOAD_DIR) *)
  mkdir : option exn;                   (* failure of mkdir, if any *)
  formData : exn + option entry;        (* request.formData(), then get("file") *)
  now : Z;                              (* Date.now() *)
  randomDigits : list nat;              (* base-36 fraction digits of Math.random() *)
  writeFile : option exn                (* failure of writeFile, if any *)
}.

Inductive effect : Type :=
  | ExistsSync (p : path)
  | Mkdir (p : path)
  | WriteFile (p : path) (data : list Byte.byte)
  | ConsoleError (label : jsstring).

Definition UPLOAD_DIR (w : world) : path := [cwd w; str "public"; str "uploads"].

Definition ensureUploadDir (w : world) : M effect unit :=
  (exists_ <- call (ExistsSync (UPLOAD_DIR w)) (inr (existsSync w)) ;;
   if negb exists_ then call (Mkdir (UPLOAD_DIR w)) (unitAnswer (mkdir w))
   else ret tt)%run.

(** The digit characters of radix 36. *)
Definition digit36 (d : nat) : N :=
  nth (d mod 36) (str "0123456789abcdefghijklmnopqrstuvwxyz") 48.

(** [Math.random().toString(36)]: a number of [0, 1) prints as [0] or as
    [0.] followed by its fraction digits. *)
Definition randomToString36 (digits : list nat) : jsstring :=
  match digits with
  | [] => str "0"
  | _ :: _ => str "0." ++ map digit36 digits
  end.

(** [x || ""] on a string. *)
Definition orEmpty (x : jsstring) : jsstring :=
  if eqb x [] then [] else x.

Definition notSlashOrDot (c : N) : bool := negb ((c =? 47) || (c =? 46)).

(** [s.replace(/\.[^/.]+$/, "")]: the first position holding a dot that is
    followed, up to the end, by one or more units other than slash and dot. *)
Fixpoint removeExtension (s : jsstring) : jsstring :=
  match s with
  | [] => []
  | c :: r =>
      if (c =? 46) && negb (eqb r []) && forallb notSlashOrDot r then []
      else c :: removeExtension r
  end.

Definition isLowerAlnum (c : N) : bool :=
  ((97 <=? c) && (c <=? 122)) || ((48 <=? c) && (c <=? 57)).

(** [s.replace(/[^a-z0-9]+/g, "-")]; [inRun] tells that the unit before was
    part of the run being replaced. *)
Fixpoint hyphenate (inRun : bool) (s : jsstring) : jsstring :=
  match s with
  | [] => []
  | c :: r =>
      if isLowerAlnum c then c :: hyphenate false r
      else if inRun then hyphenate true r
      else 45 :: hyphenate true r
  end.

Definition isHyphen (c : N) : bool := c =? 45.

(** [s.replace(/^-+|-+$/g, "")]. *)
Definition trimHyphens (s : jsstring) : jsstring :=
  dropWhileEnd isHyphen (dropWhile isHyphen s).

(** [generateSafeFilename(originalName)], with the two clock and random
    reads of its first lines as arguments: [timestamp] is [Date.now()] and
    [random36] is [Math.random().toString(36)]. *)
Definition generateSafeFilename (timestamp : Z) (random36 : jsstring)
    (originalName : jsstring) : jsstring :=
  let random := substring 2 9 random36 in
  let ext := orEmpty (toLowerCase (last (split 46 originalName) [])) in
  let baseName :=
    trimHyphens (hyphenate false (toLowerCase (removeExtension originalName))) in
  baseName ++ str "-" ++ decimal timestamp ++ str "-" ++ random
    ++ str "." ++ ext.

(** [!file]. *)
Definition noFile (file : option entry) : bool :=
  match file with
  | None => true
  | Some (EntryString s) => eqb s []
  | Some (EntryFile _ _ _) => false
  end.

(** [file.type]; a string has none. *)
Definition typeOf (file : option entry) : option jsstring :=
  match file with
  | Some (EntryFile _ t _) => Some t
  | _ => None
  end.

Definition uploadsUrl (safeFilename : jsstring) : jsstring :=
  str "/uploads/" ++ safeFilename.

(** [POST(request)]: the trace starts empty; the result is the response the
    handler returns, or what it throws. *)
Definition POST (w : world) : (exn + response) * list effect :=
  tryCatch
    (ensureUploadDir w ;;;
     file <- await (formData w) ;;
     if noFile file then
       ret (json (errorBody (str "No file provided")) 400)
     else if negb (includes ALLOWED_TYPES (typeOf file)) then
       ret (json (errorBody (str
         "Invalid file type. Only PNG, JPG, JPEG, WEBP, and GIF images are allowed."))
         400)
     else
       match file with
       | Some (EntryFile name _ bytes) =>
           let buffer := bytes in
           let safeFilename :=
             generateSafeFilename (now w)
               (randomToString36 (randomDigits w)) name in
           let filePath := UPLOAD_DIR w ++ [safeFilename] in
           call (WriteFile filePath buffer) (unitAnswer (writeFile w)) ;;;
           let imageUrl := uploadsUrl safeFilename in
           ret (json (JObject [(str "imageUrl", JString imageUrl);
                               (str "url", JString imageUrl)]) 200)
       | _ =>
           (* not reached: only a File has a type of the allow-list *)
           throw (JsError (str "file.arrayBuffer is not a function"))
       end)%run
    (fun error =>
       (call (ConsoleError (str "Upload error:")) (inr tt) ;;;
        ret (json (errorBody (str "Failed to upload file")) 500))%run)
    [].

End Upload.

(** ** [src/app/api/analyze/route.ts] *)

Module Analyze.

(** What [fetch] resolves to. *)
Record fetchResponse : Type := {
  ok : bool;
  httpStatus : Z;
  statusText : jsstring;
  headers : list (jsstring * jsstring);
  arrayBuffer : exn + list Byte.byte
}.

(** The request sent to the generative model. *)
Record modelRequest : Type := {
  apiKey : jsstring;
  model : jsstring;
  prompt : jsstring;
  data : jsstring;
  mimeType : jsstring
}.

(** What the platform answers during one request. *)
Record world : Type := {
  requestJson : exn + value;                      (* request.json() *)
  GEMINI_API_KEY : option jsstring;               (* process.env.GEMINI_API_KEY *)
  fetch : jsstring -> exn + fetchResponse;        (* fetch(url) *)
  generateContent : modelRequest -> exn + jsstring (* the reply's text() *)
}.

Inductive effect : Type :=
  | Fetch (url : jsstring)
  | GenerateContent (r : modelRequest)
  | ConsoleError (label : jsstring).

(** [const { k } = body]: [null] cannot be destructured. *)
Definition destructure (body : value) (k : jsstring) : M effect (option value) :=
  match body with
  | JNull =>
      throw (JsError (str "Cannot destructure property 'imageUrl' of 'body' as it is null."))
  | _ => ret (get body k)
  end.

(** The string a value is once [typeof] has answered ["string"]. *)
Definition stringOf (v : option value) : jsstring :=
  match v with
  | Some (JString s) => s
  | _ => []
  end.

(** [!apiKey]. *)
Definition noKey (k : option jsstring) : bool :=
  match k with
  | None => true
  | Some s => eqb s []
  end.

(** [error instanceof Error ? error.message : other]. *)
Definition messageOr (error : exn) (other : jsstring) : jsstring :=
  match error with
  | JsError m => m
  | Thrown => other
  end.

Definition base64Alphabet : jsstring :=
  str "ABCDEFGHIJKLMNOPQRSTUVWXYZabcdefghijklmnopqrstuvwxyz0123456789+/".

Definition base64Char (n : N) : N := nth (N.to_nat n) base64Alphabet 61.

(** [buffer.toString("base64")]. *)
Fixpoint base64 (bytes : list N) : jsstring :=
  match bytes with
  | [] => []
  | [a] =>
      [base64Char (a / 4); base64Char ((a mod 4) * 16); 61; 61]
  | [a; b] =>
      [base64Char (a / 4); base64Char ((a mod 4) * 16 + b / 16);
       base64Char ((b mod 16) * 4); 61]
  | a :: b :: c :: rest =>
      base64Char (a / 4) :: base64Char ((a mod 4) * 16 + b / 16)
        :: base64Char ((b mod 16) * 4 + c / 64) :: base64Char (c mod 64)
        :: base64 rest
  end.

Definition toBase64 (buffer : list Byte.byte) : jsstring :=
  base64 (map Byte.to_N buffer).

(** Lines 59-67: the MIME type sent with the image. *)
Definition mimeTypeOf (imageUrl : jsstring) : jsstring :=
  if endsWith (toLowerCase imageUrl) (str ".png") then str "image/png"
  else if endsWith (toLowerCase imageUrl) (str ".webp") then str "image/webp"
  else if endsWith (toLowerCase imageUrl) (str ".gif") then str "image/gif"
  else str "image/jpeg".

Definition thePrompt : jsstring :=
  quoted "Analyze this food image and identify all food items visible. For each item, estimate the weight in grams if possible, otherwise use null.||"
  ++ quoted "Return ONLY valid JSON in this exact format (no markdown, no code blocks, no additional text):|"
  ++ quoted "{|  'items': [|    { 'name': 'item name', 'estimatedGrams': 100 },|"
  ++ quoted "    { 'name': 'item name', 'estimatedGrams': null }|  ]|}||"
  ++ quoted "Be specific with food item names. If you cannot estimate the weight, use null for estimatedGrams.".

(** Lines 100-113: the JSON text inside the model's reply. *)
Definition extractJson (text : jsstring) : jsstring :=
  let jsonText := trim text in
  if startsWith jsonText (str "```") then
    let lines := split 10 jsonText in
    let lines := tl lines in
    let lines :=
      if (0 <? length lines)%nat && eqb (trim (last lines [])) (str "```")
      then removelast lines else lines in
    trim (join 10 lines)
  else jsonText.

Definition invalid (what : string) : response :=
  json (errorBody (str "Invalid response structure: " ++ str what)) 500.

(** [item.estimatedGrams < 0], read once [typeof] has answered ["number"]. *)
Definition negative (g : option value) : bool :=
  match g with
  | Some (JNumber x) => lt x zero
  | _ => false
  end.

Definition isNull (g : option value) : bool :=
  match g with
  | Some JNull => true
  | _ => false
  end.

(** Lines 143-162: the loop over the items; [None] when none is refused. *)
Fixpoint validateItems (items : list value) : option response :=
  match items with
  | [] => None
  | item :: rest =>
      if negb (truthy (Some item))
         || negb (eqb (typeof (Some item)) (str "object")) then
        Some (invalid "each item must be an object")
      else if negb (eqb (typeof (get item (str "name"))) (str "string")) then
        Some (invalid "each item must have a 'name' string property")
      else
        let estimatedGrams := get item (str "estimatedGrams") in
        if negb (isNull estimatedGrams)
           && (negb (eqb (typeof estimatedGrams) (str "number"))
               || negative estimatedGrams) then
          Some (invalid "'estimatedGrams' must be a number >= 0 or null")
        else validateItems rest
  end.

Definition elementsOf (v : option value) : list value :=
  match v with
  | Some (JArray xs) => xs
  | _ => []
  end.

(** Lines 127-165: what the handler answers to a parsed reply. *)
Definition validateStructure (parsedResponse : value) : response :=
  if negb (truthy (Some parsedResponse))
     || negb (eqb (typeof (Some parsedResponse)) (str "object")) then
    invalid "expected an object"
  else if negb (isArray (get parsedResponse (str "items"))) then
    invalid "expected 'items' to be an array"
  else
    match validateItems (elementsOf (get parsedResponse (str "items"))) with
    | Some refusal => refusal
    | None => json parsedResponse 200
    end.

(** Lines 40-54: the image bytes, or the response of the inner [catch]. *)
Definition fetchImage (w : world) (imageUrl : jsstring)
  : M effect (response + list Byte.byte) :=
  tryCatch
    (imageResponse <- call (Fetch imageUrl) (fetch w imageUrl) ;;
     if negb (ok imageResponse) then
       throw (JsError (str "Failed to fetch image: "
         ++ decimal (httpStatus imageResponse) ++ str " "
         ++ statusText imageResponse))
     else
       arrayBuffer <- await (arrayBuffer imageResponse) ;;
       ret (inr arrayBuffer))%run
    (fun error =>
       ret (inl (json (errorBody (str "Failed to fetch image from URL: "
         ++ messageOr error (str "Unknown error"))) 400))).

(** Lines 69-95: the request made of the key, the image and its URL. *)
Definition requestFor (key : jsstring) (imageBuffer : list Byte.byte)
    (imageUrl : jsstring) : modelRequest :=
  {| apiKey := key; model := str "gemini-1.5-flash"; prompt := thePrompt;
     data := toBase64 imageBuffer; mimeType := mimeTypeOf imageUrl |}.

(** Lines 100-165: from the text of the reply to the response. *)
Definition answerFor (text : jsstring) : M effect response :=
  let jsonText := extractJson text in
  match JSON_parse jsonText with
  | None =>
      (call (ConsoleError (str "Failed to parse Gemini response as JSON:"))
         (inr tt) ;;;
       ret (json (errorBody
         (str "Failed to parse response as valid JSON. Raw response: "
          ++ substring 0 500 text)) 500))%run
  | Some parsedResponse => ret (validateStructure parsedResponse)
  end.

(** [POST(request)]: the trace starts empty; the result is the response the
    handler returns, or what it throws. *)
Definition POST (w : world) : (exn + response) * list effect :=
  tryCatch
    (body <- await (requestJson w) ;;
     imageUrl <- destructure body (str "imageUrl") ;;
     if negb (truthy imageUrl)
        || negb (eqb (typeof imageUrl) (str "string"))
        || eqb (trim (stringOf imageUrl)) [] then
       ret (json (errorBody
         (str "imageUrl is required and must be a non-empty string")) 400)
     else
       let imageUrl := stringOf imageUrl in
       if noKey (GEMINI_API_KEY w) then
         ret (json (errorBody
           (str "GEMINI_API_KEY environment variable is not set")) 500)
       else
         let key := match GEMINI_API_KEY w with Some k => k | None => [] end in
         fetched <- fetchImage w imageUrl ;;
         match fetched with
         | inl early => ret early
         | inr imageBuffer =>
             let request := requestFor key imageBuffer imageUrl in
             text <- call (GenerateContent request) (generateContent w request) ;;
             answerFor text
         end)%run
    (fun error =>
       (call (ConsoleError (str "Analyze error:")) (inr tt) ;;;
        ret (json (errorBody
          (messageOr error (str "An unexpected error occurred"))) 500))%run)
    [].

End Analyze.

(** ** The notions of the specification *)

Module Spec.

Import Upload Analyze.

(** The Number an integer literal denotes. *)
Definition numberOfZ (z : Z) : spec_float := binary_normalize prec emax z 0 false.

(** [JSON.parse] yields finite Numbers and infinities, never NaN. *)
Fixpoint noNaN (v : value) : bool :=
  match v with
  | JNumber S754_nan => false
  | JArray xs => forallb noNaN xs
  | JObject props => forallb (fun kv => noNaN (snd kv)) props
  | _ => true
  end.

(** *** Analysis result *)

(** A food item: an object with a string [name] and an [estimatedGrams]
    that is [null] or a number [>= 0]. *)
Definition isFoodItem (x : value) : bool :=
  match x with
  | JObject props =>
      match lookup (str "name") props, lookup (str "estimatedGrams") props with
      | Some (JString _), Some JNull => true
      | Some (JString _), Some (JNumber g) => ge g zero
      | _, _ => false
      end
  | _ => false
  end.

(** An analysis result: an object whose [items] is an array of food items. *)
Definition isAnalysisResult (v : value) : bool :=
  match v with
  | JObject props =>
      match lookup (str "items") props with
      | Some (JArray xs) => forallb isFoodItem xs
      | _ => false
      end
  | _ => false
  end.

(** A world in which the handler gets as far as the model's reply [text]:
    the body carries the non-blank string [url], the key is set, the image
    is fetched with success and the model answers. *)
Definition Replied (w : Analyze.world) (url key : jsstring)
    (r : fetchResponse) (bytes : list Byte.byte) (text : jsstring) : Prop :=
  (exists body, requestJson w = inr body
                /\ get body (str "imageUrl") = Some (JString url))
  /\ trim url <> []
  /\ GEMINI_API_KEY w = Some key /\ key <> []
  /\ fetch w url = inr r /\ ok r = true /\ arrayBuffer r = inr bytes
  /\ generateContent w (requestFor key bytes url) = inr text.

(** *** Fence extraction, in the words of the specification *)

(** The white space and line terminator code points of ECMAScript. *)
Definition whiteSpace : list N :=
  [0x9; 0xA; 0xB; 0xC; 0xD; 0x20; 0xA0; 0x1680; 0x2000; 0x2001; 0x2002;
   0x2003; 0x2004; 0x2005; 0x2006; 0x2007; 0x2008; 0x2009; 0x200A; 0x2028;
   0x2029; 0x202F; 0x205F; 0x3000; 0xFEFF].

Definition isSpace (c : N) : bool := existsb (N.eqb c) whiteSpace.

Fixpoint withoutLeadingSpace (s : jsstring) : jsstring :=
  match s with
  | [] => []
  | c :: r => if isSpace c then withoutLeadingSpace r else s
  end.

Fixpoint withoutTrailingSpace (s : jsstring) : jsstring :=
  match s with
  | [] => []
  | c :: r =>
      match withoutTrailingSpace r with
      | [] => if isSpace c then [] else [c]
      | kept => c :: kept
      end
  end.

(** A text without the white space before its first and after its last
    character that is not white space. *)
Definition trimmed (s : jsstring) : jsstring :=
  withoutTrailingSpace (withoutLeadingSpace s).

(** Two texts are the same: as long, with the same unit at each place. *)
Definition sameText (a b : jsstring) : bool :=
  (length a =? length b)%nat && forallb (fun xy => fst xy =? snd xy) (combine a b).

Fixpoint beginsWith (p s : jsstring) : bool :=
  match p with
  | [] => true
  | x :: p' =>
      match s with
      | y :: s' => (x =? y) && beginsWith p' s'
      | [] => false
      end
  end.

(** The three backticks of a fence. *)
Definition backticks : jsstring := [96; 96; 96].

(** What follows the first line of a text: the text after its first line
    feed, if it has one. *)
Fixpoint afterFirstLine (s : jsstring) : option jsstring :=
  match s with
  | [] => None
  | c :: r => if c =? 10 then Some r else afterFirstLine r
  end.

(** A text cut at its last line feed: what precedes the last line, if the
    text has more than one line, and the last line. *)
Fixpoint atLastLine (s : jsstring) : option jsstring * jsstring :=
  match s with
  | [] => (None, [])
  | c :: r =>
      match atLastLine r with
      | (Some before, line) => (Some (c :: before), line)
      | (None, line) =>
          if c =? 10 then (Some [], line) else (None, c :: line)
      end
  end.

(** Trim; if the text begins with a fence, drop the first line and, if the
    last remaining line is a bare closing fence, drop that too; rejoin and
    trim again. *)
Definition stripFence (text : jsstring) : jsstring :=
  let t := trimmed text in
  if beginsWith backticks t then
    match afterFirstLine t with
    | None => []
    | Some remaining =>
        match atLastLine remaining with
        | (before, closing) =>
            if sameText (trimmed closing) backticks then
              match before with
              | Some kept => trimmed kept
              | None => []
              end
            else trimmed remaining
        end
    end
  else t.

(** *** Stored file names, in the words of the specification *)

(** A name splits at its last dot into what precedes the dot and the
    extension that follows it. *)
Fixpoint atLastDot (name : jsstring) : option (jsstring * jsstring) :=
  match name with
  | [] => None
  | c :: r =>
      match atLastDot r with
      | Some (stem, ext) => Some (c :: stem, ext)
      | None => if c =? 46 then Some ([], r) else None
      end
  end.

Definition extension (name : jsstring) : jsstring :=
  match atLastDot name with
  | Some (_, ext) => ext
  | None => []
  end.

Definition stripExtension (name : jsstring) : jsstring :=
  match atLastDot name with
  | Some (stem, _) => stem
  | None => name
  end.

Definition hasDot (name : jsstring) : bool := existsb (fun c => c =? 46) name.

Definition noSlash (s : jsstring) : bool := forallb (fun c => negb (c =? 47)) s.

Definition capitalLetters : jsstring := str "ABCDEFGHIJKLMNOPQRSTUVWXYZ".
Definition smallLetters : jsstring := str "abcdefghijklmnopqrstuvwxyz".
Definition decimalDigits : jsstring := str "0123456789".

(** The unit that stands in [to] where [c] stands in [from]; [c] itself
    when it does not occur there. *)
Fixpoint pairedWith (c : N) (from to : jsstring) : N :=
  match from, to with
  | f :: from', t :: to' => if c =? f then t else pairedWith c from' to'
  | _, _ => c
  end.

(** The small letter of a Basic Latin capital; any other unit as it is. *)
Definition small (c : N) : N := pairedWith c capitalLetters smallLetters.

Definition isBasicLatin (s : jsstring) : bool := forallb (fun c => c <? 128) s.

(** The characters of the class [[a-z0-9]]. *)
Definition isLetterOrDigit (c : N) : bool :=
  existsb (N.eqb c) (smallLetters ++ decimalDigits).

Definition headIsLetterOrDigit (s : jsstring) : bool :=
  match s with
  | c :: _ => isLetterOrDigit c
  | [] => false
  end.

(** The words of a text: its longest runs of characters of [[a-z0-9]]. *)
Fixpoint words (s : jsstring) : list jsstring :=
  match s with
  | [] => []
  | c :: r =>
      if isLetterOrDigit c then
        match words r with
        | w :: ws => if headIsLetterOrDigit r then (c :: w) :: ws
                     else [c] :: w :: ws
        | [] => [[c]]
        end
      else words r
  end.

Fixpoint hyphenJoined (ws : list jsstring) : jsstring :=
  match ws with
  | [] => []
  | [w] => w
  | w :: rest => w ++ 45 :: hyphenJoined rest
  end.

(** Every run of characters outside [[a-z0-9]] replaced by one hyphen, and
    no hyphen left at either end: the words, joined by hyphens. *)
Definition slug (s : jsstring) : jsstring := hyphenJoined (words s).

(** The base segment: extension stripped, lower-cased, runs outside
    [a-z0-9] turned into one hyphen, outer hyphens trimmed. *)
Definition baseSegment (name : jsstring) : jsstring :=
  slug (toLowerCase (stripExtension name)).

(** [<base>-<timestamp>-<token>.<extension, lower-cased>]. *)
Definition storedName (timestamp : Z) (token name : jsstring) : jsstring :=
  baseSegment name ++ str "-" ++ decimal timestamp ++ str "-" ++ token
    ++ str "." ++ toLowerCase (extension name).

(** The characters of the pattern class [[a-z0-9-]]. *)
Definition isPatternChar (c : N) : bool := isLowerAlnum c || (c =? 45).

(** [url] matches [/uploads/[a-z0-9-]+\.<ext>] from its first to its last
    character. *)
Definition matchesPattern (url ext : jsstring) : Prop :=
  exists x,
    x <> [] /\ forallb (fun c => isLetterOrDigit c || (c =? 45)) x = true
    /\ url = str "/uploads/" ++ x ++ str "." ++ ext.

(** *** MIME type by URL ending, case-insensitively *)

(** Two texts that differ at most in the case of Basic Latin letters. *)
Fixpoint sameLetters (a b : jsstring) : bool :=
  match a, b with
  | [], [] => true
  | x :: a', y :: b' => (small x =? small y) && sameLetters a' b'
  | _, _ => false
  end.

(** [url] ends with [ending] up to the case of Basic Latin letters: what
    is left of [url] from some place on is [ending], up to case. *)
Fixpoint endsWithIgnoringCase (url ending : jsstring) : bool :=
  sameLetters url ending
  || match url with
     | [] => false
     | _ :: rest => endsWithIgnoringCase rest ending
     end.

Definition mimeTypeByEnding (url : jsstring) : jsstring :=
  if endsWithIgnoringCase url (str ".png") then str "image/png"
  else if endsWithIgnoringCase url (str ".webp") then str "image/webp"
  else if endsWithIgnoringCase url (str ".gif") then str "image/gif"
  else str "image/jpeg".

(** *** Filesystem writes *)

Definition isWrite (e : Upload.effect) : bool :=
  match e with
  | Upload.Mkdir _ => true
  | Upload.WriteFile _ _ => true
  | _ => false
  end.

Definition isWriteFile (e : Upload.effect) : bool :=
  match e with
  | Upload.WriteFile _ _ => true
  | _ => false
  end.

Definition isOutbound (e : Analyze.effect) : bool :=
  match e with
  | Fetch _ => true
  | GenerateContent _ => true
  | Analyze.ConsoleError _ => false
  end.

(** The response to a file of a type outside the allow-list. *)
Definition invalidType : response :=
  json (errorBody (str
    "Invalid file type. Only PNG, JPG, JPEG, WEBP, and GIF images are allowed."))
    400.

(** The calls made while ensuring the upload directory, when that works. *)
Definition ensured (w : Upload.world) : list Upload.effect :=
  if existsSync w then [ExistsSync (UPLOAD_DIR w)]
  else [ExistsSync (UPLOAD_DIR w); Mkdir (UPLOAD_DIR w)].

(** *** The claims on stored names and on refused uploads, as instances *)

(** The stored name of [name] is the specification's, with a token of seven
    characters. *)
Definition storedAsSpecified (timestamp : Z) (digits : list nat)
    (name : jsstring) : Prop :=
  exists token,
    length token = 7%nat
    /\ generateSafeFilename timestamp (randomToString36 digits) name
       = storedName timestamp token name.

(** The upload is answered 400 and nothing is written to the filesystem. *)
Definition refusedWithoutWrite (w : Upload.world) : Prop :=
  (exists msg, fst (Upload.POST w) = inr (json (errorBody msg) 400))
  /\ existsb isWrite (snd (Upload.POST w)) = false.

(** The value [v] is the body of a 200 response of the analyze handler. *)
Definition includedVerbatim (w : Analyze.world) (v : value) : Prop :=
  exists r, fst (Analyze.POST w) = inr r /\ status r = 200 /\ body r = v.

(** A value without an infinity, a NaN or a negative zero. *)
Fixpoint writtenAsIs (v : value) : bool :=
  match v with
  | JNumber (S754_zero s) => negb s
  | JNumber (S754_finite _ _ _) => true
  | JNumber _ => false
  | JArray xs => forallb writtenAsIs xs
  | JObject props => forallb (fun kv => writtenAsIs (snd kv)) props
  | _ => true
  end.

(** An [imageUrl] that is missing, not a string, or blank. *)
Definition missingOrBlank (imageUrl : option value) : bool :=
  match imageUrl with
  | Some (JString s) => eqb (trim s) []
  | _ => true
  end.

(** [needle] occurs in [hay]. *)
Fixpoint mentions (hay needle : jsstring) : bool :=
  startsWith hay needle
  || match hay with
     | [] => false
     | _ :: rest => mentions rest needle
     end.

End Spec.

Import Spec.

(** ** Worlds and texts used as examples *)

Module Examples.

Import Upload Analyze.

Definition fence : jsstring := str "```".

(** The fenced reply of the specification's example. *)
Definition fencedReply : jsstring :=
  fence ++ quoted "json|{'items':[{'name':'apple','estimatedGrams':150}]}|"
    ++ fence.

Definition appleJson : jsstring :=
  quoted "{'items':[{'name':'apple','estimatedGrams':150}]}".

Definition appleResult : value :=
  JObject [(str "items",
            JArray [JObject [(str "name", JString (str "apple"));
                             (str "estimatedGrams", JNumber (numberOfZ 150))]])].

(** A reply whose [estimatedGrams] is the string ["150"]. *)
Definition stringGramsReply : jsstring :=
  quoted "{'items':[{'name':'apple','estimatedGrams':'150'}]}".

(** A reply with properties nobody asked for. *)
Definition extrasReply : jsstring :=
  quoted "{'model':'v1','items':[{'name':'apple','estimatedGrams':150,'kcal':78}]}".

Definition extrasResult : value :=
  JObject [(str "model", JString (str "v1"));
           (str "items",
            JArray [JObject [(str "name", JString (str "apple"));
                             (str "estimatedGrams", JNumber (numberOfZ 150));
                             (str "kcal", JNumber (numberOfZ 78))]])].

(** The fenced reply with white space around the block and around the
    text inside it: a no-break space, a space and a line feed before, a
    tab and a byte-order mark after. *)
Definition paddedReply : jsstring :=
  [0xA0; 32; 10] ++ fence
    ++ quoted "json| {'items':[{'name':'apple','estimatedGrams':150}]} |"
    ++ fence ++ [9; 0xFEFF].

(** A valid reply with two properties nobody asked for, one a number too
    large for a double and one a negative zero. *)
Definition overflowReply : jsstring :=
  quoted "{'total':1e400,'items':[{'name':'apple','estimatedGrams':150,'kcal':-0}]}".

Definition overflowResult : value :=
  JObject [(str "total", JNumber (S754_infinity false));
           (str "items",
            JArray [JObject [(str "name", JString (str "apple"));
                             (str "estimatedGrams", JNumber (numberOfZ 150));
                             (str "kcal", JNumber (S754_zero true))]])].

(** The body that answers [overflowReply]. *)
Definition overflowBody : value :=
  JObject [(str "total", JNull);
           (str "items",
            JArray [JObject [(str "name", JString (str "apple"));
                             (str "estimatedGrams", JNumber (numberOfZ 150));
                             (str "kcal", JNumber (S754_zero false))]])].

Definition pngUrl : jsstring := str "http://localhost:3000/uploads/apple-1-abc.PNG".

Definition fetched : fetchResponse :=
  {| ok := true; httpStatus := 200; statusText := str "OK";
     headers := [(str "content-type", str "image/jpeg")];
     arrayBuffer := inr [Byte.x89; Byte.x50; Byte.x4e; Byte.x47] |}.

(** A request for [pngUrl] answered by the model with [reply]. *)
Definition replying (reply : jsstring) : Analyze.world :=
  {| requestJson := inr (JObject [(str "imageUrl", JString pngUrl)]);
     GEMINI_API_KEY := Some (str "secret");
     fetch := fun _ => inr fetched;
     generateContent := fun _ => inr reply |}.

(** The same request on a server without the credential. *)
Definition withoutKey : Analyze.world :=
  {| requestJson := inr (JObject [(str "imageUrl", JString pngUrl)]);
     GEMINI_API_KEY := None;
     fetch := fun _ => inr fetched;
     generateContent := fun _ => inr appleJson |}.

(** A request whose body is [{"imageUrl": "   "}], without the credential. *)
Definition blankUrl : Analyze.world :=
  {| requestJson := inr (JObject [(str "imageUrl", JString (str "   "))]);
     GEMINI_API_KEY := None;
     fetch := fun _ => inr fetched;
     generateContent := fun _ => inr appleJson |}.

(** An upload of [name] declared as [type], on a disk that accepts writes;
    [dirThere] tells whether the upload directory exists. *)
Definition uploading (dirThere : bool) (makeFails : option exn)
    (name type : jsstring) : Upload.world :=
  {| cwd := str "/srv/app"; existsSync := dirThere; mkdir := makeFails;
     formData := inr (Some (EntryFile name type [Byte.x25; Byte.x50]));
     now := 1700000000123;
     randomDigits := [4; 15; 35; 34; 24; 8; 2; 22; 31; 34; 27]%nat;
     writeFile := None |}.

End Examples.

Import Examples.

(** ** [src/app/page.tsx]: the handlers of the upload form *)

Module Client.

(** A [File] picked in the file input. *)
Record file : Type := {
  fileName : jsstring;
  fileType : jsstring;
  fileBytes : list Byte.byte
}.

(** The state variables of [Home]; [null] is [None]. *)
Record state : Type := {
  selectedFile : option file;
  previewUrl : option jsstring;
  uploadedImageUrl : option jsstring;
  isUploading : bool;
  error : option jsstring;
  copySuccess : bool
}.

(** What [fetch("/api/upload", ...)] resolves to, as far as it is read. *)
Record httpResponse : Type := {
  ok : bool;                  (* response.ok *)
  json : exn + value          (* response.json() *)
}.

(** What the browser answers while a handler runs. *)
Record world : Type := {
  fetchUpload : file -> exn + httpResponse;   (* the POST of the form data *)
  createObjectURL : file -> exn + jsstring    (* URL.createObjectURL(file) *)
}.

Inductive effect : Type :=
  | PostUpload (f : file)
  | RevokeObjectURL (url : jsstring)
  | CreateObjectURL (f : file).

(** [data.k]: reading a property of [null] throws. *)
Definition member (data : value) (k : string) : M effect (option value) :=
  match data with
  | JNull =>
      throw (JsError (str "Cannot read properties of null (reading '"
                      ++ str k ++ str "')"))
  | _ => ret (get data (str k))
  end.

(** [a || b]: [a] when it is truthy, [b] otherwise. *)
Definition orElse (a b : option value) : option value :=
  if truthy a then a else b.

(** Lines 66-86: the body of the [try] of [handleUpload]; it returns the
    URL handed to [setUploadedImageUrl]. *)
Definition upload (w : world) (selected : file) : M effect jsstring :=
  (response <- call (PostUpload selected) (fetchUpload w selected) ;;
   if negb (ok response) then throw (JsError (str "Upload failed"))
   else
     data <- await (json response) ;;
     a <- member data "imageUrl" ;;
     imageUrl <-
       (if truthy a then ret a
        else
          b <- member data "url" ;;
          if truthy b then ret b
          else
            c <- member data "image_url" ;;
            ret (orElse c (Some JNull))) ;;
     if negb (truthy imageUrl)
        || negb (eqb (typeof imageUrl) (str "string"))
        || eqb (trim (Analyze.stringOf imageUrl)) [] then
       throw (JsError (str "Upload succeeded but no imageUrl was returned"))
     else ret (Analyze.stringOf imageUrl))%run.

(** [handleUpload()], run in state [st]: the state once every [set...] of
    the handler has been applied, and the calls made. *)
Definition handleUpload (w : world) (st : state) : state * list effect :=
  match selectedFile st with
  | None =>
      ({| selectedFile := selectedFile st; previewUrl := previewUrl st;
          uploadedImageUrl := uploadedImageUrl st;
          isUploading := isUploading st;
          error := Some (str "Please select an image first");
          copySuccess := copySuccess st |}, [])
  | Some selected =>
      match upload w selected [] with
      | (inr imageUrl, t) =>
          ({| selectedFile := selectedFile st; previewUrl := previewUrl st;
              uploadedImageUrl := Some imageUrl;
              isUploading := false;
              error := None;
              copySuccess := copySuccess st |}, t)
      | (inl err, t) =>
          ({| selectedFile := selectedFile st; previewUrl := previewUrl st;
              uploadedImageUrl := uploadedImageUrl st;
              isUploading := false;
              error := Some (Analyze.messageOr err (str "An error occurred"));
              copySuccess := copySuccess st |}, t)
      end
  end.

(** [previewUrl && previewUrl.startsWith("blob:")]. *)
Definition isBlobUrl (u : option jsstring) : bool :=
  match u with
  | Some s => negb (eqb s []) && startsWith s (str "blob:")
  | None => false
  end.

(** [handleFileChange(e)], with [picked] for [e.target.files?.[0]]. *)
Definition handleFileChange (w : world) (st : state) (picked : option file)
  : state * list effect :=
  match picked with
  | None => (st, [])
  | Some f =>
      let revoked :=
        match previewUrl st with
        | Some u => if isBlobUrl (Some u) then [RevokeObjectURL u] else []
        | None => []
        end in
      match createObjectURL w f with
      | inr objectUrl =>
          ({| selectedFile := Some f; previewUrl := Some objectUrl;
              uploadedImageUrl := None; isUploading := isUploading st;
              error := None; copySuccess := false |},
           revoked ++ [CreateObjectURL f])
      | inl _ =>
          ({| selectedFile := Some f; previewUrl := None;
              uploadedImageUrl := None; isUploading := isUploading st;
              error := Some (str "Failed to create image preview");
              copySuccess := false |},
           revoked ++ [CreateObjectURL f])
      end
  end.

End Client.

(** ** Further notions *)

Module Notions.

Import Upload Analyze.

(** The fetch and model calls of a trace, in order. *)
Definition outbound (t : list Analyze.effect) : list Analyze.effect :=
  filter isOutbound t.

(** Two hyphens in a row. *)
Fixpoint hasDoubleHyphen (s : jsstring) : bool :=
  match s with
  | a :: ((b :: _) as rest) => ((a =? 45) && (b =? 45)) || hasDoubleHyphen rest
  | _ => false
  end.

Definition countDots (s : jsstring) : nat :=
  length (filter (fun c => c =? 46) s).

(** The part of a generated name before its dot. *)
Definition front (timestamp : Z) (digits : list nat) (name : jsstring) : jsstring :=
  trimHyphens (hyphenate false (toLowerCase (removeExtension name)))
    ++ str "-" ++ decimal timestamp ++ str "-"
    ++ substring 2 9 (randomToString36 digits).

(** The form entry the route handler finds for a file sent by the page. *)
Definition sent (f : Client.file) : entry :=
  EntryFile (Client.fileName f) (Client.fileType f) (Client.fileBytes f).



(** A world in which the request passes the two checks that precede the
    fetch: the body carries the non-blank string [url] and the key is set. *)
Definition Validated (w : Analyze.world) (url key : jsstring) : Prop :=
  (exists body, requestJson w = inr body
                /\ get body (str "imageUrl") = Some (JString url))
  /\ trim url <> []
  /\ GEMINI_API_KEY w = Some key /\ key <> [].

(** The 400 of the inner [catch], around the message of what was thrown. *)
Definition fetchFailed (message : jsstring) : response :=
  json (errorBody (str "Failed to fetch image from URL: " ++ message)) 400.

(** The 500 of the outer [catch] for what was thrown. *)
Definition unexpected (thrown : exn) : response :=
  json (errorBody (messageOr thrown (str "An unexpected error occurred"))) 500.

(** Every way the analyze handler answers: its response and its calls. *)
Inductive Answered (w : Analyze.world) : response -> list Analyze.effect -> Prop :=
  | BodyUnreadable thrown :
      requestJson w = inl thrown ->
      Answered w (unexpected thrown) [Analyze.ConsoleError (str "Analyze error:")]
  | BodyNull :
      requestJson w = inr JNull ->
      Answered w
        (unexpected (JsError (str
           "Cannot destructure property 'imageUrl' of 'body' as it is null.")))
        [Analyze.ConsoleError (str "Analyze error:")]
  | UrlRefused body :
      requestJson w = inr body -> body <> JNull ->
      missingOrBlank (get body (str "imageUrl")) = true ->
      Answered w
        (json (errorBody
           (str "imageUrl is required and must be a non-empty string")) 400) []
  | KeyMissing body url :
      requestJson w = inr body ->
      get body (str "imageUrl") = Some (JString url) -> trim url <> [] ->
      noKey (GEMINI_API_KEY w) = true ->
      Answered w
        (json (errorBody
           (str "GEMINI_API_KEY environment variable is not set")) 500) []
  | FetchThrew url key thrown :
      Validated w url key -> fetch w url = inl thrown ->
      Answered w (fetchFailed (messageOr thrown (str "Unknown error")))
        [Fetch url]
  | FetchNotOk url key r :
      Validated w url key -> fetch w url = inr r -> ok r = false ->
      Answered w
        (fetchFailed (str "Failed to fetch image: " ++ decimal (httpStatus r)
                      ++ str " " ++ statusText r))
        [Fetch url]
  | BytesThrew url key r thrown :
      Validated w url key -> fetch w url = inr r -> ok r = true ->
      arrayBuffer r = inl thrown ->
      Answered w (fetchFailed (messageOr thrown (str "Unknown error")))
        [Fetch url]
  | ModelThrew url key r bytes thrown :
      Validated w url key -> fetch w url = inr r -> ok r = true ->
      arrayBuffer r = inr bytes ->
      generateContent w (requestFor key bytes url) = inl thrown ->
      Answered w (unexpected thrown)
        [Fetch url; GenerateContent (requestFor key bytes url);
         Analyze.ConsoleError (str "Analyze error:")]
  | ReplyUnparsed url key r bytes text :
      Replied w url key r bytes text ->
      JSON_parse (extractJson text) = None ->
      Answered w
        (json (errorBody
           (str "Failed to parse response as valid JSON. Raw response: "
            ++ firstn 500 text)) 500)
        [Fetch url; GenerateContent (requestFor key bytes url);
         Analyze.ConsoleError (str "Failed to parse Gemini response as JSON:")]
  | ReplyRefused url key r bytes text v what :
      Replied w url key r bytes text ->
      JSON_parse (extractJson text) = Some v ->
      isAnalysisResult v = false ->
      validateStructure v = invalid what ->
      Answered w (invalid what)
        [Fetch url; GenerateContent (requestFor key bytes url)]
  | ReplyAccepted url key r bytes text v :
      Replied w url key r bytes text ->
      JSON_parse (extractJson text) = Some v ->
      isAnalysisResult v = true ->
      Answered w (json v 200)
        [Fetch url; GenerateContent (requestFor key bytes url)].

(** A request for [pngUrl] on a server whose key is [key], whose fetch is
    answered by [image] and whose model call is answered by [reply]. *)
Definition asking (key : option jsstring) (image : exn + fetchResponse)
    (reply : exn + jsstring) : Analyze.world :=
  {| requestJson := inr (JObject [(str "imageUrl", JString pngUrl)]);
     GEMINI_API_KEY := key;
     fetch := fun _ => image;
     generateContent := fun _ => reply |}.

Definition notFound : fetchResponse :=
  {| ok := false; httpStatus := 404; statusText := str "Not Found";
     headers := []; arrayBuffer := inr [] |}.

(** An item with a string name and a null weight. *)
Definition named (name : string) : value :=
  JObject [(str "name", JString (str name)); (str "estimatedGrams", JNull)].

(** The state of the page with [st]'s file and preview, after an upload
    that ended with [url] shown and [message] reported. *)
Definition settled (st : Client.state) (url message : option jsstring)
  : Client.state :=
  {| Client.selectedFile := Client.selectedFile st;
     Client.previewUrl := Client.previewUrl st;
     Client.uploadedImageUrl := url;
     Client.isUploading := false;
     Client.error := message;
     Client.copySuccess := Client.copySuccess st |}.

(** A page on which [f] is selected and an earlier upload is shown. *)
Definition showing (f : Client.file) (earlier : option jsstring) : Client.state :=
  {| Client.selectedFile := Some f;
     Client.previewUrl := Some (str "blob:http://localhost:3000/1f0c");
     Client.uploadedImageUrl := earlier;
     Client.isUploading := false;
     Client.error := None;
     Client.copySuccess := true |}.

Definition lunch : Client.file :=
  {| Client.fileName := str "My Lunch Photo!! .PNG";
     Client.fileType := str "image/png";
     Client.fileBytes := [Byte.x25; Byte.x50] |}.

(** A browser that is offline and hands out one object URL. *)
Definition offline : Client.world :=
  {| Client.fetchUpload := fun _ => inl (JsError (str "Failed to fetch"));
     Client.createObjectURL :=
       fun _ => inr (str "blob:http://localhost:3000/77aa") |}.

(** The code units a code point was read from. *)
Definition unitsRead (p : point) : jsstring :=
  match p with
  | Single u => [u]
  | Surrogates h l => [h; l]
  end.

Definition wellPaired (p : point) : bool :=
  match p with
  | Single _ => true
  | Surrogates h l => isLead h && isTrail l
  end.

Definition beyondLatin (s : jsstring) : bool := forallb (fun c => 128 <=? c) s.

(** What lower-casing makes of a piece of a text: a Basic Latin unit
    becomes its small letter, the Kelvin sign becomes [k], capital I with
    dot above becomes [i] and a combining dot, and any other stretch of
    units beyond Basic Latin becomes units beyond Basic Latin. *)
Inductive Chunk : jsstring -> jsstring -> Prop :=
  | ChunkLatin (c : N) : c < 128 -> Chunk [c] [lowerLatin c]
  | ChunkKelvin : Chunk [0x212A] [107]
  | ChunkDotted : Chunk [0x130] [105; 0x307]
  | ChunkOther (i o : jsstring) :
      i <> [] -> o <> [] -> beyondLatin i = true -> beyondLatin o = true ->
      Chunk i o.

(** A text and its lower-case form, chunk after chunk. *)
Inductive Chunks : jsstring -> jsstring -> Prop :=
  | ChunksNil : Chunks [] []
  | ChunksCons (i o s t : jsstring) :
      Chunk i o -> Chunks s t -> Chunks (i ++ s) (o ++ t).

(** A mapping whose images lie beyond Basic Latin, or the one of the Kelvin
    sign. *)
Definition validMapping (m : N * N * N * N) : bool :=
  let '(first, last, _, image) := m in
  (128 <=? image) || ((first =? 0x212A) && (last =? 0x212A)).

(** The units of the endings [.png], [.webp] and [.gif]: Basic Latin, not a
    capital, and not [k]. *)
Definition plainUnit (x : N) : bool :=
  (x <? 128) && negb ((65 <=? x) && (x <=? 90)) && negb (x =? 107).

(** A line feed occurs in the text. *)
Definition hasLineFeed (s : jsstring) : bool := existsb (fun c => c =? 10) s.

(** An upload request carrying [entry] under [file], on a server whose
    upload directory exists; [writeFails] is what [writeFile] throws. *)
Definition receiving (entry : option entry) (writeFails : option exn)
  : Upload.world :=
  {| cwd := str "/srv/app"; existsSync := true; mkdir := None;
     formData := inr entry; now := 5; randomDigits := [1%nat];
     writeFile := writeFails |}.

End Notions.

Import Notions.

(** * Properties *)

(** ** The embedding at work *)

(** [trim] removes the no-break space and the byte-order mark as well. *)
Example trim_unicode_space :
  trim ([160; 9] ++ str "a b" ++ [10; 65279]) = str "a b".
Proof. reflexivity. Qed.

Example toLowerCase_kelvin :
  toLowerCase ([8490] ++ str "B.JPG") = str "kb.jpg".
Proof. reflexivity. Qed.

(** Capitals beyond Basic Latin are lower-cased as well: E with acute, and
    capital I with dot above, which becomes two units. *)
Example toLowerCase_accents :
  toLowerCase (str "menu.JP" ++ [0xC9] ++ str "G") = str "menu.jp" ++ [0xE9] ++ str "g"
  /\ toLowerCase ([0x130] ++ str "ZM" ++ [0x130] ++ str "R") =
     [0x69; 0x307] ++ str "zm" ++ [0x69; 0x307] ++ str "r".
Proof. vm_compute. split; reflexivity. Qed.

(** Capital sigma becomes final sigma where a word ends, also before a dot
    and an extension without letters; a surrogate pair is lower-cased as
    the one code point it encodes (here U+10400, whose lower-case form is
    U+10428). *)
Example toLowerCase_sigma :
  toLowerCase [0x39F; 0x394; 0x39F; 0x3A3] = [0x3BF; 0x3B4; 0x3BF; 0x3C2]
  /\ toLowerCase ([0x39F; 0x3A3] ++ str ".1") = [0x3BF; 0x3C2] ++ str ".1"
  /\ toLowerCase ([0x39F; 0x3A3] ++ str ".PNG") = [0x3BF; 0x3C3] ++ str ".png"
  /\ toLowerCase [0x3A3] = [0x3C3]
  /\ toLowerCase [0xD801; 0xDC00; 0xDC00] = [0xD801; 0xDC28; 0xDC00].
Proof. vm_compute. repeat split. Qed.

Example split_trailing_dot : split 46 (str "a.b.") = [str "a"; str "b"; []].
Proof. reflexivity. Qed.

(** 0.1 parses to 0x1.999999999999ap-4, and 1e400 overflows. *)
Example parse_fraction :
  JSON_parse (str "[0.1, -0, 1e400, 5e-324]")
  = Some (JArray [JNumber (S754_finite false 7205759403792794 (-56));
                  JNumber (S754_zero true); JNumber (S754_infinity false);
                  JNumber (S754_finite false 1 (-1074))]).
Proof. vm_compute. reflexivity. Qed.

(** Keys that spell an array index come first, in ascending order. *)
Example parse_index_keys :
  JSON_parse (quoted "{'b':1,'10':2,'9':3,'01':4,'a':5}")
  = Some (JObject [(str "9", JNumber (numberOfZ 3));
                   (str "10", JNumber (numberOfZ 2));
                   (str "b", JNumber (numberOfZ 1));
                   (str "01", JNumber (numberOfZ 4));
                   (str "a", JNumber (numberOfZ 5))]).
Proof. vm_compute. reflexivity. Qed.

(** An infinity is written [null] and a negative zero [0]. *)
Example serialized_numbers :
  option_map serialized (JSON_parse (str "[0.1, -0, 1e400, -1e400, 5e-324]"))
  = Some (JArray [JNumber (S754_finite false 7205759403792794 (-56));
                  JNumber (S754_zero false); JNull; JNull;
                  JNumber (S754_finite false 1 (-1074))]).
Proof. vm_compute. reflexivity. Qed.

(** A repeated key keeps its first place and its last value. *)
Example parse_repeated_key :
  JSON_parse (quoted "{'a':1,'b':true,'a':null}")
  = Some (JObject [(str "a", JNull); (str "b", JBool true)]).
Proof. vm_compute. reflexivity. Qed.

Example parse_refuses :
  JSON_parse (str "01") = None /\ JSON_parse (str "[1,]") = None
  /\ JSON_parse (quoted "{'a':1} x") = None /\ JSON_parse (str "") = None
  /\ JSON_parse (quoted "{a:1}") = None.
Proof. vm_compute. repeat split. Qed.

Example base64_padding :
  Analyze.toBase64 [Byte.x4d; Byte.x61; Byte.x6e; Byte.x61] = str "TWFuYQ==".
Proof. reflexivity. Qed.

(** An opening fence without a closing one loses its first line only. *)
Example extract_unclosed :
  Analyze.extractJson (fence ++ quoted "json|{'items':[]}| ") = quoted "{'items':[]}".
Proof. vm_compute. reflexivity. Qed.

(** Text after the closing fence keeps the fence in the extracted text. *)
Example extract_trailing_text :
  Analyze.extractJson (fence ++ quoted "|[]|" ++ fence ++ quoted "|Enjoy!")
  = quoted "[]|" ++ fence ++ quoted "|Enjoy!".
Proof. vm_compute. reflexivity. Qed.

Example stored_names :
  Upload.generateSafeFilename 1700000000123 (str "0.4fzyo82mvyr")
    (str "Cr" ++ [232] ++ str "me Br" ++ [251] ++ str "l" ++ [233] ++ str "e.JPEG")
  = str "cr-me-br-l-e-1700000000123-4fzyo82.jpeg"
  /\ Upload.generateSafeFilename 1700000000123 (str "0.4fzyo82mvyr")
       (str ".gitignore")
     = str "-1700000000123-4fzyo82.gitignore"
  /\ Upload.generateSafeFilename 1700000000123 (str "0")
       (str "archive.tar.gz")
     = str "archive-tar-1700000000123-.gz".
Proof. vm_compute. repeat split. Qed.

(** ** Strings *)

Lemma eqb_eq (a b : jsstring) : eqb a b = true <-> a = b.
Proof.
  revert b; induction a as [|x a IH]; intros [|y b]; simpl; split; intro H;
    try reflexivity; try discriminate.
  - apply andb_true_iff in H as [H1 H2]. apply N.eqb_eq in H1.
    apply IH in H2. now subst.
  - injection H as -> ->. rewrite N.eqb_refl. now apply IH.
Qed.

Lemma eqb_refl (a : jsstring) : eqb a a = true.
Proof. now apply eqb_eq. Qed.

Lemma eqb_neq (a b : jsstring) : eqb a b = false <-> a <> b.
Proof.
  split.
  - intros H E. apply eqb_eq in E. congruence.
  - intro H. destruct (eqb a b) eqn:E; [|reflexivity].
    apply eqb_eq in E. contradiction.
Qed.

Lemma forallb_rev {A} (f : A -> bool) (l : list A) :
  forallb f (rev l) = forallb f l.
Proof.
  induction l as [|x l IH]; [reflexivity|].
  simpl. rewrite forallb_app, IH. simpl. rewrite andb_true_r. apply andb_comm.
Qed.

Lemma startsWith_nil (s : jsstring) : startsWith s [] = true.
Proof. destruct s; reflexivity. Qed.

Lemma dropWhile_forallb (p q : N -> bool) (s : jsstring) :
  forallb q s = true -> forallb q (dropWhile p s) = true.
Proof.
  induction s as [|c r IH]; [reflexivity|].
  intro H. simpl. destruct (p c); [|exact H].
  simpl in H. apply andb_true_iff in H as [_ H]. now apply IH.
Qed.

Lemma dropWhileEnd_forallb (p q : N -> bool) (s : jsstring) :
  forallb q s = true -> forallb q (dropWhileEnd p s) = true.
Proof.
  intro H. unfold dropWhileEnd.
  rewrite forallb_rev. apply dropWhile_forallb. now rewrite forallb_rev.
Qed.

Lemma dropWhile_all (p : N -> bool) (s : jsstring) :
  forallb p s = true -> dropWhile p s = [].
Proof.
  induction s as [|c r IH]; [reflexivity|].
  simpl. intro H. apply andb_true_iff in H as [-> H]. now apply IH.
Qed.

Lemma dropWhile_app_last (p : N -> bool) (s : jsstring) (c : N) :
  forallb p s = false -> dropWhile p (s ++ [c]) = dropWhile p s ++ [c].
Proof.
  induction s as [|x r IH]; [discriminate|].
  simpl. destruct (p x); [|reflexivity]. exact IH.
Qed.

Lemma dropWhileEnd_app_last (p : N -> bool) (s : jsstring) (c : N) :
  p c = true -> dropWhileEnd p (s ++ [c]) = dropWhileEnd p s.
Proof.
  intro H. unfold dropWhileEnd. rewrite rev_app_distr. simpl. now rewrite H.
Qed.

Lemma dropWhile_app_all (p : N -> bool) (a b : jsstring) :
  forallb p a = true -> dropWhile p (a ++ b) = dropWhile p b.
Proof.
  induction a as [|c a IH]; [reflexivity|].
  simpl. intro H. apply andb_true_iff in H as [-> H]. now apply IH.
Qed.

Lemma dropWhile_some (p : N -> bool) (s : jsstring) :
  forallb p s = false -> dropWhile p s <> [].
Proof.
  induction s as [|c r IH]; [discriminate|].
  simpl. destruct (p c); [exact IH|discriminate].
Qed.

(** Dropping at the end, read from the front of the text. *)
Lemma dropWhileEnd_cons (p : N -> bool) (c : N) (s : jsstring) :
  dropWhileEnd p (c :: s)
  = match dropWhileEnd p s with
    | [] => if p c then [] else [c]
    | kept => c :: kept
    end.
Proof.
  unfold dropWhileEnd. cbn [rev]. destruct (forallb p (rev s)) eqn:F.
  - rewrite (dropWhile_app_all p _ [c] F), (dropWhile_all p _ F).
    cbn [dropWhile rev]. destruct (p c); reflexivity.
  - rewrite (dropWhile_app_last p _ c F), rev_app_distr. cbn [rev app].
    pose proof (dropWhile_some p _ F) as Ne.
    destruct (dropWhile p (rev s)) as [|x k] eqn:D; [contradiction|].
    destruct (rev (x :: k)) eqn:R; [|reflexivity].
    apply (f_equal (@length N)) in R. rewrite length_rev in R. discriminate.
Qed.

(** ** Lower-casing *)

Section LowerCasing.

Lemma list_ind2 {A} (P : list A -> Prop) :
  P [] -> (forall a, P [a]) ->
  (forall a b l, P l -> P (b :: l) -> P (a :: b :: l)) ->
  forall l, P l.
Proof.
  intros H0 H1 H2.
  assert (G : forall l, P l /\ forall a, P (a :: l)).
  { induction l as [|b l [IH1 IH2]]; [split; [exact H0|exact H1]|].
    split; [apply IH2|]. intro a. apply H2; [exact IH1|apply IH2]. }
  intro l. apply G.
Qed.

Lemma points_pair (a b : N) (l : jsstring) :
  points (a :: b :: l)
  = if isLead a && isTrail b then Surrogates a b :: points l
    else Single a :: points (b :: l).
Proof. reflexivity. Qed.

(** Reading a string as code points loses nothing. *)
Lemma points_units (s : jsstring) : flat_map unitsRead (points s) = s.
Proof.
  induction s as [|a|a b l IH1 IH2] using list_ind2; [reflexivity..|].
  rewrite points_pair.
  destruct (isLead a && isTrail b); cbn [flat_map unitsRead app].
  - now rewrite IH1.
  - now rewrite IH2.
Qed.

Lemma points_wellPaired (s : jsstring) : forallb wellPaired (points s) = true.
Proof.
  induction s as [|a|a b l IH1 IH2] using list_ind2; [reflexivity..|].
  rewrite points_pair.
  destruct (isLead a && isTrail b) eqn:E; cbn [forallb wellPaired].
  - now rewrite E, IH1.
  - exact IH2.
Qed.

Lemma points_snoc (s : jsstring) (c : N) :
  isTrail c = false -> points (s ++ [c]) = points s ++ [Single c].
Proof.
  intro T. induction s as [|a|a b l IH1 IH2] using list_ind2.
  - reflexivity.
  - cbn [app]. rewrite points_pair, T, andb_false_r. reflexivity.
  - cbn [app] in *. rewrite !points_pair.
    destruct (isLead a && isTrail b); cbn [app]; now f_equal.
Qed.

Lemma mapped_beyondLatin (table : list (N * N * N * N)) (cp : N) :
  forallb validMapping table = true -> 128 <= cp -> cp <> 0x212A ->
  128 <= mapped table cp.
Proof.
  intros V H K. induction table as [|[[[first last] step] image] rest IH];
    [exact H|].
  cbn [forallb] in V. apply andb_true_iff in V as [V1 V2].
  cbn [mapped].
  destruct ((first <=? cp) && (cp <=? last) && ((cp - first) mod step =? 0))
    eqn:E; [|now apply IH].
  apply andb_true_iff in E as [E _]. apply andb_true_iff in E as [E1 E2].
  apply N.leb_le in E1. apply N.leb_le in E2.
  unfold validMapping in V1. apply orb_true_iff in V1 as [V1|V1].
  - apply N.leb_le in V1. lia.
  - apply andb_true_iff in V1 as [A B].
    apply N.eqb_eq in A. apply N.eqb_eq in B. lia.
Qed.

Lemma lowerCaseMappings_valid : forallb validMapping lowerCaseMappings = true.
Proof. vm_compute. reflexivity. Qed.

Lemma unitsOf_beyondLatin (cp : N) :
  128 <= cp -> unitsOf cp <> [] /\ beyondLatin (unitsOf cp) = true.
Proof.
  intro H. unfold unitsOf. destruct (cp <? 0x10000).
  - split; [discriminate|]. cbn [beyondLatin forallb].
    rewrite andb_true_r. now apply N.leb_le.
  - split; [discriminate|]. cbn [beyondLatin forallb].
    rewrite andb_true_r. apply andb_true_iff.
    split; apply N.leb_le;
      (eapply N.le_trans; [|apply N.le_add_r]); discriminate.
Qed.

Lemma lowerLatin_latin (c : N) : c < 128 -> lowerLatin c < 128.
Proof.
  intro H. unfold lowerLatin.
  destruct ((65 <=? c) && (c <=? 90)) eqn:E; [|exact H].
  apply andb_true_iff in E as [_ E]. apply N.leb_le in E. lia.
Qed.

Lemma lowerPoint_latin (before after : list point) (c : N) :
  c < 128 -> lowerPoint before after (Single c) = [lowerLatin c].
Proof.
  intro L. unfold lowerPoint. cbn [codePoint].
  replace (c =? 0x3A3) with false by (symmetry; apply N.eqb_neq; lia).
  replace (c =? 0x130) with false by (symmetry; apply N.eqb_neq; lia).
  unfold simpleLower. replace (c <? 128) with true by (symmetry; now apply N.ltb_lt).
  pose proof (lowerLatin_latin c L) as B. unfold unitsOf.
  now replace (lowerLatin c <? 0x10000) with true
    by (symmetry; apply N.ltb_lt; lia).
Qed.

(** Each code point is lower-cased as one chunk. *)
Lemma lowerPoint_chunk (before after : list point) (p : point) :
  wellPaired p = true -> Chunk (unitsRead p) (lowerPoint before after p).
Proof.
  intro W. destruct p as [u|h l].
  - cbn [unitsRead]. destruct (N.ltb_spec u 128) as [L|L].
    { rewrite (lowerPoint_latin before after u L). now apply ChunkLatin. }
    unfold lowerPoint. cbn [codePoint].
    destruct (N.eqb_spec u 0x3A3) as [->|S].
    { destruct (nextIsCased before && negb (nextIsCased after));
        now apply ChunkOther. }
    destruct (N.eqb_spec u 0x130) as [->|D]; [apply ChunkDotted|].
    unfold simpleLower.
    replace (u <? 128) with false by (symmetry; now apply N.ltb_ge).
    destruct (N.eq_dec u 0x212A) as [->|K]; [apply ChunkKelvin|].
    pose proof (mapped_beyondLatin lowerCaseMappings u
                  lowerCaseMappings_valid L K) as M.
    destruct (unitsOf_beyondLatin _ M) as [N1 N2].
    apply ChunkOther; [discriminate|exact N1| |exact N2].
    cbn [beyondLatin forallb]. rewrite andb_true_r. now apply N.leb_le.
  - cbn [wellPaired] in W. apply andb_true_iff in W as [W1 W2].
    unfold isLead in W1. unfold isTrail in W2.
    apply andb_true_iff in W1 as [W1 _]. apply andb_true_iff in W2 as [W2 _].
    apply N.leb_le in W1. apply N.leb_le in W2.
    unfold lowerPoint. cbn [codePoint].
    set (cp := 0x10000 + (h - 0xD800) * 0x400 + (l - 0xDC00)).
    assert (B : 0x10000 <= cp) by (unfold cp; lia).
    replace (cp =? 0x3A3) with false by (symmetry; apply N.eqb_neq; lia).
    replace (cp =? 0x130) with false by (symmetry; apply N.eqb_neq; lia).
    unfold simpleLower.
    replace (cp <? 128) with false by (symmetry; apply N.ltb_ge; lia).
    assert (M : 128 <= mapped lowerCaseMappings cp)
      by (apply mapped_beyondLatin; [exact lowerCaseMappings_valid|lia|lia]).
    destruct (unitsOf_beyondLatin _ M) as [N1 N2].
    apply ChunkOther; [discriminate|exact N1| |exact N2].
    cbn [unitsRead beyondLatin forallb]. rewrite andb_true_r.
    apply andb_true_iff. split; apply N.leb_le; lia.
Qed.

Lemma lowerPoints_chunks (ps : list point) :
  forallb wellPaired ps = true ->
  forall before, Chunks (flat_map unitsRead ps) (lowerPoints before ps).
Proof.
  induction ps as [|p rest IH]; intros W before; [apply ChunksNil|].
  cbn [forallb] in W. apply andb_true_iff in W as [W1 W2].
  cbn [flat_map lowerPoints]. apply ChunksCons.
  - now apply lowerPoint_chunk.
  - now apply IH.
Qed.

(** A text and its lower-case form go chunk by chunk. *)
Lemma toLowerCase_chunks (s : jsstring) : Chunks s (toLowerCase s).
Proof.
  pose proof (lowerPoints_chunks (points s) (points_wellPaired s) []) as H.
  now rewrite points_units in H.
Qed.

Lemma Chunks_app (a b c d : jsstring) :
  Chunks a b -> Chunks c d -> Chunks (a ++ c) (b ++ d).
Proof.
  intros H1 H2. induction H1 as [|i o s t C _ IH]; [exact H2|].
  rewrite <- !app_assoc. now apply ChunksCons.
Qed.

(** Chunks can be taken off the end as well. *)
Lemma Chunks_rev_ind (P : jsstring -> jsstring -> Prop) :
  P [] [] ->
  (forall i o s t, Chunk i o -> Chunks s t -> P s t -> P (s ++ i) (t ++ o)) ->
  forall s t, Chunks s t -> P s t.
Proof.
  intros H0 H1 s t H.
  assert (L : exists l : list (jsstring * jsstring),
            Forall (fun io => Chunk (fst io) (snd io)) l
            /\ s = flat_map fst l /\ t = flat_map snd l).
  { induction H as [|i o s t C _ [l [F [-> ->]]]].
    - exists []. now repeat split.
    - exists ((i, o) :: l). repeat split; [|reflexivity..].
      now constructor. }
  destruct L as [l [F [-> ->]]]. clear H.
  induction l as [|[i o] l IH] using rev_ind; [exact H0|].
  apply Forall_app in F as [F1 F2]. inversion F2 as [|? ? C _]; subst.
  rewrite !flat_map_app. cbn [flat_map fst snd]. rewrite !app_nil_r.
  apply H1; [exact C| |now apply IH].
  clear -F1. induction l as [|[i' o'] l IH]; [apply ChunksNil|].
  inversion F1; subst. cbn [flat_map fst snd]. apply ChunksCons; auto.
Qed.

Lemma beyondLatin_existsb (a : N) (z : jsstring) :
  a < 128 -> beyondLatin z = true -> existsb (fun c => c =? a) z = false.
Proof.
  intros A. induction z as [|c z IH]; [reflexivity|].
  cbn [beyondLatin forallb existsb]. intro H.
  apply andb_true_iff in H as [H1 H2]. apply N.leb_le in H1.
  rewrite (IH H2), orb_false_r. apply N.eqb_neq. lia.
Qed.

(** A unit below the capitals occurs in the lower-case form exactly when
    it occurs in the text. *)
Lemma chunks_existsb (a : N) (s t : jsstring) :
  a < 65 -> Chunks s t ->
  existsb (fun c => c =? a) t = existsb (fun c => c =? a) s.
Proof.
  intros A H. induction H as [|i o s t C _ IH]; [reflexivity|].
  rewrite !existsb_app, IH. f_equal. destruct C as [c L| | |i o _ _ Bi Bo].
  - cbn [existsb]. f_equal. unfold lowerLatin.
    destruct ((65 <=? c) && (c <=? 90)) eqn:E; [|reflexivity].
    apply andb_true_iff in E as [E _]. apply N.leb_le in E.
    destruct (N.eqb_spec (c + 32) a), (N.eqb_spec c a); try reflexivity; lia.
  - cbn [existsb].
    replace (107 =? a) with false by (symmetry; apply N.eqb_neq; lia).
    now replace (0x212A =? a) with false by (symmetry; apply N.eqb_neq; lia).
  - cbn [existsb].
    replace (105 =? a) with false by (symmetry; apply N.eqb_neq; lia).
    replace (0x307 =? a) with false by (symmetry; apply N.eqb_neq; lia).
    now replace (0x130 =? a) with false by (symmetry; apply N.eqb_neq; lia).
  - rewrite !beyondLatin_existsb by (try assumption; lia). reflexivity.
Qed.

Lemma hasDot_toLowerCase (s : jsstring) : hasDot (toLowerCase s) = hasDot s.
Proof.
  unfold hasDot. apply chunks_existsb; [reflexivity|apply toLowerCase_chunks].
Qed.

Lemma noSlash_toLowerCase (s : jsstring) : noSlash (toLowerCase s) = noSlash s.
Proof.
  assert (E : forall x, noSlash x = negb (existsb (fun c => c =? 47) x)).
  { induction x as [|c x IH]; [reflexivity|].
    unfold noSlash in *. cbn [forallb existsb]. rewrite IH.
    now rewrite negb_orb. }
  rewrite !E. f_equal.
  apply chunks_existsb; [reflexivity|apply toLowerCase_chunks].
Qed.

Lemma toLowerCase_nonempty (s : jsstring) : s <> [] -> toLowerCase s <> [].
Proof.
  intro H. destruct (toLowerCase_chunks s) as [|i o s' t C _];
    [contradiction|].
  destruct C; try discriminate.
  destruct o; [contradiction|discriminate].
Qed.

(** *** A dot at the end *)

Lemma nextIsCased_snoc_dot (ps : list point) :
  nextIsCased (ps ++ [Single 46]) = nextIsCased ps.
Proof.
  induction ps as [|p ps IH]; [vm_compute; reflexivity|].
  cbn [app nextIsCased]. now rewrite IH.
Qed.

Lemma lowerPoints_snoc_dot (ps : list point) :
  forall before,
    lowerPoints before (ps ++ [Single 46]) = lowerPoints before ps ++ [46].
Proof.
  induction ps as [|p ps IH]; intros before.
  - cbn [app lowerPoints]. now rewrite lowerPoint_latin.
  - cbn [app lowerPoints]. rewrite IH, <- app_assoc. f_equal.
    unfold lowerPoint. now rewrite nextIsCased_snoc_dot.
Qed.

(** The lower-case form of a text and a dot is that of the text, and a
    dot. *)
Lemma toLowerCase_snoc_dot (s : jsstring) :
  toLowerCase (s ++ [46]) = toLowerCase s ++ [46].
Proof.
  unfold toLowerCase. rewrite points_snoc by reflexivity.
  apply lowerPoints_snoc_dot.
Qed.

(** *** Basic Latin *)

Lemma pairedWith_absent (c : N) (from to : jsstring) :
  ~ In c from -> pairedWith c from to = c.
Proof.
  revert to. induction from as [|f from IH]; intros [|t to] H; try reflexivity.
  cbn [pairedWith]. destruct (N.eqb_spec c f) as [->|_].
  - exfalso. apply H. now left.
  - apply IH. intro I. apply H. now right.
Qed.

(** The small letter of the specification is that of the code. *)
Lemma small_lowerLatin (c : N) : small c = lowerLatin c.
Proof.
  unfold lowerLatin. destruct ((65 <=? c) && (c <=? 90)) eqn:E.
  - apply andb_true_iff in E as [E1 E2].
    apply N.leb_le in E1. apply N.leb_le in E2.
    assert (H : c = 65 \/ c = 66 \/ c = 67 \/ c = 68 \/ c = 69 \/ c = 70
                \/ c = 71 \/ c = 72 \/ c = 73 \/ c = 74 \/ c = 75 \/ c = 76
                \/ c = 77 \/ c = 78 \/ c = 79 \/ c = 80 \/ c = 81 \/ c = 82
                \/ c = 83 \/ c = 84 \/ c = 85 \/ c = 86 \/ c = 87 \/ c = 88
                \/ c = 89 \/ c = 90) by lia.
    repeat (destruct H as [->|H]; [reflexivity|]). now subst.
  - apply pairedWith_absent. intro I.
    assert (A : forallb (fun x => (65 <=? x) && (x <=? 90)) capitalLetters = true)
      by reflexivity.
    rewrite forallb_forall in A. rewrite (A c I) in E. discriminate.
Qed.

Lemma points_basicLatin (s : jsstring) :
  isBasicLatin s = true -> points s = map Single s.
Proof.
  induction s as [|a|a b l IH1 IH2] using list_ind2; [reflexivity..|].
  intro H. rewrite points_pair.
  assert (A : isLead a = false).
  { cbn [isBasicLatin forallb] in H. apply andb_true_iff in H as [H _].
    apply N.ltb_lt in H. unfold isLead. apply andb_false_iff. left.
    apply N.leb_gt. lia. }
  rewrite A. cbn [andb map]. f_equal. apply IH2.
  cbn [isBasicLatin forallb] in H. now apply andb_true_iff in H as [_ H].
Qed.

(** On Basic Latin text, lower-casing is letter by letter. *)
Lemma toLowerCase_basicLatin (s : jsstring) :
  isBasicLatin s = true -> toLowerCase s = map small s.
Proof.
  intro H. unfold toLowerCase. rewrite (points_basicLatin s H).
  generalize (@nil point).
  induction s as [|c s IH]; intros before; [reflexivity|].
  cbn [isBasicLatin forallb] in H. apply andb_true_iff in H as [H1 H2].
  apply N.ltb_lt in H1. cbn [map lowerPoints].
  rewrite (lowerPoint_latin _ _ c H1), small_lowerLatin. cbn [app].
  f_equal. now apply IH.
Qed.

End LowerCasing.

(** ** File names *)

Section FileNames.
Import Upload.

(** *** The last dot of a name *)

Lemma atLastDot_noDot (name : jsstring) :
  hasDot name = false <-> atLastDot name = None.
Proof.
  induction name as [|c r IH]; simpl; [tauto|].
  destruct (atLastDot r) as [[st e]|].
  - split; [|discriminate]. intro H. apply orb_false_iff in H as [_ H].
    apply IH in H. discriminate.
  - destruct (c =? 46); simpl; [split; discriminate|]. tauto.
Qed.

Lemma atLastDot_parts (name stem ext : jsstring) :
  atLastDot name = Some (stem, ext) ->
  name = stem ++ 46 :: ext /\ hasDot ext = false.
Proof.
  revert stem. induction name as [|c r IH]; simpl; [discriminate|].
  intros stem. destruct (atLastDot r) as [[st e]|] eqn:E.
  - intros [= <- <-]. destruct (IH st eq_refl) as [-> H]. now split.
  - destruct (c =? 46) eqn:C; [|discriminate].
    intros [= <- <-]. apply N.eqb_eq in C. subst c.
    split; [reflexivity|]. now apply atLastDot_noDot.
Qed.

(** [split(".")] ends with the extension, or is the whole name alone. *)
Lemma split_atLastDot (name : jsstring) :
  match atLastDot name with
  | None => split 46 name = [name]
  | Some (_, ext) => exists front, split 46 name = front ++ [ext] /\ front <> []
  end.
Proof.
  induction name as [|c r IH]; simpl; [reflexivity|].
  destruct (atLastDot r) as [[st e]|].
  - destruct IH as [front [-> Hf]].
    destruct (c =? 46).
    + exists ([] :: front). split; [reflexivity|discriminate].
    + destruct front as [|h t]; [contradiction|]. simpl.
      exists ((c :: h) :: t). split; [reflexivity|discriminate].
  - rewrite IH. destruct (c =? 46).
    + exists [[]]. split; [reflexivity|discriminate].
    + reflexivity.
Qed.

Lemma pop_split (name : jsstring) :
  last (split 46 name) [] =
    match atLastDot name with
    | Some (_, ext) => ext
    | None => name
    end.
Proof.
  pose proof (split_atLastDot name) as H.
  destruct (atLastDot name) as [[st e]|].
  - destruct H as [front [-> _]]. apply last_last.
  - now rewrite H.
Qed.

Lemma orEmpty_id (x : jsstring) : orEmpty x = x.
Proof. unfold orEmpty. destruct x; reflexivity. Qed.

(** *** What the extension-removing replacement does *)

Lemma notSlashOrDot_noDot (s : jsstring) :
  forallb notSlashOrDot s = true -> hasDot s = false.
Proof.
  induction s as [|c r IH]; [reflexivity|].
  simpl. unfold notSlashOrDot at 1. intro H.
  apply andb_true_iff in H as [H1 H2].
  apply negb_true_iff, orb_false_iff in H1 as [_ ->]. now apply IH.
Qed.

Lemma noDot_noSlash (s : jsstring) :
  hasDot s = false -> noSlash s = true -> forallb notSlashOrDot s = true.
Proof.
  induction s as [|c r IH]; [reflexivity|].
  simpl. unfold notSlashOrDot at 1. intros H1 H2.
  apply orb_false_iff in H1 as [-> H1].
  apply andb_true_iff in H2 as [H2 H3].
  apply negb_true_iff in H2. rewrite H2. simpl. now apply IH.
Qed.

Lemma removeExtension_noDot (s : jsstring) :
  hasDot s = false -> removeExtension s = s.
Proof.
  induction s as [|c r IH]; [reflexivity|].
  simpl. intro H. apply orb_false_iff in H as [-> H]. simpl.
  now rewrite IH.
Qed.

(** With at least one unit after the last dot, none of them a slash, the
    replacement removes the dot and what follows. *)
Lemma removeExtension_stem (name stem ext : jsstring) :
  atLastDot name = Some (stem, ext) -> ext <> [] -> noSlash ext = true ->
  removeExtension name = stem.
Proof.
  revert stem. induction name as [|c r IH]; simpl; [discriminate|].
  intros stem. destruct (atLastDot r) as [[st e]|] eqn:E.
  - intros [= <- <-] He Hs.
    assert (D : forallb notSlashOrDot r = false).
    { destruct (forallb notSlashOrDot r) eqn:F; [|reflexivity].
      apply notSlashOrDot_noDot, atLastDot_noDot in F. congruence. }
    rewrite D, andb_false_r. now rewrite (IH st eq_refl He Hs).
  - destruct (c =? 46) eqn:C; [|discriminate].
    intros [= <- <-] He Hs. apply eqb_neq in He. rewrite He. simpl.
    apply atLastDot_noDot in E. now rewrite (noDot_noSlash r E Hs).
Qed.

(** With nothing after the last dot, the replacement changes nothing. *)
Lemma removeExtension_trailingDot (name stem : jsstring) :
  atLastDot name = Some (stem, []) -> removeExtension name = name.
Proof.
  revert stem. induction name as [|c r IH]; simpl; [discriminate|].
  intros stem. destruct (atLastDot r) as [[st e]|] eqn:E.
  - intros [= <- ->].
    assert (D : forallb notSlashOrDot r = false).
    { destruct (forallb notSlashOrDot r) eqn:F; [|reflexivity].
      apply notSlashOrDot_noDot, atLastDot_noDot in F. congruence. }
    rewrite D, andb_false_r. now rewrite (IH st eq_refl).
  - destruct (c =? 46); [|discriminate]. now intros [= <- ->].
Qed.

(** *** Hyphenation *)

Lemma hyphenate_app_dot (l : jsstring) :
  forall b, hyphenate b (l ++ [46]) = hyphenate b l
            \/ hyphenate b (l ++ [46]) = hyphenate b l ++ [45].
Proof.
  induction l as [|c r IH]; intro b; simpl.
  - destruct b; [left|right]; reflexivity.
  - destruct (isLowerAlnum c).
    + destruct (IH false) as [-> | ->]; [left|right]; reflexivity.
    + destruct b; destruct (IH true) as [-> | ->];
        (left; reflexivity) || (right; reflexivity).
Qed.

Lemma trimHyphens_app_hyphen (y : jsstring) :
  trimHyphens (y ++ [45]) = trimHyphens y.
Proof.
  unfold trimHyphens. destruct (forallb isHyphen y) eqn:F.
  - rewrite (dropWhile_all isHyphen y F).
    rewrite (dropWhile_all isHyphen (y ++ [45])); [reflexivity|].
    rewrite forallb_app, F. reflexivity.
  - rewrite (dropWhile_app_last _ _ _ F).
    now apply dropWhileEnd_app_last.
Qed.

(** A dot ending the name leaves no mark on the base segment. *)
Lemma base_trailingDot (stem : jsstring) :
  trimHyphens (hyphenate false (toLowerCase (stem ++ [46])))
  = trimHyphens (hyphenate false (toLowerCase stem)).
Proof.
  rewrite toLowerCase_snoc_dot.
  destruct (hyphenate_app_dot (toLowerCase stem) false) as [-> | ->];
    [reflexivity|apply trimHyphens_app_hyphen].
Qed.

(** *** Words joined by hyphens *)

Lemma startsWith_hyphen (s : jsstring) :
  startsWith s [45] = match s with c :: _ => c =? 45 | [] => false end.
Proof.
  destruct s as [|c r]; [reflexivity|]. cbn [startsWith].
  rewrite startsWith_nil, andb_true_r. apply N.eqb_sym.
Qed.

Lemma alnum_notHyphen (c : N) : isLowerAlnum c = true -> (c =? 45) = false.
Proof.
  intro H. destruct (N.eqb_spec c 45) as [->|]; [discriminate|reflexivity].
Qed.

Lemma hyphenate_inRun_head (s : jsstring) :
  startsWith (hyphenate true s) [45] = false.
Proof.
  induction s as [|c r IH]; [reflexivity|].
  simpl. destruct (isLowerAlnum c) eqn:A; [|exact IH].
  rewrite startsWith_hyphen. now apply alnum_notHyphen.
Qed.

(** The class [[a-z0-9]] of the specification is that of the code. *)
Lemma isLetterOrDigit_alnum (c : N) : isLetterOrDigit c = isLowerAlnum c.
Proof.
  apply eq_true_iff_eq. split.
  - intro H. unfold isLetterOrDigit in H.
    apply existsb_exists in H as [x [I E]]. apply N.eqb_eq in E. subst x.
    assert (A : forallb isLowerAlnum (smallLetters ++ decimalDigits) = true)
      by reflexivity.
    rewrite forallb_forall in A. now apply A.
  - unfold isLowerAlnum. intro H. apply orb_true_iff in H.
    assert (R : (97 <= c <= 122) \/ (48 <= c <= 57)).
    { destruct H as [H|H]; apply andb_true_iff in H as [H1 H2];
        apply N.leb_le in H1; apply N.leb_le in H2; [left|right]; now split. }
    clear H.
    assert (H : c = 97 \/ c = 98 \/ c = 99 \/ c = 100 \/ c = 101 \/ c = 102
                \/ c = 103 \/ c = 104 \/ c = 105 \/ c = 106 \/ c = 107
                \/ c = 108 \/ c = 109 \/ c = 110 \/ c = 111 \/ c = 112
                \/ c = 113 \/ c = 114 \/ c = 115 \/ c = 116 \/ c = 117
                \/ c = 118 \/ c = 119 \/ c = 120 \/ c = 121 \/ c = 122
                \/ c = 48 \/ c = 49 \/ c = 50 \/ c = 51 \/ c = 52 \/ c = 53
                \/ c = 54 \/ c = 55 \/ c = 56 \/ c = 57) by lia.
    repeat (destruct H as [->|H]; [reflexivity|]). now subst.
Qed.

Lemma words_head (s : jsstring) :
  headIsLetterOrDigit s = true -> words s <> [].
Proof.
  destruct s as [|c r]; [discriminate|]. cbn [headIsLetterOrDigit words].
  intros ->. destruct (words r); [discriminate|].
  destruct (headIsLetterOrDigit r); discriminate.
Qed.

Lemma words_nonempty (s : jsstring) : Forall (fun w => w <> []) (words s).
Proof.
  induction s as [|c r IH]; [constructor|].
  cbn [words]. destruct (isLetterOrDigit c); [|exact IH].
  destruct (words r) as [|w ws]; [repeat constructor; discriminate|].
  inversion IH; subst.
  destruct (headIsLetterOrDigit r); repeat constructor;
    try discriminate; assumption.
Qed.

Lemma slug_nonempty (s : jsstring) : words s <> [] -> slug s <> [].
Proof.
  unfold slug. pose proof (words_nonempty s) as F.
  destruct (words s) as [|w ws]; [contradiction|]. intros _.
  inversion F; subst. destruct w; [contradiction|].
  destruct ws; discriminate.
Qed.

Lemma dropWhileEnd_hyphenated (s : jsstring) :
  dropWhileEnd isHyphen (hyphenate true s) = slug s
  /\ dropWhileEnd isHyphen (hyphenate false s)
     = if headIsLetterOrDigit s then slug s
       else match words s with
            | [] => []
            | _ :: _ => 45 :: slug s
            end.
Proof.
  induction s as [|c r [IH1 IH2]]; [split; reflexivity|].
  cbn [hyphenate headIsLetterOrDigit]. rewrite isLetterOrDigit_alnum.
  destruct (isLowerAlnum c) eqn:A.
  - assert (E : dropWhileEnd isHyphen (c :: hyphenate false r) = slug (c :: r)).
    { assert (K : forall x : jsstring,
                match x with
                | [] => if isHyphen c then [] else [c]
                | y :: k => c :: y :: k
                end = c :: x).
      { intros [|y x]; [|reflexivity]. unfold isHyphen.
        now rewrite (alnum_notHyphen c A). }
      rewrite dropWhileEnd_cons, K, IH2. unfold slug. cbn [words].
      rewrite isLetterOrDigit_alnum, A.
      destruct (headIsLetterOrDigit r) eqn:Hd.
      - pose proof (words_head r Hd) as Ne.
        destruct (words r) as [|w ws]; [contradiction|].
        destruct ws; reflexivity.
      - destruct (words r) as [|w ws]; [reflexivity|].
        destruct ws; reflexivity. }
    split; exact E.
  - assert (W : slug (c :: r) = slug r).
    { unfold slug. cbn [words]. now rewrite isLetterOrDigit_alnum, A. }
    split; [now rewrite W|].
    rewrite dropWhileEnd_cons, IH1. cbn [words].
    rewrite isLetterOrDigit_alnum, A, W.
    destruct (words r) as [|w ws] eqn:Ew.
    + unfold slug. now rewrite Ew.
    + assert (Ne : slug r <> []) by (apply slug_nonempty; now rewrite Ew).
      destruct (slug r); [contradiction|reflexivity].
Qed.

Lemma dropWhile_hyphenated (s : jsstring) :
  dropWhile isHyphen (hyphenate false s) = hyphenate true s.
Proof.
  destruct s as [|c r]; [reflexivity|]. cbn [hyphenate].
  destruct (isLowerAlnum c) eqn:A.
  - cbn [dropWhile]. unfold isHyphen. now rewrite (alnum_notHyphen c A).
  - cbn [dropWhile]. unfold isHyphen at 1. rewrite N.eqb_refl.
    pose proof (hyphenate_inRun_head r) as H. rewrite startsWith_hyphen in H.
    destruct (hyphenate true r) as [|x k]; [reflexivity|].
    cbn [dropWhile]. unfold isHyphen. now rewrite H.
Qed.

(** Replacing every run outside [[a-z0-9]] by a hyphen and trimming the
    hyphens at both ends leaves the words of the text, joined by hyphens. *)
Lemma slug_hyphenate (s : jsstring) :
  trimHyphens (hyphenate false s) = slug s.
Proof.
  unfold trimHyphens. rewrite dropWhile_hyphenated.
  apply dropWhileEnd_hyphenated.
Qed.

(** *** The characters of a stored name *)

Lemma hyphenate_pattern (s : jsstring) :
  forall b, forallb isPatternChar (hyphenate b s) = true.
Proof.
  induction s as [|c r IH]; intro b; [reflexivity|].
  simpl. destruct (isLowerAlnum c) eqn:A.
  - simpl. unfold isPatternChar at 1. rewrite A. apply IH.
  - destruct b; [apply IH|]. simpl. apply IH.
Qed.

Lemma digitsOf_pattern (u : Decimal.uint) :
  forallb isPatternChar (digitsOf u) = true.
Proof. induction u; simpl; auto. Qed.

Lemma decimal_pattern (z : Z) : forallb isPatternChar (decimal z) = true.
Proof.
  unfold decimal. destruct (Z.to_int z); simpl; apply digitsOf_pattern.
Qed.

Lemma digit36_alnum (d : nat) : isLowerAlnum (digit36 d) = true.
Proof.
  unfold digit36.
  assert (A : forallb isLowerAlnum
                (str "0123456789abcdefghijklmnopqrstuvwxyz") = true)
    by reflexivity.
  rewrite forallb_forall in A. apply A. apply nth_In.
  change (length (str "0123456789abcdefghijklmnopqrstuvwxyz")) with 36%nat.
  apply Nat.mod_upper_bound. discriminate.
Qed.

(** The token is made of the first seven fraction digits, fewer when the
    random number prints with fewer. *)
Lemma token_digits (digits : list nat) :
  substring 2 9 (randomToString36 digits) = map digit36 (firstn 7 digits).
Proof.
  unfold substring, randomToString36.
  destruct digits as [|d ds]; [reflexivity|].
  change (skipn 2 (str "0." ++ map digit36 (d :: ds)))
    with (map digit36 (d :: ds)).
  change (9 - 2)%nat with 7%nat. apply firstn_map.
Qed.

Lemma token_pattern (digits : list nat) :
  forallb isPatternChar (substring 2 9 (randomToString36 digits)) = true.
Proof.
  rewrite token_digits. apply forallb_forall. intros c H.
  apply in_map_iff in H as [d [<- _]].
  unfold isPatternChar. now rewrite digit36_alnum.
Qed.

Lemma token_length (digits : list nat) :
  length (substring 2 9 (randomToString36 digits))
  = Nat.min 7 (length digits).
Proof. rewrite token_digits, length_map. apply length_firstn. Qed.

(** *** The generated name against the specification's *)

Lemma generateSafeFilename_noDot (timestamp : Z) (random36 name : jsstring) :
  hasDot name = false ->
  generateSafeFilename timestamp random36 name
  = trimHyphens (hyphenate false (toLowerCase name)) ++ str "-"
      ++ decimal timestamp ++ str "-" ++ substring 2 9 random36 ++ str "."
      ++ toLowerCase name.
Proof.
  intro H. unfold generateSafeFilename.
  rewrite orEmpty_id, pop_split, (removeExtension_noDot name H).
  apply atLastDot_noDot in H. now rewrite H.
Qed.

Lemma generateSafeFilename_storedName (timestamp : Z)
    (random36 name : jsstring) :
  hasDot name = true -> noSlash (extension name) = true ->
  generateSafeFilename timestamp random36 name
  = storedName timestamp (substring 2 9 random36) name.
Proof.
  intros Hd Hs. unfold generateSafeFilename, storedName, baseSegment.
  rewrite <- slug_hyphenate, orEmpty_id, pop_split.
  unfold extension, stripExtension in *.
  destruct (atLastDot name) as [[st e]|] eqn:E.
  - destruct e as [|x e].
    + rewrite (removeExtension_trailingDot name st E).
      destruct (atLastDot_parts _ _ _ E) as [-> _].
      now rewrite base_trailingDot.
    + rewrite (removeExtension_stem name st (x :: e) E); [reflexivity| |exact Hs].
      discriminate.
  - apply atLastDot_noDot in E. congruence.
Qed.
(** *** The part before the dot *)

Lemma generated_front (timestamp : Z) (digits : list nat) (name : jsstring) :
  generateSafeFilename timestamp (randomToString36 digits) name
  = front timestamp digits name
      ++ 46 :: toLowerCase (last (split 46 name) []).
Proof.
  unfold generateSafeFilename, front. rewrite orEmpty_id.
  now rewrite <- !app_assoc.
Qed.

Lemma front_pattern (timestamp : Z) (digits : list nat) (name : jsstring) :
  forallb isPatternChar (front timestamp digits name) = true.
Proof.
  unfold front. rewrite !forallb_app, decimal_pattern, token_pattern.
  unfold trimHyphens.
  rewrite dropWhileEnd_forallb by (apply dropWhile_forallb, hyphenate_pattern).
  reflexivity.
Qed.

Lemma front_nonempty (timestamp : Z) (digits : list nat) (name : jsstring) :
  front timestamp digits name <> [].
Proof.
  unfold front. intro E. apply (f_equal (@length N)) in E.
  rewrite !length_app in E. simpl in E. lia.
Qed.

Lemma hasDot_rev (s : jsstring) : hasDot (rev s) = hasDot s.
Proof.
  unfold hasDot. induction s as [|c r IH]; [reflexivity|].
  simpl. rewrite existsb_app, IH. simpl. rewrite orb_false_r. apply orb_comm.
Qed.

Lemma pattern_noSlash (x : jsstring) :
  forallb isPatternChar x = true -> noSlash x = true.
Proof.
  induction x as [|c r IH]; [reflexivity|].
  simpl. intro H. apply andb_true_iff in H as [H1 H2].
  rewrite (IH H2), andb_true_r.
  destruct (N.eqb_spec c 47); [subst; discriminate|reflexivity].
Qed.

(** A generated name holds a slash exactly when the part of the original
    name after its last dot holds one. *)
Lemma noSlash_generated (timestamp : Z) (digits : list nat) (name : jsstring) :
  noSlash (generateSafeFilename timestamp (randomToString36 digits) name)
  = noSlash (last (split 46 name) []).
Proof.
  rewrite generated_front. unfold noSlash at 1. rewrite forallb_app.
  fold (noSlash (front timestamp digits name)).
  rewrite (pattern_noSlash _ (front_pattern timestamp digits name)).
  simpl. apply noSlash_toLowerCase.
Qed.
End FileNames.

(** ** Lower-casing and endings *)

Section Endings.

Lemma beyondLatin_rev (z : jsstring) : beyondLatin (rev z) = beyondLatin z.
Proof. apply forallb_rev. Qed.

Lemma lowerLatin_beyond (c : N) : 128 <= c -> lowerLatin c = c.
Proof.
  intro H. unfold lowerLatin.
  replace (c <=? 90) with false by (symmetry; apply N.leb_gt; lia).
  now rewrite andb_false_r.
Qed.

Lemma startsWith_beyond (z rest q : jsstring) (x : N) :
  z <> [] -> beyondLatin z = true -> x < 128 ->
  startsWith (z ++ rest) (x :: q) = false
  /\ startsWith (map lowerLatin (z ++ rest)) (x :: q) = false.
Proof.
  intros Ne B X. destruct z as [|c z]; [contradiction|].
  cbn [beyondLatin forallb] in B. apply andb_true_iff in B as [B _].
  apply N.leb_le in B. cbn [app map startsWith].
  rewrite (lowerLatin_beyond c B).
  replace (x =? c) with false by (symmetry; apply N.eqb_neq; lia).
  split; reflexivity.
Qed.

Lemma plainUnit_bounds (x : N) :
  plainUnit x = true -> x < 128 /\ x <> 107 /\ lowerLatin x = x.
Proof.
  unfold plainUnit. intro H.
  apply andb_true_iff in H as [H Hk]. apply andb_true_iff in H as [Hx Hu].
  apply N.ltb_lt in Hx. apply negb_true_iff, N.eqb_neq in Hk.
  apply negb_true_iff in Hu. unfold lowerLatin. now rewrite Hu.
Qed.

(** Read from the end, a text and its lower-case form begin with the same
    plain units, up to the case of Basic Latin letters. *)
Lemma startsWith_lowered (s t : jsstring) :
  Chunks s t ->
  forall q, forallb plainUnit q = true ->
    startsWith (rev t) q = startsWith (map lowerLatin (rev s)) q.
Proof.
  intro H. induction H as [|i o s t C _ IH] using Chunks_rev_ind;
    [reflexivity|].
  intros [|x q] Hq; [now rewrite !startsWith_nil|].
  cbn [forallb] in Hq. apply andb_true_iff in Hq as [Hx Hq].
  destruct (plainUnit_bounds x Hx) as [X [K _]].
  rewrite !rev_app_distr. destruct C as [c L| | |i o Ni No Bi Bo].
  - cbn [rev app map startsWith]. f_equal. now apply IH.
  - cbn [rev app map startsWith].
    replace (x =? 107) with false by (symmetry; now apply N.eqb_neq).
    replace (x =? lowerLatin 0x212A) with false
      by (symmetry; apply N.eqb_neq; change (lowerLatin 0x212A) with 0x212A; lia).
    reflexivity.
  - cbn [rev app map startsWith].
    replace (x =? 0x307) with false by (symmetry; apply N.eqb_neq; lia).
    replace (x =? lowerLatin 0x130) with false
      by (symmetry; apply N.eqb_neq; change (lowerLatin 0x130) with 0x130; lia).
    reflexivity.
  - assert (Ri : rev i <> []).
    { intro E. apply (f_equal (@rev N)) in E. rewrite rev_involutive in E.
      contradiction. }
    assert (Ro : rev o <> []).
    { intro E. apply (f_equal (@rev N)) in E. rewrite rev_involutive in E.
      contradiction. }
    rewrite <- beyondLatin_rev in Bi, Bo.
    rewrite (proj1 (startsWith_beyond (rev o) (rev t) q x Ro Bo X)).
    now rewrite (proj2 (startsWith_beyond (rev i) (rev s) q x Ri Bi X)).
Qed.

Lemma plain_rev (ending : jsstring) :
  forallb plainUnit ending = true -> forallb plainUnit (rev ending) = true.
Proof. intro H. now rewrite forallb_rev. Qed.

(** For an ending of plain units, lower-casing the whole string and
    lower-casing its Basic Latin capitals give the same test. *)
Lemma endsWith_toLowerCase (s ending : jsstring) :
  forallb plainUnit ending = true ->
  endsWith (toLowerCase s) ending = endsWith (map lowerLatin s) ending.
Proof.
  intro H. unfold endsWith. rewrite <- map_rev.
  apply (startsWith_lowered s (toLowerCase s) (toLowerCase_chunks s)).
  now apply plain_rev.
Qed.

Lemma startsWith_iff (a b : jsstring) :
  startsWith a b = true <-> exists t, a = b ++ t.
Proof.
  revert a. induction b as [|x b IH]; intros a.
  - rewrite startsWith_nil. split; [intros _; now exists a|reflexivity].
  - destruct a as [|y a]; cbn [startsWith].
    + split; [discriminate|]. intros [t E]. discriminate.
    + rewrite andb_true_iff, N.eqb_eq, IH. split.
      * intros [-> [t ->]]. now exists t.
      * intros [t E]. injection E as -> ->. split; [reflexivity|now exists t].
Qed.

Lemma endsWith_iff (s p : jsstring) :
  endsWith s p = true <-> exists before, s = before ++ p.
Proof.
  unfold endsWith. rewrite startsWith_iff. split.
  - intros [t E]. exists (rev t). apply (f_equal (@rev N)) in E.
    now rewrite rev_involutive, rev_app_distr, rev_involutive in E.
  - intros [before ->]. exists (rev before). apply rev_app_distr.
Qed.

Lemma sameLetters_lowered (a p : jsstring) :
  forallb plainUnit p = true ->
  sameLetters a p = eqb (map lowerLatin a) p.
Proof.
  revert a. induction p as [|y p IH]; intros [|x a] H; try reflexivity.
  cbn [forallb] in H. apply andb_true_iff in H as [Hy H].
  destruct (plainUnit_bounds y Hy) as [_ [_ L]].
  cbn [sameLetters map eqb]. rewrite !small_lowerLatin, L. f_equal.
  now apply IH.
Qed.

(** The ending test of the specification, spelled out. *)
Lemma endsWithIgnoringCase_iff (url ending : jsstring) :
  endsWithIgnoringCase url ending = true
  <-> exists before tail,
        url = before ++ tail /\ sameLetters tail ending = true.
Proof.
  induction url as [|c url IH]; cbn [endsWithIgnoringCase].
  - rewrite orb_false_r. split.
    + intro H. now exists [], [].
    + intros [before [tail [E H]]].
      symmetry in E. apply app_eq_nil in E as [_ ->]. exact H.
  - rewrite orb_true_iff, IH. split.
    + intros [H|[before [tail [-> H]]]].
      * now exists [], (c :: url).
      * now exists (c :: before), tail.
    + intros [[|b before] [tail [E H]]].
      * left. cbn [app] in E. now subst tail.
      * right. injection E as -> ->. now exists before, tail.
Qed.

Lemma endsWith_ignoringCase (url ending : jsstring) :
  forallb plainUnit ending = true ->
  endsWith (map lowerLatin url) ending = endsWithIgnoringCase url ending.
Proof.
  intro H. apply eq_true_iff_eq.
  rewrite endsWith_iff, endsWithIgnoringCase_iff. split.
  - intros [before E].
    apply map_eq_app in E as [b [tail [-> [_ E]]]].
    exists b, tail. split; [reflexivity|].
    rewrite (sameLetters_lowered _ _ H). now apply eqb_eq.
  - intros [before [tail [-> E]]].
    rewrite (sameLetters_lowered _ _ H) in E. apply eqb_eq in E.
    exists (map lowerLatin before). now rewrite map_app, E.
Qed.

Lemma mimeTypeOf_byEnding (url : jsstring) :
  Analyze.mimeTypeOf url = mimeTypeByEnding url.
Proof.
  unfold Analyze.mimeTypeOf, mimeTypeByEnding.
  rewrite !endsWith_toLowerCase by reflexivity.
  now rewrite !endsWith_ignoringCase by reflexivity.
Qed.
End Endings.

(** ** Fence extraction *)

Section Fences.
Import Analyze.

Lemma split_nonempty (sep : N) (s : jsstring) : split sep s <> [].
Proof.
  destruct s as [|c r]; simpl; [discriminate|].
  destruct (c =? sep); [discriminate|].
  destruct (split sep r); discriminate.
Qed.

Lemma split_app (sep : N) (a b : jsstring) :
  split sep (a ++ sep :: b) = split sep a ++ split sep b.
Proof.
  induction a as [|c a IH]; simpl.
  - now rewrite N.eqb_refl.
  - rewrite IH. destruct (c =? sep); [reflexivity|].
    pose proof (split_nonempty sep a) as Ne.
    destruct (split sep a) as [|h t]; [contradiction|reflexivity].
Qed.

Lemma split_noSep (sep : N) (a : jsstring) :
  existsb (fun c => c =? sep) a = false -> split sep a = [a].
Proof.
  induction a as [|c a IH]; [reflexivity|].
  simpl. intro H. apply orb_false_iff in H as [-> H]. now rewrite (IH H).
Qed.

(** Splitting at a separator and joining with it gives the text back. *)
Lemma join_split (sep : N) (s : jsstring) : join sep (split sep s) = s.
Proof.
  induction s as [|c r IH]; [reflexivity|].
  simpl. pose proof (split_nonempty sep r) as Ne.
  destruct (N.eqb_spec c sep) as [->|].
  - destruct (split sep r) as [|h t]; [contradiction|].
    cbn [join app]. cbn [join] in IH. now rewrite IH.
  - destruct (split sep r) as [|h t]; [contradiction|].
    destruct t as [|h' t'].
    + simpl in *. now rewrite IH.
    + cbn [join app] in *. now rewrite IH.
Qed.

(** *** The white space, the lines and the comparisons of the specification *)

Lemma isSpace_isWhiteSpace (c : N) : isSpace c = isWhiteSpace c.
Proof.
  unfold isSpace, whiteSpace, isWhiteSpace. cbn [existsb].
  repeat match goal with
         | |- context [c =? ?k] =>
             destruct (N.eqb_spec c k) as [->|?]; [reflexivity|]
         end.
  destruct (N.leb_spec 9 c), (N.leb_spec c 13), (N.leb_spec 8192 c),
    (N.leb_spec c 8202); try reflexivity; lia.
Qed.

Lemma withoutLeadingSpace_dropWhile (s : jsstring) :
  withoutLeadingSpace s = dropWhile isWhiteSpace s.
Proof.
  induction s as [|c r IH]; [reflexivity|].
  cbn [withoutLeadingSpace dropWhile]. now rewrite isSpace_isWhiteSpace, IH.
Qed.

Lemma withoutTrailingSpace_dropWhileEnd (s : jsstring) :
  withoutTrailingSpace s = dropWhileEnd isWhiteSpace s.
Proof.
  induction s as [|c r IH]; [reflexivity|].
  cbn [withoutTrailingSpace]. now rewrite dropWhileEnd_cons, IH, isSpace_isWhiteSpace.
Qed.

(** Trimming, as the specification has it, is [String.prototype.trim]. *)
Lemma trimmed_trim (s : jsstring) : trimmed s = trim s.
Proof.
  unfold trimmed, trim.
  now rewrite withoutTrailingSpace_dropWhileEnd, withoutLeadingSpace_dropWhile.
Qed.

Lemma sameText_eqb (a b : jsstring) : sameText a b = eqb a b.
Proof.
  unfold sameText. revert b.
  induction a as [|x a IH]; intros [|y b]; try reflexivity.
  cbn [length combine forallb eqb fst snd Nat.eqb]. rewrite <- IH.
  destruct (x =? y); [reflexivity|]. cbn [andb]. apply andb_false_r.
Qed.

Lemma beginsWith_startsWith (p s : jsstring) : beginsWith p s = startsWith s p.
Proof.
  revert s. induction p as [|x p IH]; intros [|y s]; try reflexivity.
  cbn [beginsWith startsWith]. now rewrite IH.
Qed.

Lemma tl_split (s : jsstring) :
  tl (split 10 s)
  = match afterFirstLine s with
    | None => []
    | Some remaining => split 10 remaining
    end.
Proof.
  induction s as [|c r IH]; [reflexivity|].
  cbn [split afterFirstLine]. destruct (c =? 10); [reflexivity|].
  pose proof (split_nonempty 10 r) as Ne.
  destruct (split 10 r) as [|h t]; [contradiction|]. exact IH.
Qed.

Lemma atLastLine_split (s : jsstring) :
  last (split 10 s) [] = snd (atLastLine s)
  /\ removelast (split 10 s)
     = match fst (atLastLine s) with
       | None => []
       | Some before => split 10 before
       end.
Proof.
  induction s as [|c r [IH1 IH2]]; [split; reflexivity|].
  cbn [split atLastLine]. pose proof (split_nonempty 10 r) as Ne.
  destruct (split 10 r) as [|h t]; [contradiction|].
  destruct (atLastLine r) as [[before|] line]; cbn [fst snd] in *.
  - assert (T : t <> []).
    { intros ->. pose proof (split_nonempty 10 before) as B.
      cbn [removelast] in IH2. congruence. }
    destruct t as [|h' t']; [contradiction|]. clear T.
    destruct (c =? 10) eqn:C; cbn [fst snd].
    + apply N.eqb_eq in C. subst c.
      split; [exact IH1|]. cbn [split]. rewrite N.eqb_refl.
      change (removelast ([] :: h :: h' :: t'))
        with ([] :: removelast (h :: h' :: t')).
      now rewrite IH2.
    + split; [exact IH1|]. cbn [split]. rewrite C, <- IH2. reflexivity.
  - assert (T : t = []).
    { destruct t as [|h' t']; [reflexivity|].
      change (removelast (h :: h' :: t'))
        with (h :: removelast (h' :: t')) in IH2. discriminate. }
    subst t. cbn [last] in IH1. subst line.
    destruct (c =? 10); split; reflexivity.
Qed.

(** The extraction of the code is the extraction of the specification. *)
Lemma extractJson_stripFence (text : jsstring) :
  Analyze.extractJson text = stripFence text.
Proof.
  unfold Analyze.extractJson, stripFence.
  rewrite trimmed_trim, beginsWith_startsWith.
  change backticks with (str "```").
  destruct (startsWith (trim text) (str "```")); [|reflexivity].
  rewrite tl_split.
  destruct (afterFirstLine (trim text)) as [remaining|]; [|reflexivity].
  pose proof (split_nonempty 10 remaining) as Ne.
  destruct (atLastLine_split remaining) as [L R].
  replace (0 <? length (split 10 remaining))%nat with true
    by (destruct (split 10 remaining); [contradiction|reflexivity]).
  rewrite L, R. cbn [andb].
  destruct (atLastLine remaining) as [before closing]. cbn [fst snd].
  rewrite sameText_eqb, !trimmed_trim.
  destruct (eqb (trim closing) (str "```")).
  - destruct before as [kept|]; [|reflexivity].
    now rewrite trimmed_trim, join_split.
  - now rewrite join_split.
Qed.

End Fences.

(** ** [JSON.parse] never yields NaN *)

Section ParsedNumbers.
Local Open Scope Z_scope.

Lemma shr_1_nonneg (mrs : shr_record) :
  0 <= shr_m mrs -> 0 <= shr_m (shr_1 mrs).
Proof.
  destruct mrs as [m r s]. destruct m as [|[p|p|]|[p|p|]]; simpl; lia.
Qed.

Lemma iter_shr_1_nonneg (p : positive) :
  forall mrs, 0 <= shr_m mrs -> 0 <= shr_m (iter_pos shr_1 p mrs).
Proof.
  induction p as [p IH|p IH|]; simpl; intros mrs H.
  - apply IH, IH, shr_1_nonneg, H.
  - apply IH, IH, H.
  - apply shr_1_nonneg, H.
Qed.

Lemma shr_fexp_nonneg (m e : Z) (l : location) :
  0 <= m -> 0 <= shr_m (fst (shr_fexp prec emax m e l)).
Proof.
  intro H. unfold shr_fexp, shr.
  assert (H0 : 0 <= shr_m (shr_record_of_loc m l))
    by (destruct l as [|[]]; exact H).
  destruct (fexp prec emax (Zdigits2 m + e) - e); simpl; auto.
  now apply iter_shr_1_nonneg.
Qed.

Lemma round_nearest_even_nonneg (m : Z) (l : location) :
  0 <= m -> 0 <= round_nearest_even m l.
Proof.
  intro H. destruct l as [|[]]; simpl; try destruct (Z.even m); lia.
Qed.

Lemma binary_round_aux_not_nan (sx : bool) (mx ex : Z) (lx : location) :
  0 <= mx -> binary_round_aux prec emax sx mx ex lx <> S754_nan.
Proof.
  intro H. unfold binary_round_aux.
  pose proof (shr_fexp_nonneg mx ex lx H) as H1.
  destruct (shr_fexp prec emax mx ex lx) as [mrs' e']. simpl in H1.
  pose proof (shr_fexp_nonneg _ e' loc_Exact
    (round_nearest_even_nonneg _ (loc_of_shr_record mrs') H1)) as H2.
  destruct (shr_fexp prec emax _ e' loc_Exact) as [mrs'' e'']. simpl in H2.
  destruct (shr_m mrs''); try lia; try discriminate.
  destruct (e'' <=? emax - prec); discriminate.
Qed.

Lemma decimalToDouble_not_nan (neg : bool) (m : N) (e : Z) :
  decimalToDouble neg m e <> S754_nan.
Proof.
  unfold decimalToDouble. destruct m as [|p]; [discriminate|].
  destruct (400 <? _); [discriminate|].
  destruct (_ <? -400); [discriminate|].
  destruct (0 <=? e) eqn:He.
  - unfold binary_round. destruct (shl_align _ _ _) as [mz ez].
    apply binary_round_aux_not_nan. lia.
  - apply Z.leb_gt in He. unfold SFdiv_core_binary.
    set (m' := match _ - _ with Z0 => Z.pos p | Z.pos _ => _ | Z.neg _ => 0 end).
    assert (Hm : 0 <= m').
    { subst m'. destruct (_ - _); try lia. apply Z.shiftl_nonneg. lia. }
    assert (Hd : 0 < 10 ^ (- e)) by (apply Z.pow_pos_nonneg; lia).
    pose proof (Z.div_pos m' (10 ^ (- e)) Hm Hd) as Hq.
    unfold Z.div in Hq. destruct (Z.div_eucl m' (10 ^ (- e))) as [q r].
    apply binary_round_aux_not_nan. exact Hq.
Qed.

Lemma parseNumber_not_nan (s rest : jsstring) (x : spec_float) :
  parseNumber s = Some (x, rest) -> x <> S754_nan.
Proof.
  unfold parseNumber. intro H.
  repeat match type of H with
         | context [match ?t with _ => _ end] => destruct t
         | context [if ?t then _ else _] => destruct t
         | context [let '(_, _) := ?t in _] => destruct t
         end; try discriminate;
    injection H as <- _; apply decimalToDouble_not_nan.
Qed.
End ParsedNumbers.

Section ParsedValues.

Lemma setProp_noNaN (k : jsstring) (v : value) (props : list (jsstring * value)) :
  noNaN v = true ->
  forallb (fun kv => noNaN (snd kv)) props = true ->
  forallb (fun kv => noNaN (snd kv)) (setProp k v props) = true.
Proof.
  intros Hv Hp. unfold setProp. destruct (lookup k props).
  - induction props as [|[k' v'] rest IH]; [reflexivity|].
    cbn [forallb replaceProp snd] in *. apply andb_true_iff in Hp as [H1 H2].
    destruct (eqb k' k); cbn [forallb snd].
    + now rewrite Hv, H2.
    + now rewrite H1, IH.
  - destruct (arrayIndex k) as [n|].
    + induction props as [|[k' v'] rest IH]; cbn [insertIndexed forallb snd].
      * now rewrite Hv.
      * cbn [forallb snd] in Hp. apply andb_true_iff in Hp as [H1 H2].
        destruct (arrayIndex k') as [m|]; [destruct (m <? n)|];
          cbn [forallb snd]; rewrite ?Hv, ?H1, ?H2, ?IH; auto.
    + rewrite forallb_app, Hp. cbn [forallb snd]. now rewrite Hv.
Qed.

Lemma parse_noNaN (fuel : nat) :
  (forall s v r, parseValue fuel s = Some (v, r) -> noNaN v = true)
  /\ (forall s acc v r, parseElements fuel s acc = Some (v, r) ->
        forallb noNaN acc = true -> noNaN v = true)
  /\ (forall s acc v r, parseMembers fuel s acc = Some (v, r) ->
        forallb (fun kv => noNaN (snd kv)) acc = true -> noNaN v = true).
Proof.
  induction fuel as [|f (IHv & IHe & IHm)];
    [repeat split; intros; discriminate|].
  repeat split.
  - intros s v r H. cbn [parseValue] in H.
    destruct (skipSpace s) as [|c t]; [discriminate|].
    destruct (c =? 123).
    { destruct (skipSpace t) as [|c' t']; [discriminate|].
      destruct (c' =? 125).
      - now injection H as <- _.
      - now apply (IHm _ _ _ _ H). }
    destruct (c =? 91).
    { destruct (skipSpace t) as [|c' t']; [discriminate|].
      destruct (c' =? 93).
      - now injection H as <- _.
      - now apply (IHe _ _ _ _ H). }
    destruct (c =? 34).
    { destruct (parseChars t) as [[u rest]|]; [|discriminate].
      now injection H as <- _. }
    destruct (startsWith (c :: t) (str "true")); [now injection H as <- _|].
    destruct (startsWith (c :: t) (str "false")); [now injection H as <- _|].
    destruct (startsWith (c :: t) (str "null")); [now injection H as <- _|].
    destruct (parseNumber (c :: t)) as [[x rest]|] eqn:E; [|discriminate].
    injection H as <- _. apply parseNumber_not_nan in E.
    destruct x; try reflexivity. contradiction.
  - intros s acc v r H Hacc. cbn [parseElements] in H.
    destruct (parseValue f s) as [[v0 r0]|] eqn:E; [|discriminate].
    apply IHv in E.
    destruct (skipSpace r0) as [|c t]; [discriminate|].
    destruct (c =? 44).
    { apply (IHe _ _ _ _ H). simpl. now rewrite E. }
    destruct (c =? 93); [|discriminate].
    injection H as <- _. cbn [noNaN].
    change (rev acc ++ [v0]) with (rev (v0 :: acc)).
    rewrite forallb_rev. simpl. now rewrite E.
  - intros s acc v r H Hacc. cbn [parseMembers] in H.
    destruct (skipSpace s) as [|q r0]; [discriminate|].
    destruct (q =? 34); [|discriminate].
    destruct (parseChars r0) as [[k r1]|]; [|discriminate].
    destruct (skipSpace r1) as [|c r2]; [discriminate|].
    destruct (c =? 58); [|discriminate].
    destruct (parseValue f r2) as [[v0 r3]|] eqn:E; [|discriminate].
    apply IHv in E.
    destruct (skipSpace r3) as [|c' r4]; [discriminate|].
    destruct (c' =? 44).
    { apply (IHm _ _ _ _ H). now apply setProp_noNaN. }
    destruct (c' =? 125); [|discriminate].
    injection H as <- _. cbn [noNaN]. now apply setProp_noNaN.
Qed.

Lemma JSON_parse_noNaN (text : jsstring) (v : value) :
  JSON_parse text = Some v -> noNaN v = true.
Proof.
  unfold JSON_parse.
  destruct (parseValue _ text) as [[v0 rest]|] eqn:E; [|discriminate].
  destruct (skipSpace rest); [|discriminate].
  intros [= <-]. exact (proj1 (parse_noNaN _) _ _ _ E).
Qed.
End ParsedValues.

(** ** The analyze handler, stage by stage *)

Section AnalyzeStages.
Import Analyze.
Variable w : Analyze.world.

(** A body that is [null] is refused by the destructuring itself. *)
Lemma POST_null_body :
  requestJson w = inr JNull ->
  POST w =
    (inr (json (errorBody
       (str "Cannot destructure property 'imageUrl' of 'body' as it is null."))
       500),
     [ConsoleError (str "Analyze error:")]).
Proof.
  intro H. unfold POST, tryCatch, bind, await. rewrite H. reflexivity.
Qed.

(** Any other body without a usable [imageUrl] is answered 400 before
    anything else happens. *)
Lemma POST_requires_imageUrl (body : value) :
  requestJson w = inr body -> body <> JNull ->
  missingOrBlank (get body (str "imageUrl")) = true ->
  POST w =
    (inr (json (errorBody
       (str "imageUrl is required and must be a non-empty string")) 400),
     []).
Proof.
  intros H Hn Hb. unfold POST, tryCatch, bind, await. rewrite H.
  assert (D : destructure body (str "imageUrl") (@nil effect)
              = (inr (get body (str "imageUrl")), [])).
  { destruct body; try reflexivity. contradiction. }
  rewrite D. clear D.
  destruct (get body (str "imageUrl")) as [[ | b | x | u | xs | ps]|];
    try reflexivity.
  - destruct b; reflexivity.
  - destruct x; reflexivity.
  - simpl in Hb. cbn [stringOf]. rewrite Hb.
    rewrite !orb_true_r. reflexivity.
Qed.

(** With a usable [imageUrl] the handler reaches the credential check. *)
Lemma POST_validated (body : value) (url : jsstring) :
  requestJson w = inr body ->
  get body (str "imageUrl") = Some (JString url) ->
  trim url <> [] ->
  POST w =
    tryCatch
      (if noKey (GEMINI_API_KEY w) then
         ret (json (errorBody
           (str "GEMINI_API_KEY environment variable is not set")) 500)
       else
         let key := match GEMINI_API_KEY w with Some k => k | None => [] end in
         fetched <- fetchImage w url ;;
         match fetched with
         | inl early => ret early
         | inr imageBuffer =>
             let request := requestFor key imageBuffer url in
             text <- call (GenerateContent request)
                       (generateContent w request) ;;
             answerFor text
         end)%run
      (fun error =>
         (call (ConsoleError (str "Analyze error:")) (inr tt) ;;;
          ret (json (errorBody
            (messageOr error (str "An unexpected error occurred"))) 500))%run)
      [].
Proof.
  intros H Hg Ht. unfold POST, tryCatch, bind, await. rewrite H.
  assert (D : destructure body (str "imageUrl") (@nil effect)
              = (inr (Some (JString url)), [])).
  { rewrite <- Hg. destruct body; try reflexivity. discriminate. }
  rewrite D. clear D. cbn [stringOf truthy].
  assert (U : url <> []) by (intros ->; apply Ht; reflexivity).
  apply eqb_neq in U, Ht.
  rewrite U, Ht. reflexivity.
Qed.

Lemma answerFor_parsed (text : jsstring) (v : value) (t : list effect) :
  JSON_parse (extractJson text) = Some v ->
  answerFor text t = (inr (validateStructure v), t).
Proof. intro H. unfold answerFor. rewrite H. reflexivity. Qed.

(** Once the model has replied, the handler has made two calls, the fetch
    and the model invocation, and goes on with the text of the reply. *)
Lemma POST_replied_text (url key : jsstring) (r : fetchResponse)
    (bytes : list Byte.byte) (text : jsstring) :
  Replied w url key r bytes text ->
  POST w =
    answerFor text [Fetch url; GenerateContent (requestFor key bytes url)].
Proof.
  intros ([body [Hb Hg]] & Ht & Hk & Hkn & Hf & Hok & Hab & Hgc).
  rewrite (POST_validated body url Hb Hg Ht).
  unfold tryCatch, bind, fetchImage, tryCatch, bind, call, await, ret.
  rewrite Hk. cbn [noKey]. apply eqb_neq in Hkn. rewrite Hkn.
  rewrite Hf. cbn [app]. rewrite Hok. cbn [negb]. rewrite Hab.
  rewrite Hgc. unfold answerFor.
  destruct (JSON_parse (extractJson text)); reflexivity.
Qed.

(** When that text parses, the response is the verdict on the parsed
    value. *)
Lemma POST_replied (url key : jsstring) (r : fetchResponse)
    (bytes : list Byte.byte) (text : jsstring) (v : value) :
  Replied w url key r bytes text ->
  JSON_parse (extractJson text) = Some v ->
  POST w =
    (inr (validateStructure v),
     [Fetch url; GenerateContent (requestFor key bytes url)]).
Proof.
  intros HR Hp. rewrite (POST_replied_text url key r bytes text HR).
  exact (answerFor_parsed text v _ Hp).
Qed.

(** Nothing is fetched or asked of the model after the reply. *)
Lemma answerFor_trace (text : jsstring) (t : list effect) :
  exists rest, snd (answerFor text t) = t ++ rest
               /\ existsb isOutbound rest = false.
Proof.
  unfold answerFor. destruct (JSON_parse (extractJson text)).
  - exists []. now rewrite app_nil_r.
  - eexists. split; reflexivity.
Qed.

(** The outer [catch] answers whatever is thrown: the handler never throws. *)
Lemma Analyze_POST_answers : exists r t, POST w = (inr r, t).
Proof.
  unfold POST, tryCatch.
  match goal with |- context [match ?m with _ => _ end] =>
    destruct m as [[e|a] t] end; eexists; eexists; reflexivity.
Qed.
End AnalyzeStages.

(** ** Shape validation against the specification's shape *)

Section Shape.
Import Analyze.

Lemma lookup_setProp_other (k k0 : jsstring) (x : value)
    (props : list (jsstring * value)) :
  eqb k k0 = false -> lookup k0 (setProp k x props) = lookup k0 props.
Proof.
  intro H. unfold setProp. destruct (lookup k props).
  - induction props as [|[k' v'] rest IH]; [reflexivity|].
    cbn [replaceProp]. destruct (eqb k' k) eqn:E; cbn [lookup].
    + apply eqb_eq in E. subst k'. now rewrite H.
    + now rewrite IH.
  - destruct (arrayIndex k) as [n|].
    + induction props as [|[k' v'] rest IH]; cbn [insertIndexed lookup].
      * now rewrite H.
      * destruct (arrayIndex k') as [m|]; [destruct (m <? n)|];
          cbn [lookup]; rewrite ?H, ?IH; reflexivity.
    + induction props as [|[k' v'] rest IH]; cbn [app lookup].
      * now rewrite H.
      * now rewrite IH.
Qed.

Lemma lookup_serialized (k : jsstring) (props : list (jsstring * value)) :
  lookup k (map (fun kv => (fst kv, serialized (snd kv))) props)
  = option_map serialized (lookup k props).
Proof.
  induction props as [|[k' v'] rest IH]; [reflexivity|].
  cbn [map lookup fst snd]. destruct (eqb k' k); [reflexivity|exact IH].
Qed.

Lemma get_serialized (props : list (jsstring * value)) (k : jsstring) :
  get (serialized (JObject props)) k = option_map serialized (lookup k props).
Proof. apply lookup_serialized. Qed.

(** A value without an infinity, a NaN or a negative zero is written and
    read back as itself. *)
Lemma serialized_writtenAsIs (v : value) :
  writtenAsIs v = true -> serialized v = v.
Proof.
  revert v. fix IH 1. intros [ |b|x|s|xs|props] H; try reflexivity.
  - destruct x as [[|]| | |]; try reflexivity; discriminate.
  - cbn [serialized]. f_equal. cbn [writtenAsIs] in H.
    induction xs as [|x xs IHxs]; [reflexivity|].
    cbn [forallb] in H. apply andb_true_iff in H as [H1 H2].
    cbn [map]. now rewrite (IH x H1), (IHxs H2).
  - cbn [serialized]. f_equal. cbn [writtenAsIs] in H.
    induction props as [|[k x] props IHp]; [reflexivity|].
    cbn [forallb snd] in H. apply andb_true_iff in H as [H1 H2].
    cbn [map fst snd]. now rewrite (IH x H1), (IHp H2).
Qed.

(** Writing an analysis result leaves an analysis result. *)
Lemma isFoodItem_serialized (x : value) :
  isFoodItem x = true -> isFoodItem (serialized x) = true.
Proof.
  destruct x as [ | | | | |props]; try discriminate.
  cbn [serialized isFoodItem]. rewrite !lookup_serialized.
  destruct (lookup (str "name") props) as [[ | | |s| | ]|]; try discriminate.
  destruct (lookup (str "estimatedGrams") props) as [[ | |g| | | ]|];
    try discriminate; [reflexivity|].
  cbn [option_map serialized].
  destruct g as [[|]|[|]| |]; try reflexivity; try discriminate. exact (fun H => H).
Qed.

Lemma isAnalysisResult_serialized (v : value) :
  isAnalysisResult v = true -> isAnalysisResult (serialized v) = true.
Proof.
  destruct v as [ | | | | |props]; try discriminate.
  cbn [serialized isAnalysisResult]. rewrite lookup_serialized.
  destruct (lookup (str "items") props) as [[ | | | |xs| ]|]; try discriminate.
  cbn [option_map serialized]. intro H.
  induction xs as [|x xs IH]; [reflexivity|].
  cbn [forallb map] in *. apply andb_true_iff in H as [H1 H2].
  now rewrite (isFoodItem_serialized x H1), (IH H2).
Qed.

Lemma lookup_noNaN (k : jsstring) (props : list (jsstring * value)) (x : value) :
  forallb (fun kv => noNaN (snd kv)) props = true ->
  lookup k props = Some x -> noNaN x = true.
Proof.
  induction props as [|[k' v'] rest IH]; simpl; [discriminate|].
  intros H. apply andb_true_iff in H as [H1 H2].
  destruct (eqb k' k).
  - intros [= <-]. exact H1.
  - now apply IH.
Qed.

Lemma validateItems_cons (item : value) (rest : list value) :
  validateItems (item :: rest) =
    match validateItems [item] with
    | Some r => Some r
    | None => validateItems rest
    end.
Proof.
  cbn [validateItems].
  repeat match goal with |- context [if ?c then _ else _] => destruct c end;
    reflexivity.
Qed.

Lemma foodItem_accepted (item : value) :
  isFoodItem item = true -> validateItems [item] = None.
Proof.
  destruct item as [ | b | x | s | xs | props]; try discriminate.
  unfold isFoodItem. cbn [validateItems get truthy typeof negb orb].
  destruct (lookup (str "name") props) as [[ | | | n | | ]|]; try discriminate.
  destruct (lookup (str "estimatedGrams") props) as [[ | | g | | | ]|];
    try discriminate.
  - reflexivity.
  - intro H. destruct g as [[]|[]| |[] m e]; try discriminate; reflexivity.
Qed.

Lemma nonFoodItem_refused (item : value) :
  noNaN item = true -> isFoodItem item = false ->
  exists what, validateItems [item] = Some (invalid what).
Proof.
  destruct item as [ | b | x | s | xs | props]; intros Hn H.
  - eexists; reflexivity.
  - destruct b; eexists; reflexivity.
  - destruct x as [[]|[]| |[] m e]; eexists; reflexivity.
  - destruct s; eexists; reflexivity.
  - eexists; reflexivity.
  - unfold isFoodItem in H. cbn [noNaN] in Hn.
    cbn [validateItems get truthy typeof negb orb].
    destruct (lookup (str "name") props) as [[ | | | n | | ]|];
      try (eexists; reflexivity).
    destruct (lookup (str "estimatedGrams") props) as [[ | | g | | | ]|] eqn:E;
      try discriminate; try (eexists; reflexivity).
    pose proof (lookup_noNaN _ _ _ Hn E) as Hg.
    destruct g as [[]|[]| |[] m e]; try discriminate;
      eexists; reflexivity.
Qed.

Lemma foodItems_accepted (xs : list value) :
  forallb isFoodItem xs = true -> validateItems xs = None.
Proof.
  induction xs as [|x xs IH]; [reflexivity|].
  intro H. apply andb_true_iff in H as [H1 H2].
  rewrite validateItems_cons, (foodItem_accepted x H1). now apply IH.
Qed.

Lemma nonFoodItems_refused (xs : list value) :
  forallb noNaN xs = true -> forallb isFoodItem xs = false ->
  exists what, validateItems xs = Some (invalid what).
Proof.
  induction xs as [|x xs IH]; [discriminate|].
  cbn [forallb]. intros Hn H. apply andb_true_iff in Hn as [Hn1 Hn2].
  rewrite validateItems_cons.
  destruct (isFoodItem x) eqn:E.
  - rewrite (foodItem_accepted x E). now apply IH.
  - destruct (nonFoodItem_refused x Hn1 E) as [what ->]. now exists what.
Qed.

(** A value of the specification's shape is answered as it is. *)
Lemma analysisResult_accepted (v : value) :
  isAnalysisResult v = true -> validateStructure v = json v 200.
Proof.
  destruct v as [ | b | x | s | xs | props]; try discriminate.
  unfold isAnalysisResult, validateStructure.
  cbn [get truthy typeof negb orb].
  destruct (lookup (str "items") props) as [[ | | | | items | ]|];
    try discriminate.
  intro H. cbn [isArray negb elementsOf].
  change (eqb (str "object") (str "object")) with true. cbn [negb].
  now rewrite (foodItems_accepted items H).
Qed.

(** Any other value [JSON.parse] can yield is refused with status 500. *)
Lemma nonAnalysisResult_refused (v : value) :
  noNaN v = true -> isAnalysisResult v = false ->
  exists what, validateStructure v = invalid what.
Proof.
  destruct v as [ | b | x | s | xs | props]; intros Hn H.
  - eexists; reflexivity.
  - destruct b; eexists; reflexivity.
  - destruct x as [[]|[]| |[] m e]; eexists; reflexivity.
  - destruct s; eexists; reflexivity.
  - eexists; reflexivity.
  - unfold isAnalysisResult in H. unfold validateStructure.
    cbn [get truthy typeof negb orb].
    change (eqb (str "object") (str "object")) with true. cbn [negb].
    destruct (lookup (str "items") props) as [[ | | | | items | ]|] eqn:E;
      try (eexists; reflexivity).
    cbn [isArray negb elementsOf].
    pose proof (lookup_noNaN _ _ _ Hn E) as Hi. cbn [noNaN] in Hi.
    destruct (nonFoodItems_refused items Hi H) as [what ->].
    now exists what.
Qed.
End Shape.

(** ** The upload handler *)

Section UploadStages.
Import Upload.
Variable w : Upload.world.

Lemma POST_mkdir_fails (e : exn) :
  existsSync w = false -> mkdir w = Some e ->
  POST w =
    (inr (json (errorBody (str "Failed to upload file")) 500),
     [ExistsSync (UPLOAD_DIR w); Mkdir (UPLOAD_DIR w);
      ConsoleError (str "Upload error:")]).
Proof.
  intros H1 H2. unfold POST, tryCatch, bind, ensureUploadDir, bind, call.
  rewrite H1, H2. reflexivity.
Qed.

Lemma POST_type_refused (name type : jsstring) (bytes : list Byte.byte) :
  formData w = inr (Some (EntryFile name type bytes)) ->
  includes ALLOWED_TYPES (Some type) = false ->
  (existsSync w = true \/ mkdir w = None) ->
  POST w = (inr invalidType, ensured w).
Proof.
  intros Hf Ht Hd.
  unfold POST, ensured, tryCatch, bind, ensureUploadDir, bind, call, await, ret.
  rewrite Hf. cbn [noFile typeOf]. rewrite Ht.
  destruct (existsSync w); [reflexivity|].
  destruct Hd as [Hd | Hd]; [discriminate|]. rewrite Hd. reflexivity.
Qed.

Lemma POST_stored (name type : jsstring) (bytes : list Byte.byte) :
  formData w = inr (Some (EntryFile name type bytes)) ->
  includes ALLOWED_TYPES (Some type) = true ->
  (existsSync w = true \/ mkdir w = None) ->
  writeFile w = None ->
  let safeFilename :=
    generateSafeFilename (now w) (randomToString36 (randomDigits w)) name in
  POST w =
    (inr (json (JObject [(str "imageUrl", JString (uploadsUrl safeFilename));
                         (str "url", JString (uploadsUrl safeFilename))]) 200),
     ensured w ++ [WriteFile (UPLOAD_DIR w ++ [safeFilename]) bytes]).
Proof.
  intros Hf Ht Hd Hw.
  unfold POST, ensured, tryCatch, bind, ensureUploadDir, bind, call, await, ret.
  rewrite Hf. cbn [noFile typeOf]. rewrite Ht, Hw.
  destruct (existsSync w); [reflexivity|].
  destruct Hd as [Hd | Hd]; [discriminate|]. rewrite Hd. reflexivity.
Qed.

(** The [catch] answers whatever is thrown: the handler never throws. *)
Lemma Upload_POST_answers : exists r t, POST w = (inr r, t).
Proof.
  unfold POST, tryCatch.
  match goal with |- context [match ?m with _ => _ end] =>
    destruct m as [[e|a] t] end; eexists; eexists; reflexivity.
Qed.
End UploadStages.

(** * The claims *)

Section Claims.
  Import Upload Analyze.

(** ** Analyze: shape validation *)

(** C1. Shape validation is fail-closed: whenever the model's reply parses
    to a value that is not an object whose [items] is an array of objects
    with a string [name] and an [estimatedGrams] that is null or a number
    [>= 0], the handler answers 500 with an error saying what is wrong with
    the structure, and the body carries no [items].  In particular an
    [estimatedGrams] equal to the string "150" is answered 500 with the
    message on [estimatedGrams]; it is not coerced. *)
Theorem C1_shape_validation_fails_closed
    (w : Analyze.world) (url key : jsstring) (r : fetchResponse)
    (bytes : list Byte.byte) (text : jsstring) :
  Replied w url key r bytes text ->
  (forall v, JSON_parse (extractJson text) = Some v ->
     isAnalysisResult v = false ->
     exists what,
       Analyze.POST w =
         (inr (invalid what),
          [Fetch url; GenerateContent (requestFor key bytes url)])
       /\ status (invalid what) = 500
       /\ body (invalid what)
          = errorBody (str "Invalid response structure: " ++ str what)
       /\ get (body (invalid what)) (str "items") = None)
  /\ (text = stringGramsReply ->
      Analyze.POST w =
        (inr (invalid "'estimatedGrams' must be a number >= 0 or null"),
         [Fetch url; GenerateContent (requestFor key bytes url)])).
Proof.
  intro HR. split.
  - intros v Hp Hs.
    destruct (nonAnalysisResult_refused v (JSON_parse_noNaN _ _ Hp) Hs)
      as [what Hw].
    exists what. rewrite (POST_replied w url key r bytes text v HR Hp), Hw.
    repeat split; reflexivity.
  - intros ->.
    now rewrite (POST_replied w url key r bytes stringGramsReply
      (JObject [(str "items",
         JArray [JObject [(str "name", JString (str "apple"));
                          (str "estimatedGrams", JString (str "150"))]])])
      HR eq_refl).
Qed.

Lemma replying_Replied (reply : jsstring) :
  Replied (replying reply) pngUrl (str "secret") fetched
    [Byte.x89; Byte.x50; Byte.x4e; Byte.x47] reply.
Proof.
  unfold Replied. split.
  - eexists. split; reflexivity.
  - repeat split; try reflexivity; discriminate.
Defined.

Lemma C1_witness :
  (exists what,
     Analyze.POST (replying stringGramsReply) =
       (inr (invalid what),
        [Fetch pngUrl;
         GenerateContent
           (requestFor (str "secret") [Byte.x89; Byte.x50; Byte.x4e; Byte.x47]
              pngUrl)])
     /\ status (invalid what) = 500
     /\ body (invalid what)
        = errorBody (str "Invalid response structure: " ++ str what)
     /\ get (body (invalid what)) (str "items") = None)
  /\ Analyze.POST (replying stringGramsReply) =
       (inr (invalid "'estimatedGrams' must be a number >= 0 or null"),
        [Fetch pngUrl;
         GenerateContent
           (requestFor (str "secret") [Byte.x89; Byte.x50; Byte.x4e; Byte.x47]
              pngUrl)]).
Proof.
  split.
  - exact (proj1 (C1_shape_validation_fails_closed _ _ _ _ _ _
                    (replying_Replied stringGramsReply))
             (JObject [(str "items",
                JArray [JObject [(str "name", JString (str "apple"));
                                 (str "estimatedGrams", JString (str "150"))]])])
             eq_refl eq_refl).
  - exact (proj2 (C1_shape_validation_fails_closed _ _ _ _ _ _
                    (replying_Replied stringGramsReply)) eq_refl).
Defined.

(** ** Analyze: fence extraction *)

(** C2. The extraction step trims the reply; if the trimmed text starts
    with a fence it drops the first line, drops the last remaining line if
    and only if that line, trimmed, is a bare fence, rejoins and trims
    again: it computes [stripFence], which says so with the white space,
    the lines and the comparisons of the specification.  The fenced example
    reply extracts to exactly the JSON text inside it, also with white
    space around the block and around the text inside; a text without a
    fence is trimmed and nothing else; a last line that is not a bare fence
    stays.  The handler answers a reply that extracts to the example's text
    with status 200 and the parsed object as body. *)
Theorem C2_fence_extraction :
  (forall text, extractJson text = stripFence text)
  /\ extractJson fencedReply = appleJson
  /\ extractJson paddedReply = appleJson
  /\ extractJson ([32; 10] ++ appleJson ++ [10; 9]) = appleJson
  /\ extractJson (fence ++ quoted "|[]|" ++ fence ++ quoted "|Enjoy!")
     = quoted "[]|" ++ fence ++ quoted "|Enjoy!"
  /\ extractJson (fence ++ quoted "json| []|  " ++ fence ++ quoted " |") = str "[]"
  /\ JSON_parse appleJson = Some appleResult
  /\ (forall w url key r bytes text,
        Replied w url key r bytes text ->
        extractJson text = appleJson ->
        Analyze.POST w =
          (inr (json appleResult 200),
           [Fetch url; GenerateContent (requestFor key bytes url)])
        /\ status (json appleResult 200) = 200
        /\ body (json appleResult 200) = appleResult).
Proof.
  split; [exact extractJson_stripFence|].
  do 6 (split; [vm_compute; reflexivity|]).
  intros w url key r bytes text HR He.
  split; [|split; reflexivity].
  apply (POST_replied w url key r bytes text appleResult HR).
  now rewrite He.
Qed.

Lemma C2_witness :
  Analyze.POST (replying paddedReply) =
    (inr (json appleResult 200),
     [Fetch pngUrl;
      GenerateContent
        (requestFor (str "secret") [Byte.x89; Byte.x50; Byte.x4e; Byte.x47]
           pngUrl)]).
Proof.
  exact (proj1 (proj2 (proj2 (proj2 (proj2 (proj2 (proj2 (proj2
           C2_fence_extraction)))))) _ _ _ _ _ _
           (replying_Replied paddedReply) eq_refl)).
Defined.

(** ** Upload: stored file names *)

(** C3, as stated, fails in three ways.  A random number that prints with
    fewer than seven fraction digits (0.5 prints as [0.i]) gives a shorter
    token; a name without a dot gets its whole lower-cased self as
    extension; a slash after the last dot keeps the extension in the base
    segment. *)
Lemma C3_counterexample :
  ~ storedAsSpecified 1700000000123 [18%nat] (str "photo.png")
  /\ ~ storedAsSpecified 1700000000123
         [4; 15; 35; 34; 24; 8; 2; 22; 31; 34; 27]%nat (str "photo")
  /\ ~ storedAsSpecified 1700000000123
         [4; 15; 35; 34; 24; 8; 2; 22; 31; 34; 27]%nat (str "a.b/c").
Proof.
  repeat split; intros [token [L E]];
    apply (f_equal (@length N)) in E; unfold storedName in E;
    rewrite !length_app, L in E; vm_compute in E; discriminate.
Qed.

(** C3, amended.  For every original filename that contains a dot and has
    no slash after its last dot, the stored filename is the original name
    with its extension stripped, lower-cased, every run of characters
    outside [a-z0-9] replaced by one hyphen, outer hyphens trimmed, followed
    by [-<timestamp>-<token>.<extension lower-cased>], where the token is
    made of the first seven base-36 fraction digits of the random number, or
    of all of them when it prints with fewer.  Lower-casing is that of
    [toLowerCase]; on a Basic Latin name it turns each capital into its
    small letter.  The name "My Lunch Photo!! .PNG" yields the base segment
    "my-lunch-photo" and the extension "png"; "a  b!!c.d.Png" yields
    "a-b-c-d" and "png"; "menu.JPEG" with an acute accent on its first E
    yields "menu" and "jpeg" with the accent kept.  At the timestamp
    1700000000123 and the random number 0.4fzyo82mvyr the first of these
    names is stored as [my-lunch-photo-1700000000123-4fzyo82.png], and at
    the random number 0.i as [my-lunch-photo-1700000000123-i.png]. *)
Theorem C3_stored_name_amended :
  (forall timestamp digits name,
     hasDot name = true -> noSlash (extension name) = true ->
     generateSafeFilename timestamp (randomToString36 digits) name
     = storedName timestamp (map digit36 (firstn 7 digits)) name
     /\ length (map digit36 (firstn 7 digits)) = Nat.min 7 (length digits)
     /\ forallb isLetterOrDigit (map digit36 (firstn 7 digits)) = true)
  /\ (forall name,
        isBasicLatin name = true ->
        baseSegment name = slug (map small (stripExtension name))
        /\ toLowerCase (extension name) = map small (extension name))
  /\ baseSegment (str "My Lunch Photo!! .PNG") = str "my-lunch-photo"
  /\ toLowerCase (extension (str "My Lunch Photo!! .PNG")) = str "png"
  /\ (forall timestamp digits,
        generateSafeFilename timestamp (randomToString36 digits)
          (str "My Lunch Photo!! .PNG")
        = str "my-lunch-photo" ++ str "-" ++ decimal timestamp ++ str "-"
            ++ map digit36 (firstn 7 digits) ++ str "." ++ str "png")
  /\ (forall timestamp digits,
        generateSafeFilename timestamp (randomToString36 digits)
          (str "a  b!!c.d.Png")
        = str "a-b-c-d" ++ str "-" ++ decimal timestamp ++ str "-"
            ++ map digit36 (firstn 7 digits) ++ str "." ++ str "png")
  /\ (forall timestamp digits,
        generateSafeFilename timestamp (randomToString36 digits)
          (str "menu.JP" ++ [0xC9] ++ str "G")
        = str "menu" ++ str "-" ++ decimal timestamp ++ str "-"
            ++ map digit36 (firstn 7 digits) ++ str "."
            ++ str "jp" ++ [0xE9] ++ str "g")
  /\ generateSafeFilename 1700000000123
       (randomToString36 [4; 15; 35; 34; 24; 8; 2; 22; 31; 34; 27]%nat)
       (str "My Lunch Photo!! .PNG")
     = str "my-lunch-photo-1700000000123-4fzyo82.png"
  /\ generateSafeFilename 1700000000123 (randomToString36 [18]%nat)
       (str "My Lunch Photo!! .PNG")
     = str "my-lunch-photo-1700000000123-i.png".
Proof.
  assert (G : forall timestamp digits name,
     hasDot name = true -> noSlash (extension name) = true ->
     generateSafeFilename timestamp (randomToString36 digits) name
     = storedName timestamp (map digit36 (firstn 7 digits)) name).
  { intros timestamp digits name Hd Hs.
    rewrite (generateSafeFilename_storedName _ _ _ Hd Hs).
    now rewrite token_digits. }
  split; [|split; [|split; [vm_compute; reflexivity
                           |split; [vm_compute; reflexivity|]]]].
  - intros timestamp digits name Hd Hs. split; [now apply G|]. split.
    + rewrite length_map. apply length_firstn.
    + apply forallb_forall. intros c H.
      apply in_map_iff in H as [d [<- _]].
      rewrite isLetterOrDigit_alnum. apply digit36_alnum.
  - intros name H. unfold baseSegment, extension, stripExtension.
    destruct (atLastDot name) as [[stem ext]|] eqn:E.
    + destruct (atLastDot_parts _ _ _ E) as [-> _].
      unfold isBasicLatin in H. rewrite forallb_app in H.
      apply andb_true_iff in H as [H1 H2]. cbn [forallb] in H2.
      apply andb_true_iff in H2 as [_ H2].
      now rewrite !toLowerCase_basicLatin.
    + now rewrite toLowerCase_basicLatin.
  - split; [|split; [|split; [|split; vm_compute; reflexivity]]];
      intros timestamp digits;
      unfold generateSafeFilename; rewrite token_digits; reflexivity.
Qed.

Lemma C3_witness :
  generateSafeFilename 1700000000123
    (randomToString36 [4; 15; 35; 34; 24; 8; 2; 22; 31; 34; 27]%nat)
    (str "a  b!!c.d.Png")
  = str "a-b-c-d-1700000000123-4fzyo82.png".
Proof.
  exact (proj1 (proj1 C3_stored_name_amended 1700000000123%Z
                  [4; 15; 35; 34; 24; 8; 2; 22; 31; 34; 27]%nat
                  (str "a  b!!c.d.Png") eq_refl eq_refl)).
Defined.

(** C9. A name without a dot is its own extension: the stored filename is
    the sanitized base (the words of the lower-cased name, joined by
    hyphens), the timestamp and the token, followed by a dot and the whole
    lower-cased original name, where lower-casing is that of [toLowerCase]
    and turns each capital of a Basic Latin name into its small letter.  A
    file named "photo" is stored as [photo-<timestamp>-<token>.photo], one
    named "IMG 0042" as [img-0042-<timestamp>-<token>.img 0042], and one
    named "--Lunch & Dinner!" with the base [lunch-dinner]. *)
Theorem C9_name_without_dot :
  (forall timestamp random36 name,
     hasDot name = false ->
     generateSafeFilename timestamp random36 name
     = slug (toLowerCase name) ++ str "-" ++ decimal timestamp ++ str "-"
         ++ substring 2 9 random36 ++ str "." ++ toLowerCase name)
  /\ (forall timestamp random36 name,
        hasDot name = false -> isBasicLatin name = true ->
        generateSafeFilename timestamp random36 name
        = slug (map small name) ++ str "-" ++ decimal timestamp ++ str "-"
            ++ substring 2 9 random36 ++ str "." ++ map small name)
  /\ (forall timestamp random36,
        generateSafeFilename timestamp random36 (str "photo")
        = str "photo" ++ str "-" ++ decimal timestamp ++ str "-"
            ++ substring 2 9 random36 ++ str "." ++ str "photo")
  /\ (forall timestamp random36,
        generateSafeFilename timestamp random36 (str "IMG 0042")
        = str "img-0042" ++ str "-" ++ decimal timestamp ++ str "-"
            ++ substring 2 9 random36 ++ str "." ++ str "img 0042")
  /\ (forall timestamp random36,
        generateSafeFilename timestamp random36 (str "--Lunch & Dinner!")
        = str "lunch-dinner" ++ str "-" ++ decimal timestamp ++ str "-"
            ++ substring 2 9 random36 ++ str "." ++ str "--lunch & dinner!")
  /\ (forall timestamp random36,
        generateSafeFilename timestamp random36
          ([0xC9] ++ str "T" ++ [0xC9] ++ str " 1")
        = str "t-1" ++ str "-" ++ decimal timestamp ++ str "-"
            ++ substring 2 9 random36 ++ str "."
            ++ [0xE9] ++ str "t" ++ [0xE9] ++ str " 1")
  /\ generateSafeFilename 1700000000123 (str "0.4fzyo82mvyr") (str "photo")
     = str "photo-1700000000123-4fzyo82.photo".
Proof.
  assert (G : forall timestamp random36 name,
     hasDot name = false ->
     generateSafeFilename timestamp random36 name
     = slug (toLowerCase name) ++ str "-" ++ decimal timestamp ++ str "-"
         ++ substring 2 9 random36 ++ str "." ++ toLowerCase name).
  { intros timestamp random36 name H.
    rewrite (generateSafeFilename_noDot _ _ _ H).
    now rewrite slug_hyphenate. }
  split; [exact G|]. split.
  - intros timestamp random36 name H B.
    now rewrite (G _ _ _ H), (toLowerCase_basicLatin name B).
  - split; [|split; [|split; [|split; [|vm_compute; reflexivity]]]];
      intros timestamp random36;
      unfold generateSafeFilename; reflexivity.
Qed.

Lemma C9_witness :
  generateSafeFilename 1700000000123 (str "0.4fzyo82mvyr") (str "IMG 0042")
  = str "img-0042-1700000000123-4fzyo82.img 0042".
Proof.
  exact (proj1 C9_name_without_dot 1700000000123%Z (str "0.4fzyo82mvyr")
           (str "IMG 0042") eq_refl).
Defined.

(** ** Upload: the handler *)

(** C4, as stated, fails on a server whose upload directory does not exist
    yet: the directory is created before the type is looked at, so a PDF
    upload is answered 400 after a [mkdir], and is answered 500 when that
    [mkdir] fails. *)
Lemma C4_counterexample :
  includes ALLOWED_TYPES (Some (str "application/pdf")) = false
  /\ Upload.POST (uploading false None (str "menu.pdf") (str "application/pdf"))
     = (inr invalidType,
        [ExistsSync [str "/srv/app"; str "public"; str "uploads"];
         Mkdir [str "/srv/app"; str "public"; str "uploads"]])
  /\ ~ refusedWithoutWrite
         (uploading false None (str "menu.pdf") (str "application/pdf"))
  /\ ~ refusedWithoutWrite
         (uploading false (Some (JsError (str "EACCES: permission denied")))
            (str "menu.pdf") (str "application/pdf")).
Proof.
  split; [reflexivity|]. split; [reflexivity|]. split.
  - intros [_ H]. vm_compute in H. discriminate.
  - intros [[msg H] _]. vm_compute in H. discriminate.
Qed.

(** C4, amended.  For every upload request whose file has a declared
    content type outside the allow-list, the handler never writes a file.
    It first makes sure the upload directory exists, creating it when it is
    absent, and then answers 400 with the explanatory error; when creating
    the directory fails it answers 500 instead. *)
Theorem C4_disallowed_type_amended
    (w : Upload.world) (name type : jsstring) (bytes : list Byte.byte) :
  formData w = inr (Some (EntryFile name type bytes)) ->
  includes ALLOWED_TYPES (Some type) = false ->
  existsb isWriteFile (snd (Upload.POST w)) = false
  /\ (existsSync w = true ->
      Upload.POST w = (inr invalidType, [ExistsSync (UPLOAD_DIR w)]))
  /\ (existsSync w = false -> mkdir w = None ->
      Upload.POST w =
        (inr invalidType, [ExistsSync (UPLOAD_DIR w); Mkdir (UPLOAD_DIR w)]))
  /\ (forall e, existsSync w = false -> mkdir w = Some e ->
      Upload.POST w =
        (inr (json (errorBody (str "Failed to upload file")) 500),
         [ExistsSync (UPLOAD_DIR w); Mkdir (UPLOAD_DIR w);
          Upload.ConsoleError (str "Upload error:")])).
Proof.
  intros Hf Ht.
  assert (A : existsSync w = true ->
              Upload.POST w = (inr invalidType, [ExistsSync (UPLOAD_DIR w)])).
  { intro H. rewrite (POST_type_refused w name type bytes Hf Ht (or_introl H)).
    unfold ensured. now rewrite H. }
  assert (B : existsSync w = false -> mkdir w = None ->
              Upload.POST w =
                (inr invalidType,
                 [ExistsSync (UPLOAD_DIR w); Mkdir (UPLOAD_DIR w)])).
  { intros H H'.
    rewrite (POST_type_refused w name type bytes Hf Ht (or_intror H')).
    unfold ensured. now rewrite H. }
  split; [|split; [exact A|split; [exact B|]]].
  - destruct (existsSync w) eqn:E.
    + now rewrite (A eq_refl).
    + destruct (mkdir w) as [e|] eqn:M.
      * now rewrite (POST_mkdir_fails w e E M).
      * now rewrite (B eq_refl eq_refl).
  - intros e H H'. exact (POST_mkdir_fails w e H H').
Qed.

Lemma C4_witness :
  Upload.POST (uploading true None (str "menu.pdf") (str "application/pdf"))
  = (inr invalidType,
     [ExistsSync [str "/srv/app"; str "public"; str "uploads"]]).
Proof.
  exact (proj1 (proj2 (C4_disallowed_type_amended
    (uploading true None (str "menu.pdf") (str "application/pdf"))
    (str "menu.pdf") (str "application/pdf") [Byte.x25; Byte.x50]
    eq_refl eq_refl)) eq_refl).
Defined.

(** C5 holds for every file whose name has a dot, and misses for the
    others.  For every upload request whose file has a declared content
    type of the allow-list and whose disk operations succeed, the handler
    answers 200 with a body whose [imageUrl] and [url] both are
    [/uploads/<generated filename>], after writing the file's bytes under
    that name.  When the name has a dot the URL matches
    [/uploads/[a-z0-9-]+\.<ext>] from its first to its last character, for
    the lower-cased extension of the name.  A name without a dot has no
    extension, yet the URL does not end at its dot: the whole lower-cased
    name follows it, so the URL does not match the pattern. *)
Theorem C5_upload_url_pattern
    (w : Upload.world) (name type : jsstring) (bytes : list Byte.byte) :
  formData w = inr (Some (EntryFile name type bytes)) ->
  includes ALLOWED_TYPES (Some type) = true ->
  (existsSync w = true \/ mkdir w = None) ->
  writeFile w = None ->
  let safeFilename :=
    generateSafeFilename (now w) (randomToString36 (randomDigits w)) name in
  let imageUrl := str "/uploads/" ++ safeFilename in
  let answer := json (JObject [(str "imageUrl", JString imageUrl);
                               (str "url", JString imageUrl)]) 200 in
  Upload.POST w
  = (inr answer, ensured w ++ [WriteFile (UPLOAD_DIR w ++ [safeFilename]) bytes])
  /\ status answer = 200
  /\ body answer = JObject [(str "imageUrl", JString imageUrl);
                            (str "url", JString imageUrl)]
  /\ (hasDot name = true ->
      matchesPattern imageUrl (toLowerCase (extension name)))
  /\ (hasDot name = false -> name <> [] ->
      extension name = []
      /\ ~ matchesPattern imageUrl (toLowerCase (extension name))
      /\ exists x,
           x <> []
           /\ forallb (fun c => isLetterOrDigit c || (c =? 45)) x = true
           /\ imageUrl = str "/uploads/" ++ x ++ str "." ++ toLowerCase name).
Proof.
  intros Hf Ht Hd Hw safeFilename imageUrl answer.
  split; [exact (POST_stored w name type bytes Hf Ht Hd Hw)|].
  split; [reflexivity|]. split; [reflexivity|].
  assert (P : forallb (fun c => isLetterOrDigit c || (c =? 45))
                (front (now w) (randomDigits w) name) = true).
  { rewrite <- (front_pattern (now w) (randomDigits w) name).
    induction (front (now w) (randomDigits w) name) as [|c x IH];
      [reflexivity|].
    cbn [forallb]. unfold isPatternChar at 1.
    now rewrite isLetterOrDigit_alnum, IH. }
  assert (E : imageUrl
              = str "/uploads/" ++ front (now w) (randomDigits w) name
                  ++ str "." ++ toLowerCase (last (split 46 name) [])).
  { subst imageUrl safeFilename. now rewrite generated_front. }
  split.
  - intro D. exists (front (now w) (randomDigits w) name).
    split; [apply front_nonempty|]. split; [exact P|].
    rewrite E, pop_split. unfold extension.
    destruct (atLastDot name) as [[st e]|] eqn:A; [reflexivity|].
    apply atLastDot_noDot in A. congruence.
  - intros D Ne. pose proof D as A. apply atLastDot_noDot in A.
    assert (X : extension name = []) by (unfold extension; now rewrite A).
    rewrite pop_split, A in E.
    split; [exact X|]. split.
    + rewrite X. change (toLowerCase []) with (@nil N).
      intros [x [_ [_ Q]]]. rewrite E in Q.
      apply app_inv_head in Q. apply (f_equal (@rev N)) in Q.
      rewrite !rev_app_distr in Q. cbn [rev app str] in Q.
      pose proof (toLowerCase_nonempty name Ne) as Nl.
      pose proof (hasDot_toLowerCase name) as Dl. rewrite D in Dl.
      rewrite <- hasDot_rev in Dl.
      destruct (rev (toLowerCase name)) as [|c k] eqn:R.
      * apply (f_equal (@rev N)) in R. rewrite rev_involutive in R.
        contradiction.
      * cbn in Q. injection Q as Q _. subst c. discriminate.
    + exists (front (now w) (randomDigits w) name).
      split; [apply front_nonempty|]. split; [exact P|exact E].
Qed.

(** A file named "IMG 0042" is served under a URL that repeats its name
    after the dot. *)
Lemma C5_witness :
  Upload.POST (uploading false None (str "IMG 0042") (str "image/png"))
  = (inr (json (JObject
       [(str "imageUrl",
         JString (str "/uploads/img-0042-1700000000123-4fzyo82.img 0042"));
        (str "url",
         JString (str "/uploads/img-0042-1700000000123-4fzyo82.img 0042"))])
       200),
     [ExistsSync [str "/srv/app"; str "public"; str "uploads"];
      Mkdir [str "/srv/app"; str "public"; str "uploads"];
      WriteFile [str "/srv/app"; str "public"; str "uploads";
                 str "img-0042-1700000000123-4fzyo82.img 0042"]
        [Byte.x25; Byte.x50]])
  /\ ~ matchesPattern
         (str "/uploads/img-0042-1700000000123-4fzyo82.img 0042") [].
Proof.
  pose (H := C5_upload_url_pattern
    (uploading false None (str "IMG 0042") (str "image/png"))
    (str "IMG 0042") (str "image/png") [Byte.x25; Byte.x50]
    eq_refl eq_refl (or_intror eq_refl) eq_refl).
  split; [exact (proj1 H)|].
  refine (proj1 (proj2 (proj2 (proj2 (proj2 (proj2 H))) eq_refl _))).
  discriminate.
Defined.

(** ** Analyze: the checks before the fetch *)

(** C6 holds for every body but [null]: a request whose JSON body is [null]
    has no [imageUrl], yet destructuring it throws, and the outer [catch]
    answers 500 with the message of the TypeError instead of the 400 that
    asks for [imageUrl]. *)
Theorem C6_null_body_answers_500
    (key : option jsstring) (f : jsstring -> exn + fetchResponse)
    (g : modelRequest -> exn + jsstring) :
  missingOrBlank (get JNull (str "imageUrl")) = true
  /\ Analyze.POST {| requestJson := inr JNull; GEMINI_API_KEY := key;
                     fetch := f; generateContent := g |}
     = (inr (json (errorBody (str
          "Cannot destructure property 'imageUrl' of 'body' as it is null."))
          500),
        [Analyze.ConsoleError (str "Analyze error:")]).
Proof. split; [reflexivity|]. now apply POST_null_body. Qed.

(** C7. With a non-blank string [imageUrl] and no credential in the
    environment the handler answers 500 with the message that
    GEMINI_API_KEY is not set, and has fetched nothing; with an [imageUrl]
    that is missing, not a string or blank it answers the 400 of the
    validation even though the credential is absent: the credential check
    comes after the validation and before the fetch. *)
Theorem C7_missing_credential (w : Analyze.world) (body : value) :
  requestJson w = inr body -> GEMINI_API_KEY w = None ->
  (forall url,
     get body (str "imageUrl") = Some (JString url) -> trim url <> [] ->
     Analyze.POST w =
       (inr (json (errorBody
          (str "GEMINI_API_KEY environment variable is not set")) 500), [])
     /\ mentions (str "GEMINI_API_KEY environment variable is not set")
          (str "GEMINI_API_KEY") = true
     /\ mentions (str "GEMINI_API_KEY environment variable is not set")
          (str "not set") = true)
  /\ (body <> JNull ->
      missingOrBlank (get body (str "imageUrl")) = true ->
      Analyze.POST w =
        (inr (json (errorBody
           (str "imageUrl is required and must be a non-empty string")) 400),
         [])).
Proof.
  intros Hb Hk. split.
  - intros url Hg Ht. split; [|split; reflexivity].
    rewrite (POST_validated w body url Hb Hg Ht), Hk. reflexivity.
  - intros Hn Hm. exact (POST_requires_imageUrl w body Hb Hn Hm).
Qed.

Lemma C7_witness :
  Analyze.POST withoutKey =
    (inr (json (errorBody
       (str "GEMINI_API_KEY environment variable is not set")) 500), [])
  /\ Analyze.POST blankUrl =
       (inr (json (errorBody
          (str "imageUrl is required and must be a non-empty string")) 400),
        []).
Proof.
  split.
  - refine (proj1 (proj1 (C7_missing_credential withoutKey _ eq_refl eq_refl)
                     pngUrl eq_refl _)).
    discriminate.
  - refine (proj2 (C7_missing_credential blankUrl _ eq_refl eq_refl) _ eq_refl).
    discriminate.
Defined.

(** C8. The MIME type sent to the model depends on the URL alone, by its
    ending up to letter case: [.png] gives image/png, [.webp] image/webp,
    [.gif] image/gif and anything else image/jpeg, where a URL ends with an
    ending up to case when what is left of it from some place on is the
    ending, letter by letter up to the case of Basic Latin letters.
    Whatever the fetch answered (status line, headers, bytes) and whatever
    the model replies, the one model request of the handler carries that
    type. *)
Theorem C8_mime_type_by_url_ending :
  (forall url, mimeTypeOf url = mimeTypeByEnding url)
  /\ (forall url ending,
        endsWithIgnoringCase url ending = true
        <-> exists before tail,
              url = before ++ tail /\ sameLetters tail ending = true)
  /\ mimeTypeOf (str "http://localhost:3000/uploads/apple-1-abc.PNG")
     = str "image/png"
  /\ mimeTypeOf (str "/uploads/salad.WebP") = str "image/webp"
  /\ mimeTypeOf (str "/uploads/soup.gif") = str "image/gif"
  /\ mimeTypeOf (str "/uploads/rice.jpg") = str "image/jpeg"
  /\ mimeTypeOf (str "/uploads/rice.png?width=200") = str "image/jpeg"
  /\ mimeTypeOf (str "/uploads/png") = str "image/jpeg"
  /\ (forall w url key r bytes text,
        Replied w url key r bytes text ->
        exists request rest,
          snd (Analyze.POST w) = Fetch url :: GenerateContent request :: rest
          /\ existsb isOutbound rest = false
          /\ mimeType request = mimeTypeOf url
          /\ mimeTypeOf url = mimeTypeByEnding url).
Proof.
  split; [exact mimeTypeOf_byEnding|].
  split; [exact endsWithIgnoringCase_iff|].
  do 6 (split; [vm_compute; reflexivity|]).
  intros w url key r bytes text HR.
  rewrite (POST_replied_text w url key r bytes text HR).
  destruct (answerFor_trace text
              [Fetch url; GenerateContent (requestFor key bytes url)])
    as [rest [E O]].
  exists (requestFor key bytes url), rest. rewrite E.
  split; [reflexivity|]. split; [exact O|].
  split; [reflexivity|apply mimeTypeOf_byEnding].
Qed.

Lemma C8_witness :
  exists request rest,
    snd (Analyze.POST (replying appleJson))
    = Fetch pngUrl :: GenerateContent request :: rest
    /\ existsb isOutbound rest = false
    /\ mimeType request = str "image/png"
    /\ str "image/png" = mimeTypeByEnding pngUrl.
Proof.
  exact (proj2 (proj2 (proj2 (proj2 (proj2 (proj2 (proj2 (proj2
           C8_mime_type_by_url_ending)))))))
           (replying appleJson) pngUrl
           (str "secret") fetched [Byte.x89; Byte.x50; Byte.x4e; Byte.x47]
           appleJson (replying_Replied appleJson)).
Defined.

(** ** Analyze: what validation leaves alone *)

(** C10, as stated, fails on a reply whose additional properties hold a
    number that JSON cannot write: the reply is valid and answered 200,
    but in the body the number that overflowed to an infinity is [null] and
    the negative zero is [0], so the parsed object is not in the body as it
    was parsed. *)
Lemma C10_counterexample :
  JSON_parse (extractJson overflowReply) = Some overflowResult
  /\ isAnalysisResult overflowResult = true
  /\ fst (Analyze.POST (replying overflowReply))
     = inr {| status := 200; body := overflowBody |}
  /\ overflowBody <> overflowResult
  /\ ~ includedVerbatim (replying overflowReply) overflowResult.
Proof.
  split; [vm_compute; reflexivity|]. split; [reflexivity|].
  split; [vm_compute; reflexivity|]. split; [discriminate|].
  intros [r [E [_ B]]].
  assert (F : fst (Analyze.POST (replying overflowReply))
              = inr {| status := 200; body := overflowBody |})
    by (vm_compute; reflexivity).
  rewrite F in E. injection E as <-. discriminate.
Qed.

(** C10, amended.  Validation looks at [items] and, in each element, at
    [name] and [estimatedGrams] only: a parsed reply that is an object with
    a valid [items] array is answered 200 whatever else the object or its
    items carry, and setting any other property on the object or on an item
    keeps it valid.  The body is the parsed object as JSON writes it: every
    property is there under its key, the elements of every array are there
    in order, and every string, boolean, [null] and finite number other
    than negative zero is there as parsed, while a number that overflowed
    to an infinity is written [null] and a negative zero [0].  A reply
    without such numbers is in the body verbatim, its properties in the
    order in which [JSON.parse] lists them: the keys that spell an array
    index first, then the others as in the reply. *)
Theorem C10_additional_properties_amended :
  (forall w url key r bytes text v,
     Replied w url key r bytes text ->
     JSON_parse (extractJson text) = Some v ->
     isAnalysisResult v = true ->
     Analyze.POST w =
       (inr (json v 200),
        [Fetch url; GenerateContent (requestFor key bytes url)])
     /\ status (json v 200) = 200
     /\ body (json v 200) = serialized v
     /\ (writtenAsIs v = true -> includedVerbatim w v))
  /\ (forall v, writtenAsIs v = true -> serialized v = v)
  /\ (forall props k,
        get (serialized (JObject props)) k
        = option_map serialized (lookup k props))
  /\ (forall xs, serialized (JArray xs) = JArray (map serialized xs))
  /\ (forall s, serialized (JString s) = JString s)
  /\ (forall s, serialized (JNumber (S754_infinity s)) = JNull)
  /\ (forall s, serialized (JNumber (S754_zero s)) = JNumber (S754_zero false))
  /\ (forall props k x,
        eqb k (str "items") = false ->
        isAnalysisResult (JObject props) = true ->
        isAnalysisResult (JObject (setProp k x props)) = true)
  /\ (forall props k x,
        eqb k (str "name") = false -> eqb k (str "estimatedGrams") = false ->
        isFoodItem (JObject props) = true ->
        isFoodItem (JObject (setProp k x props)) = true)
  /\ JSON_parse (extractJson extrasReply) = Some extrasResult
  /\ isAnalysisResult extrasResult = true
  /\ writtenAsIs extrasResult = true
  /\ option_map serialized
       (JSON_parse (quoted "{'b':'x','2':true,'items':[],'1':null}"))
     = Some (JObject [(str "1", JNull); (str "2", JBool true);
                      (str "b", JString (str "x")); (str "items", JArray [])]).
Proof.
  split; [|split; [exact serialized_writtenAsIs|split; [exact get_serialized|]]].
  - intros w url key r bytes text v HR Hp Hs.
    assert (E : Analyze.POST w =
                  (inr (json v 200),
                   [Fetch url; GenerateContent (requestFor key bytes url)])).
    { rewrite (POST_replied w url key r bytes text v HR Hp).
      now rewrite (analysisResult_accepted v Hs). }
    split; [exact E|]. split; [reflexivity|]. split; [reflexivity|].
    intro W. exists (json v 200). rewrite E.
    split; [reflexivity|]. split; [reflexivity|].
    cbn [body json]. now apply serialized_writtenAsIs.
  - split; [reflexivity|]. split; [reflexivity|]. split; [reflexivity|].
    split; [reflexivity|].
    split; [|split; [|repeat split; vm_compute; reflexivity]].
    + intros props k x Hk. unfold isAnalysisResult.
      now rewrite (lookup_setProp_other k (str "items") x props Hk).
    + intros props k x Hn Hg. unfold isFoodItem.
      now rewrite (lookup_setProp_other k (str "name") x props Hn),
                  (lookup_setProp_other k (str "estimatedGrams") x props Hg).
Qed.

Lemma C10_witness :
  Analyze.POST (replying extrasReply) =
    (inr (json extrasResult 200),
     [Fetch pngUrl;
      GenerateContent
        (requestFor (str "secret") [Byte.x89; Byte.x50; Byte.x4e; Byte.x47]
           pngUrl)])
  /\ body (json extrasResult 200) = extrasResult.
Proof.
  pose (H := proj1 C10_additional_properties_amended (replying extrasReply)
           pngUrl (str "secret") fetched [Byte.x89; Byte.x50; Byte.x4e; Byte.x47]
           extrasReply extrasResult (replying_Replied extrasReply)
           eq_refl eq_refl).
  split; [exact (proj1 H)|]. exact (proj1 (proj2 (proj2 H))).
Defined.

End Claims.


(** * Further properties of the handlers *)

(** ** Stored file names *)

Section StoredNames.
Import Upload.

Lemma pattern_noDot (x : jsstring) :
  forallb isPatternChar x = true -> hasDot x = false.
Proof.
  induction x as [|c r IH]; [reflexivity|].
  simpl. intro H. apply andb_true_iff in H as [H1 H2].
  rewrite (IH H2), orb_false_r.
  destruct (N.eqb_spec c 46); [subst; discriminate|reflexivity].
Qed.

(** What [split(".").pop()] returns never holds a dot. *)
Lemma pop_split_noDot (name : jsstring) :
  hasDot (last (split 46 name) []) = false.
Proof.
  rewrite pop_split. destruct (atLastDot name) as [[st e]|] eqn:E.
  - exact (proj2 (atLastDot_parts _ _ _ E)).
  - now apply atLastDot_noDot.
Qed.

Lemma countDots_app (a b : jsstring) :
  countDots (a ++ b) = (countDots a + countDots b)%nat.
Proof. unfold countDots. now rewrite filter_app, length_app. Qed.

Lemma countDots_noDot (s : jsstring) : hasDot s = false -> countDots s = 0%nat.
Proof.
  unfold countDots, hasDot. induction s as [|c r IH]; [reflexivity|].
  simpl. intro H. apply orb_false_iff in H as [-> H]. now apply IH.
Qed.

(** X4. Whatever the original name, the clock and the random number, the
    stored name is a non-empty run of [a-z0-9-], one dot, and an extension
    without a dot: it holds exactly one dot, does not begin with a dot, and
    is neither "." nor "..". *)
Theorem stored_name_has_one_dot
    (timestamp : Z) (digits : list nat) (name : jsstring) :
  let stored := generateSafeFilename timestamp (randomToString36 digits) name in
  (exists x ext,
     stored = x ++ 46 :: ext /\ x <> []
     /\ forallb isPatternChar x = true /\ hasDot ext = false)
  /\ countDots stored = 1%nat
  /\ startsWith stored [46] = false
  /\ stored <> str "." /\ stored <> str "..".
Proof.
  intro stored. subst stored. rewrite generated_front.
  pose proof (front_pattern timestamp digits name) as P.
  pose proof (front_nonempty timestamp digits name) as Ne.
  assert (D : hasDot (toLowerCase (last (split 46 name) [])) = false)
    by (rewrite hasDot_toLowerCase; apply pop_split_noDot).
  assert (C : countDots (front timestamp digits name
                         ++ 46 :: toLowerCase (last (split 46 name) [])) = 1%nat).
  { rewrite countDots_app, (countDots_noDot _ (pattern_noDot _ P)).
    change (46 :: ?l) with ([46] ++ l). rewrite countDots_app.
    now rewrite (countDots_noDot _ D). }
  split; [|split; [exact C|split; [|split]]].
  - exists (front timestamp digits name), (toLowerCase (last (split 46 name) [])).
    now repeat split.
  - destruct (front timestamp digits name) as [|c f]; [contradiction|].
    simpl in P. apply andb_true_iff in P as [P _].
    cbn [app startsWith].
    destruct (N.eqb_spec 46 c) as [<-|]; [discriminate|reflexivity].
  - intro E. destruct (front timestamp digits name) as [|c f]; [contradiction|].
    injection E as -> E. discriminate.
  - intro E. rewrite E in C. discriminate.
Qed.

(** X5. The stored name holds a slash exactly when the part of the original
    name after its last dot (the whole name when it has no dot) holds one;
    a name without a slash is stored under a name without a slash. *)
Theorem stored_name_slash
    (timestamp : Z) (digits : list nat) (name : jsstring) :
  noSlash (generateSafeFilename timestamp (randomToString36 digits) name)
  = noSlash (last (split 46 name) []).
Proof.
  rewrite generated_front. unfold noSlash at 1. rewrite forallb_app.
  fold (noSlash (front timestamp digits name)).
  rewrite (pattern_noSlash _ (front_pattern timestamp digits name)).
  simpl. apply noSlash_toLowerCase.
Qed.

(** *** Collisions *)

Lemma digitsOf_inj (u v : Decimal.uint) : digitsOf u = digitsOf v -> u = v.
Proof.
  revert v. induction u; destruct v; simpl; intro H;
    try discriminate; try reflexivity; injection H as H; f_equal; auto.
Qed.

Lemma digitsOf_noHyphen (u : Decimal.uint) :
  forallb (fun c => negb (c =? 45)) (digitsOf u) = true.
Proof. induction u; simpl; auto. Qed.

Lemma decimal_inj (a b : Z) : decimal a = decimal b -> a = b.
Proof.
  unfold decimal. intro H. apply DecimalZ.to_int_inj.
  destruct (Z.to_int a) as [u|u], (Z.to_int b) as [v|v].
  - f_equal. now apply digitsOf_inj.
  - pose proof (digitsOf_noHyphen u) as N. rewrite H in N. discriminate.
  - pose proof (digitsOf_noHyphen v) as N. rewrite <- H in N. discriminate.
  - injection H as H. f_equal. now apply digitsOf_inj.
Qed.

(** Two texts that end with a hyphen and a hyphen-free tail are equal only
    part by part. *)
Lemma split_at_last_hyphen (a b t1 t2 : jsstring) :
  forallb (fun c => negb (c =? 45)) t1 = true ->
  forallb (fun c => negb (c =? 45)) t2 = true ->
  a ++ 45 :: t1 = b ++ 45 :: t2 -> a = b /\ t1 = t2.
Proof.
  intros H1 H2 E.
  assert (R : rev t1 ++ 45 :: rev a = rev t2 ++ 45 :: rev b).
  { apply (f_equal (@rev N)) in E. rewrite !rev_app_distr in E. simpl in E.
    now rewrite <- !app_assoc in E. }
  assert (G : forall x y p q,
    forallb (fun c => negb (c =? 45)) x = true ->
    forallb (fun c => negb (c =? 45)) y = true ->
    x ++ 45 :: p = y ++ 45 :: q -> x = y /\ p = q).
  { induction x as [|c x IH]; intros [|d y] p q Hx Hy Q; simpl in *.
    - injection Q as ->. now split.
    - injection Q as <- _. discriminate.
    - injection Q as -> _. discriminate.
    - apply andb_true_iff in Hx as [_ Hx]. apply andb_true_iff in Hy as [_ Hy].
      injection Q as -> Q. destruct (IH y p q Hx Hy Q) as [-> ->]. now split. }
  assert (F : forall l, forallb (fun c => negb (c =? 45)) l = true ->
                        forallb (fun c => negb (c =? 45)) (rev l) = true)
    by (intros l Hl; now rewrite forallb_rev).
  destruct (G _ _ _ _ (F _ H1) (F _ H2) R) as [Rt Ra].
  apply (f_equal (@rev N)) in Rt, Ra. rewrite !rev_involutive in Rt, Ra.
  now split.
Qed.

Lemma token_noHyphen (digits : list nat) :
  forallb (fun c => negb (c =? 45))
    (substring 2 9 (randomToString36 digits)) = true.
Proof.
  rewrite token_digits. apply forallb_forall. intros c H.
  apply in_map_iff in H as [d [<- _]].
  pose proof (digit36_alnum d) as A. unfold isLowerAlnum in A.
  destruct (N.eqb_spec (digit36 d) 45) as [E|]; [|reflexivity].
  rewrite E in A. discriminate.
Qed.

(** X6. Two uploads of files with the same name are stored under the same
    name exactly when they happen in the same millisecond and draw the same
    token: different timestamps or different tokens never collide. *)
Theorem stored_name_collision
    (name : jsstring) (t1 t2 : Z) (d1 d2 : list nat) :
  generateSafeFilename t1 (randomToString36 d1) name
  = generateSafeFilename t2 (randomToString36 d2) name
  <-> t1 = t2 /\ map digit36 (firstn 7 d1) = map digit36 (firstn 7 d2).
Proof.
  split.
  - unfold generateSafeFilename. intro E.
    apply app_inv_head in E. simpl in E. injection E as E.
    assert (A : forall a t e : jsstring, a ++ 45 :: t ++ e = (a ++ 45 :: t) ++ e)
      by (intros; now rewrite <- app_assoc).
    rewrite !A in E. apply app_inv_tail in E.
    destruct (split_at_last_hyphen _ _ _ _
                (token_noHyphen d1) (token_noHyphen d2) E) as [Ed Et].
    split; [now apply decimal_inj|]. now rewrite <- !token_digits.
  - intros [-> E]. unfold generateSafeFilename.
    now rewrite !token_digits, E.
Qed.

Lemma stored_name_collision_witness :
  generateSafeFilename 1700000000123
    (randomToString36 [4; 15; 35; 34; 24; 8; 2; 22]%nat) (str "a.png")
  = generateSafeFilename 1700000000123
      (randomToString36 [4; 15; 35; 34; 24; 8; 2; 9; 9]%nat) (str "a.png").
Proof.
  exact (proj2 (stored_name_collision (str "a.png") 1700000000123 1700000000123
                  [4; 15; 35; 34; 24; 8; 2; 22]%nat
                  [4; 15; 35; 34; 24; 8; 2; 9; 9]%nat)
           (conj eq_refl eq_refl)).
Defined.

(** *** The base segment *)

Lemma hasDoubleHyphen_cons (a : N) (s : jsstring) :
  hasDoubleHyphen (a :: s)
  = ((a =? 45) && startsWith s [45]) || hasDoubleHyphen s.
Proof.
  rewrite startsWith_hyphen. destruct s as [|b r]; simpl.
  - now rewrite andb_false_r.
  - reflexivity.
Qed.

Lemma hyphenate_noDouble (s : jsstring) :
  forall b, hasDoubleHyphen (hyphenate b s) = false.
Proof.
  induction s as [|c r IH]; intro b; [reflexivity|].
  simpl. destruct (isLowerAlnum c) eqn:A.
  - rewrite hasDoubleHyphen_cons, (alnum_notHyphen c A). apply IH.
  - destruct b; [apply IH|].
    rewrite hasDoubleHyphen_cons, hyphenate_inRun_head. apply IH.
Qed.

Lemma hasDoubleHyphen_suffix (a b : jsstring) :
  hasDoubleHyphen (a ++ b) = false -> hasDoubleHyphen b = false.
Proof.
  induction a as [|c a IH]; [auto|].
  simpl app. rewrite hasDoubleHyphen_cons. intro H.
  apply orb_false_iff in H as [_ H]. now apply IH.
Qed.

Lemma hasDoubleHyphen_prefix (a b : jsstring) :
  hasDoubleHyphen (a ++ b) = false -> hasDoubleHyphen a = false.
Proof.
  induction a as [|c a IH]; [reflexivity|].
  simpl app. rewrite !hasDoubleHyphen_cons. intro H.
  apply orb_false_iff in H as [H1 H2]. rewrite (IH H2), orb_false_r.
  destruct a as [|d a]; [now rewrite andb_false_r|].
  rewrite startsWith_hyphen in *. exact H1.
Qed.

Lemma dropWhile_suffix (p : N -> bool) (s : jsstring) :
  exists h, s = h ++ dropWhile p s.
Proof.
  induction s as [|c r [h IH]]; [now exists []|].
  simpl. destruct (p c).
  - exists (c :: h). simpl. now f_equal.
  - now exists [].
Qed.

Lemma dropWhileEnd_prefix (p : N -> bool) (s : jsstring) :
  exists t, s = dropWhileEnd p s ++ t.
Proof.
  unfold dropWhileEnd. destruct (dropWhile_suffix p (rev s)) as [h E].
  exists (rev h). rewrite <- rev_app_distr, <- E. now rewrite rev_involutive.
Qed.

Lemma dropWhile_head (s : jsstring) :
  startsWith (dropWhile isHyphen s) [45] = false.
Proof.
  induction s as [|c r IH]; [reflexivity|].
  simpl. destruct (isHyphen c) eqn:H; [exact IH|].
  rewrite startsWith_hyphen. exact H.
Qed.

(** X7. The base segment made from any text is a tidy slug: only
    characters of [a-z0-9-], no hyphen at either end and no two hyphens in a
    row. *)
Theorem base_segment_is_slug (s : jsstring) :
  let base := trimHyphens (hyphenate false s) in
  forallb isPatternChar base = true
  /\ startsWith base [45] = false
  /\ endsWith base [45] = false
  /\ hasDoubleHyphen base = false.
Proof.
  intro base. subst base. unfold trimHyphens.
  set (z := dropWhile isHyphen (hyphenate false s)).
  split; [|split; [|split]].
  - apply dropWhileEnd_forallb, dropWhile_forallb, hyphenate_pattern.
  - pose proof (dropWhile_head (hyphenate false s)) as H. fold z in H.
    destruct (dropWhileEnd_prefix isHyphen z) as [t E].
    destruct (dropWhileEnd isHyphen z) as [|c r]; [reflexivity|].
    rewrite E in H. rewrite startsWith_hyphen in *. exact H.
  - unfold endsWith, dropWhileEnd. rewrite rev_involutive.
    apply dropWhile_head.
  - destruct (dropWhileEnd_prefix isHyphen z) as [t E].
    apply (hasDoubleHyphen_prefix _ t). rewrite <- E.
    destruct (dropWhile_suffix isHyphen (hyphenate false s)) as [h F].
    apply (hasDoubleHyphen_suffix h). fold z in F. rewrite <- F.
    apply hyphenate_noDouble.
Qed.

(** *** From the stored name to the MIME type *)

(** Whether a text ends with a dotted ending is settled after its last dot. *)
Lemma startsWith_upto_dot (e q tail : jsstring) :
  hasDot e = false -> hasDot q = false ->
  startsWith (e ++ 46 :: tail) (q ++ [46]) = eqb q e.
Proof.
  unfold hasDot.
  revert q. induction e as [|a e IH]; intros [|c q] He Hq;
    cbn [app startsWith eqb existsb] in *.
  - now rewrite N.eqb_refl, startsWith_nil.
  - apply orb_false_iff in Hq as [Hc _]. now rewrite Hc.
  - apply orb_false_iff in He as [Ha _]. now rewrite N.eqb_sym, Ha.
  - apply orb_false_iff in He as [_ He]. apply orb_false_iff in Hq as [_ Hq].
    now rewrite (IH q He Hq).
Qed.

Lemma eqb_rev (a b : jsstring) : eqb (rev a) (rev b) = eqb a b.
Proof.
  apply eq_true_iff_eq. rewrite !eqb_eq. split; [|now intros ->].
  intro H. apply (f_equal (@rev N)) in H. now rewrite !rev_involutive in H.
Qed.

Lemma hasDot_lowerLatin (e : jsstring) : hasDot (map lowerLatin e) = hasDot e.
Proof.
  unfold hasDot. induction e as [|c e IH]; [reflexivity|].
  cbn [map existsb]. rewrite IH. f_equal. unfold lowerLatin.
  destruct ((65 <=? c) && (c <=? 90)) eqn:E; [|reflexivity].
  apply andb_true_iff in E as [E _]. apply N.leb_le in E.
  destruct (N.eqb_spec (c + 32) 46), (N.eqb_spec c 46); try reflexivity; lia.
Qed.

(** Up to case, whether a text ends with a dotted ending is a matter of
    what follows its last dot. *)
Lemma endsWith_dotted (a e ending : jsstring) :
  hasDot e = false -> hasDot ending = false ->
  endsWith (map lowerLatin (a ++ 46 :: e)) (46 :: ending)
  = eqb ending (map lowerLatin e).
Proof.
  intros He Hq. unfold endsWith. rewrite map_app. cbn [map].
  change (lowerLatin 46) with 46.
  rewrite rev_app_distr. cbn [rev]. rewrite <- app_assoc. cbn [app].
  rewrite startsWith_upto_dot by (now rewrite hasDot_rev, ?hasDot_lowerLatin).
  apply eqb_rev.
Qed.

(** A text and its lower-case form are the same plain text up to case, or
    neither is. *)
Lemma eqb_lowered (s t : jsstring) :
  Chunks s t ->
  forall q, forallb plainUnit q = true ->
    eqb q (map lowerLatin t) = eqb q (map lowerLatin s).
Proof.
  intro H. induction H as [|i o s t C _ IH]; [reflexivity|].
  intros q Hq. destruct C as [c L| | |i o Ni No Bi Bo].
  - destruct q as [|x q]; [reflexivity|].
    cbn [forallb] in Hq. apply andb_true_iff in Hq as [_ Hq].
    cbn [app map eqb]. rewrite (IH q Hq). f_equal. f_equal.
    unfold lowerLatin at 1. unfold lowerLatin.
    destruct ((65 <=? c) && (c <=? 90)) eqn:E; [|now rewrite E].
    apply andb_true_iff in E as [E _]. apply N.leb_le in E.
    replace (c + 32 <=? 90) with false by (symmetry; apply N.leb_gt; lia).
    now rewrite andb_false_r.
  - destruct q as [|x q]; [reflexivity|].
    cbn [forallb] in Hq. apply andb_true_iff in Hq as [Hx _].
    destruct (plainUnit_bounds x Hx) as [X [K _]].
    cbn [app map eqb].
    replace (x =? lowerLatin 107) with false
      by (symmetry; apply N.eqb_neq; change (lowerLatin 107) with 107; lia).
    now replace (x =? lowerLatin 0x212A) with false
      by (symmetry; apply N.eqb_neq; change (lowerLatin 0x212A) with 0x212A; lia).
  - destruct q as [|x q]; [reflexivity|].
    cbn [forallb] in Hq. apply andb_true_iff in Hq as [Hx Hq].
    destruct (plainUnit_bounds x Hx) as [X _].
    cbn [app map eqb].
    replace (x =? lowerLatin 0x130) with false
      by (symmetry; apply N.eqb_neq; change (lowerLatin 0x130) with 0x130; lia).
    destruct q as [|y q]; [now rewrite andb_false_r|].
    cbn [forallb] in Hq. apply andb_true_iff in Hq as [Hy _].
    destruct (plainUnit_bounds y Hy) as [Y _]. cbn [eqb].
    replace (y =? lowerLatin 0x307) with false
      by (symmetry; apply N.eqb_neq; change (lowerLatin 0x307) with 0x307; lia).
    now rewrite andb_false_r.
  - destruct i as [|ci i]; [contradiction|].
    destruct o as [|co o]; [contradiction|].
    cbn [beyondLatin forallb] in Bi, Bo.
    apply andb_true_iff in Bi as [Bi _]. apply andb_true_iff in Bo as [Bo _].
    apply N.leb_le in Bi. apply N.leb_le in Bo.
    destruct q as [|x q]; [reflexivity|].
    cbn [forallb] in Hq. apply andb_true_iff in Hq as [Hx _].
    destruct (plainUnit_bounds x Hx) as [X _].
    cbn [app map eqb]. rewrite (lowerLatin_beyond ci Bi), (lowerLatin_beyond co Bo).
    replace (x =? co) with false by (symmetry; apply N.eqb_neq; lia).
    now replace (x =? ci) with false by (symmetry; apply N.eqb_neq; lia).
Qed.

Lemma mimeTypeOf_after_dot (a b e : jsstring) :
  hasDot e = false ->
  Analyze.mimeTypeOf (a ++ 46 :: e) = Analyze.mimeTypeOf (b ++ 46 :: toLowerCase e).
Proof.
  intro He. unfold Analyze.mimeTypeOf.
  rewrite !endsWith_toLowerCase by reflexivity.
  assert (D : hasDot (toLowerCase e) = false) by now rewrite hasDot_toLowerCase.
  change (str ".png") with (46 :: str "png").
  change (str ".webp") with (46 :: str "webp").
  change (str ".gif") with (46 :: str "gif").
  rewrite !endsWith_dotted by (try assumption; reflexivity).
  now rewrite !(eqb_lowered e (toLowerCase e) (toLowerCase_chunks e))
    by reflexivity.
Qed.

(** X8. Upload and analyze agree on the extension: for an original name
    with a dot, the MIME type the analyze handler infers from the URL under
    which the upload handler stored the file, behind any origin, is the one
    it would infer from the original name. *)
Theorem stored_url_keeps_mime_type
    (origin : jsstring) (timestamp : Z) (digits : list nat) (name : jsstring) :
  hasDot name = true ->
  Analyze.mimeTypeOf
    (origin ++ uploadsUrl
       (generateSafeFilename timestamp (randomToString36 digits) name))
  = Analyze.mimeTypeOf name.
Proof.
  intro H. rewrite generated_front, pop_split. unfold uploadsUrl.
  destruct (atLastDot name) as [[st e]|] eqn:E.
  - destruct (atLastDot_parts _ _ _ E) as [-> He].
    rewrite !app_assoc. symmetry. now apply mimeTypeOf_after_dot.
  - apply atLastDot_noDot in E. congruence.
Qed.

Lemma stored_url_keeps_mime_type_witness :
  Analyze.mimeTypeOf
    (str "http://localhost:3000" ++ uploadsUrl
       (generateSafeFilename 1700000000123
          (randomToString36 [4; 15; 35; 34; 24; 8; 2]%nat)
          (str "Salad Bowl.WebP")))
  = str "image/webp".
Proof.
  exact (stored_url_keeps_mime_type (str "http://localhost:3000")
           1700000000123 [4; 15; 35; 34; 24; 8; 2]%nat
           (str "Salad Bowl.WebP") eq_refl).
Defined.

End StoredNames.

(** ** The upload handler on every request *)

Section UploadHandler.
Import Upload.

Ltac upload_paths w :=
  unfold Upload.POST, tryCatch, bind, ensureUploadDir, bind, call, await,
    ret, throw;
  destruct (existsSync w) eqn:Ex;
  [|destruct (mkdir w) as [failure|] eqn:Mk];
  (destruct (formData w) as [thrown|[[name type bytes|field]|]] eqn:Fd;
   cbn [negb unitAnswer noFile typeOf];
   [ |destruct (includes ALLOWED_TYPES (Some type)) eqn:Ty;
      [destruct (writeFile w) as [failure'|] eqn:Wr|]
    |destruct (eqb field []) eqn:Fe
    | ]);
  cbn [negb unitAnswer includes app fst snd].

(** X1. A request without a file entry, or whose [file] entry is an empty
    text field, is answered 400 "No file provided"; a non-empty text field
    named [file] is answered with the 400 of the type check.  In both cases
    the only calls are those that ensure the upload directory. *)
Theorem upload_without_file (w : Upload.world) (entry : option entry) :
  formData w = inr entry ->
  (existsSync w = true \/ mkdir w = None) ->
  (noFile entry = true ->
   Upload.POST w =
     (inr (json (errorBody (str "No file provided")) 400), ensured w))
  /\ (forall field, entry = Some (EntryString field) -> field <> [] ->
      Upload.POST w = (inr invalidType, ensured w)).
Proof.
  intros Hf Hd. split.
  - intro Hn.
    unfold Upload.POST, ensured, tryCatch, bind, ensureUploadDir, bind, call,
      await, ret.
    rewrite Hf, Hn.
    destruct (existsSync w); [reflexivity|].
    destruct Hd as [Hd | Hd]; [discriminate|]. rewrite Hd. reflexivity.
  - intros field -> Hne. apply eqb_neq in Hne.
    unfold Upload.POST, ensured, tryCatch, bind, ensureUploadDir, bind, call,
      await, ret.
    rewrite Hf. cbn [noFile typeOf includes]. rewrite Hne.
    destruct (existsSync w); [reflexivity|].
    destruct Hd as [Hd | Hd]; [discriminate|]. rewrite Hd. reflexivity.
Qed.

Lemma upload_without_file_witness :
  Upload.POST (receiving None None)
  = (inr (json (errorBody (str "No file provided")) 400),
     [ExistsSync [str "/srv/app"; str "public"; str "uploads"]])
  /\ Upload.POST (receiving (Some (EntryString (str "hello"))) None)
     = (inr invalidType,
        [ExistsSync [str "/srv/app"; str "public"; str "uploads"]]).
Proof.
  split.
  - exact (proj1 (upload_without_file (receiving None None) None eq_refl
                    (or_introl eq_refl)) eq_refl).
  - refine (proj2 (upload_without_file
                     (receiving (Some (EntryString (str "hello"))) None)
                     _ eq_refl (or_introl eq_refl))
              (str "hello") eq_refl _).
    discriminate.
Defined.

(** X2. The handler answers every request, and with one of four responses:
    the two 400s, the 200 carrying the URL of the stored file, or a 500 whose
    body is the fixed text "Failed to upload file": whatever was thrown, its
    message is not in the response. *)
Theorem upload_answers (w : Upload.world) :
  exists r t,
    Upload.POST w = (inr r, t)
    /\ (r = json (errorBody (str "No file provided")) 400
        \/ r = invalidType
        \/ r = json (errorBody (str "Failed to upload file")) 500
        \/ exists name type bytes,
             formData w = inr (Some (EntryFile name type bytes))
             /\ r = json (JObject
                  [(str "imageUrl",
                    JString (uploadsUrl (generateSafeFilename (now w)
                       (randomToString36 (randomDigits w)) name)));
                   (str "url",
                    JString (uploadsUrl (generateSafeFilename (now w)
                       (randomToString36 (randomDigits w)) name)))]) 200).
Proof.
  upload_paths w; eexists; eexists; (split; [reflexivity|]);
    first [ left; reflexivity
          | right; left; reflexivity
          | right; right; left; reflexivity
          | right; right; right; exists name, type, bytes; now split ].
Qed.

(** X3. A failure of the platform ends in the generic 500 and a log entry.
    When reading the form data throws, no file is written: the calls made
    are those that ensure the upload directory, a [mkdir] among them
    exactly when the directory was absent, and the log entry.  When
    [writeFile] fails the response is the 500 although the write was
    attempted under the generated name. *)
Theorem upload_platform_failure (w : Upload.world) :
  (existsSync w = true \/ mkdir w = None) ->
  (forall thrown, formData w = inl thrown ->
     Upload.POST w =
       (inr (json (errorBody (str "Failed to upload file")) 500),
        ensured w ++ [Upload.ConsoleError (str "Upload error:")])
     /\ existsb isWriteFile (snd (Upload.POST w)) = false
     /\ existsb isWrite (snd (Upload.POST w)) = negb (existsSync w))
  /\ (forall name type bytes failure,
        formData w = inr (Some (EntryFile name type bytes)) ->
        includes ALLOWED_TYPES (Some type) = true ->
        writeFile w = Some failure ->
        Upload.POST w =
          (inr (json (errorBody (str "Failed to upload file")) 500),
           ensured w
           ++ [WriteFile (UPLOAD_DIR w ++
                 [generateSafeFilename (now w)
                    (randomToString36 (randomDigits w)) name]) bytes;
               Upload.ConsoleError (str "Upload error:")])).
Proof.
  intro Hd. split.
  - intros thrown Hf.
    assert (E : Upload.POST w =
                  (inr (json (errorBody (str "Failed to upload file")) 500),
                   ensured w ++ [Upload.ConsoleError (str "Upload error:")])).
    { unfold Upload.POST, ensured, tryCatch, bind, ensureUploadDir, bind, call,
        await, ret.
      rewrite Hf.
      destruct (existsSync w); [reflexivity|].
      destruct Hd as [Hd | Hd]; [discriminate|]. rewrite Hd. reflexivity. }
    rewrite E. split; [reflexivity|].
    unfold ensured. destruct (existsSync w); split; reflexivity.
  - intros name type bytes failure Hf Ht Hw.
    unfold Upload.POST, ensured, tryCatch, bind, ensureUploadDir, bind, call,
      await, ret.
    rewrite Hf. cbn [noFile typeOf]. rewrite Ht, Hw.
    destruct (existsSync w); [reflexivity|].
    destruct Hd as [Hd | Hd]; [discriminate|]. rewrite Hd. reflexivity.
Qed.

Lemma upload_platform_failure_witness :
  Upload.POST
    (receiving (Some (EntryFile (str "a.png") (str "image/png") [Byte.x89]))
       (Some (JsError (str "ENOSPC: no space left on device"))))
  = (inr (json (errorBody (str "Failed to upload file")) 500),
     [ExistsSync [str "/srv/app"; str "public"; str "uploads"];
      WriteFile [str "/srv/app"; str "public"; str "uploads"; str "a-5-1.png"]
        [Byte.x89];
      Upload.ConsoleError (str "Upload error:")]).
Proof.
  exact (proj2 (upload_platform_failure
                  (receiving (Some (EntryFile (str "a.png") (str "image/png")
                                      [Byte.x89]))
                     (Some (JsError (str "ENOSPC: no space left on device"))))
                  (or_introl eq_refl))
           (str "a.png") (str "image/png") [Byte.x89]
           (JsError (str "ENOSPC: no space left on device"))
           eq_refl eq_refl eq_refl).
Defined.

(** X9. What reaches the disk: a [writeFile] is the write of the bytes of an
    uploaded file whose declared type is in the allow-list, to the path
    joined from the upload directory and the generated name, and there is
    at most one per request; the generated name is free of slashes, so that
    the file lies directly under the upload directory, exactly when the
    part of the original name after its last dot is free of slashes; a
    [mkdir] is that of the upload directory on a server where it was
    absent; and a 200 is answered only after a successful write. *)
Theorem upload_write_discipline (w : Upload.world) :
  (forall p data, In (WriteFile p data) (snd (Upload.POST w)) ->
     exists name type,
       formData w = inr (Some (EntryFile name type data))
       /\ includes ALLOWED_TYPES (Some type) = true
       /\ p = UPLOAD_DIR w ++ [generateSafeFilename (now w)
                                 (randomToString36 (randomDigits w)) name]
       /\ noSlash (last p []) = noSlash (last (split 46 name) []))
  /\ (length (filter isWriteFile (snd (Upload.POST w))) <= 1)%nat
  /\ (forall p, In (Mkdir p) (snd (Upload.POST w)) ->
        existsSync w = false /\ p = UPLOAD_DIR w)
  /\ (forall r, fst (Upload.POST w) = inr r -> status r = 200 ->
        writeFile w = None
        /\ existsb isWriteFile (snd (Upload.POST w)) = true).
Proof.
  assert (Main :
    (forall p data, In (WriteFile p data) (snd (Upload.POST w)) ->
       exists name type,
         formData w = inr (Some (EntryFile name type data))
         /\ includes ALLOWED_TYPES (Some type) = true
         /\ p = UPLOAD_DIR w ++ [generateSafeFilename (now w)
                                   (randomToString36 (randomDigits w)) name])
    /\ (length (filter isWriteFile (snd (Upload.POST w))) <= 1)%nat
    /\ (forall p, In (Mkdir p) (snd (Upload.POST w)) ->
          existsSync w = false /\ p = UPLOAD_DIR w)
    /\ (forall r, fst (Upload.POST w) = inr r -> status r = 200 ->
          writeFile w = None
          /\ existsb isWriteFile (snd (Upload.POST w)) = true)).
  { upload_paths w; (split; [|split; [|split]]);
      try (cbn; lia);
      try (intros p data H; cbn in H;
           repeat (destruct H as [H|H]; try discriminate; try contradiction);
           injection H as <- <-; exists name, type; now repeat split);
      try (intros p H; cbn in H;
           repeat (destruct H as [H|H]; try discriminate; try contradiction);
           injection H as <-; now split);
      try (intros r H S; cbn in H; injection H as <-; try discriminate S;
           now split). }
  destruct Main as [M1 M2]. split; [|exact M2].
  intros p data H. destruct (M1 p data H) as (name & type & Hf & Ht & ->).
  exists name, type. repeat split; try assumption.
  rewrite last_last. apply noSlash_generated.
Qed.

Lemma upload_write_discipline_witness :
  exists name type,
    formData (uploading false None (str "My Lunch Photo!! .PNG") (str "image/png"))
    = inr (Some (EntryFile name type [Byte.x25; Byte.x50]))
    /\ includes ALLOWED_TYPES (Some type) = true
    /\ [str "/srv/app"; str "public"; str "uploads";
        str "my-lunch-photo-1700000000123-4fzyo82.png"]
       = UPLOAD_DIR (uploading false None (str "My Lunch Photo!! .PNG")
                       (str "image/png"))
         ++ [generateSafeFilename 1700000000123
               (randomToString36 [4; 15; 35; 34; 24; 8; 2; 22; 31; 34; 27]%nat)
               name]
    /\ noSlash (str "my-lunch-photo-1700000000123-4fzyo82.png")
       = noSlash (last (split 46 name) []).
Proof.
  refine (proj1 (upload_write_discipline
            (uploading false None (str "My Lunch Photo!! .PNG") (str "image/png")))
            [str "/srv/app"; str "public"; str "uploads";
             str "my-lunch-photo-1700000000123-4fzyo82.png"]
            [Byte.x25; Byte.x50] _).
  vm_compute. right. right. left. reflexivity.
Defined.

End UploadHandler.

(** ** The analyze handler on every request *)

Section AnalyzeHandler.
Import Analyze.

Lemma Validated_Replied (w : Analyze.world) (url key : jsstring)
    (r : fetchResponse) (bytes : list Byte.byte) (text : jsstring) :
  Validated w url key -> fetch w url = inr r -> ok r = true ->
  arrayBuffer r = inr bytes ->
  generateContent w (requestFor key bytes url) = inr text ->
  Replied w url key r bytes text.
Proof.
  intros (Hb & Ht & Hk & Hn) Hf Ho Ha Hg. unfold Replied. tauto.
Qed.

(** After the two checks the handler is at the fetch. *)
Lemma POST_at_fetch (w : Analyze.world) (url key : jsstring) :
  Validated w url key ->
  Analyze.POST w =
    tryCatch
      (fetched <- fetchImage w url ;;
       match fetched with
       | inl early => ret early
       | inr imageBuffer =>
           let request := requestFor key imageBuffer url in
           text <- call (GenerateContent request) (generateContent w request) ;;
           answerFor text
       end)%run
      (fun error =>
         (call (Analyze.ConsoleError (str "Analyze error:")) (inr tt) ;;;
          ret (json (errorBody
            (messageOr error (str "An unexpected error occurred"))) 500))%run)
      [].
Proof.
  intros ([body [Hb Hg]] & Ht & Hk & Hn).
  rewrite (POST_validated w body url Hb Hg Ht), Hk.
  cbn [noKey]. apply eqb_neq in Hn. now rewrite Hn.
Qed.

(** X10. A failing fetch is the caller's error: whether [fetch] throws, the
    status is not a success, or reading the bytes throws, the handler
    answers 400 with a message that embeds what went wrong (the status and
    its text, or the message of the error), and the model is never asked. *)
Theorem analyze_fetch_failure (w : Analyze.world) (url key : jsstring) :
  Validated w url key ->
  (forall thrown, fetch w url = inl thrown ->
     Analyze.POST w =
       (inr (fetchFailed (messageOr thrown (str "Unknown error"))), [Fetch url]))
  /\ (forall r, fetch w url = inr r -> ok r = false ->
        Analyze.POST w =
          (inr (fetchFailed (str "Failed to fetch image: "
                  ++ decimal (httpStatus r) ++ str " " ++ statusText r)),
           [Fetch url]))
  /\ (forall r thrown, fetch w url = inr r -> ok r = true ->
        arrayBuffer r = inl thrown ->
        Analyze.POST w =
          (inr (fetchFailed (messageOr thrown (str "Unknown error"))),
           [Fetch url])).
Proof.
  intro HV. rewrite (POST_at_fetch w url key HV).
  unfold tryCatch, bind, fetchImage, tryCatch, bind, call, await, ret, throw.
  split; [|split].
  - intros thrown Hf. now rewrite Hf.
  - intros r Hf Ho. now rewrite Hf, Ho.
  - intros r thrown Hf Ho Ha. now rewrite Hf, Ho, Ha.
Qed.

(** X11. Anything thrown outside the fetch reaches the outer [catch]: a
    request body that cannot be read and a failing model call are both
    answered 500 with the message of the error, or with "An unexpected error
    occurred" when what was thrown is not an Error, after a log entry. *)
Theorem analyze_unexpected_error (w : Analyze.world) :
  (forall thrown, requestJson w = inl thrown ->
     Analyze.POST w =
       (inr (unexpected thrown), [Analyze.ConsoleError (str "Analyze error:")]))
  /\ (forall url key r bytes thrown,
        Validated w url key -> fetch w url = inr r -> ok r = true ->
        arrayBuffer r = inr bytes ->
        generateContent w (requestFor key bytes url) = inl thrown ->
        Analyze.POST w =
          (inr (unexpected thrown),
           [Fetch url; GenerateContent (requestFor key bytes url);
            Analyze.ConsoleError (str "Analyze error:")])).
Proof.
  split.
  - intros thrown H. unfold Analyze.POST, tryCatch, bind, await.
    now rewrite H.
  - intros url key r bytes thrown HV Hf Ho Ha Hg.
    rewrite (POST_at_fetch w url key HV).
    unfold tryCatch, bind, fetchImage, tryCatch, bind, call, await, ret, throw.
    rewrite Hf. cbn [app]. rewrite Ho. cbn [negb]. rewrite Ha. now rewrite Hg.
Qed.

(** X12. A reply that is not JSON, after extraction, is answered 500 with a
    message that quotes the reply as the model sent it (fence included), cut
    to its first 500 characters; the failure is logged. *)
Theorem analyze_unparseable_reply
    (w : Analyze.world) (url key : jsstring) (r : fetchResponse)
    (bytes : list Byte.byte) (text : jsstring) :
  Replied w url key r bytes text ->
  JSON_parse (extractJson text) = None ->
  Analyze.POST w =
    (inr (json (errorBody
            (str "Failed to parse response as valid JSON. Raw response: "
             ++ firstn 500 text)) 500),
     [Fetch url; GenerateContent (requestFor key bytes url);
      Analyze.ConsoleError (str "Failed to parse Gemini response as JSON:")])
  /\ (length (str "Failed to parse response as valid JSON. Raw response: "
              ++ firstn 500 text) <= 554)%nat.
Proof.
  intros HR Hp. split.
  - rewrite (POST_replied_text w url key r bytes text HR).
    unfold answerFor. now rewrite Hp.
  - rewrite length_app, length_firstn.
    change (length (str "Failed to parse response as valid JSON. Raw response: "))
      with 54%nat.
    lia.
Qed.

(** X13. A credential that is set but empty counts as absent: the handler
    answers the same 500 and fetches nothing. *)
Theorem analyze_empty_credential
    (w : Analyze.world) (body : value) (url : jsstring) :
  requestJson w = inr body ->
  get body (str "imageUrl") = Some (JString url) -> trim url <> [] ->
  GEMINI_API_KEY w = Some [] ->
  Analyze.POST w =
    (inr (json (errorBody
       (str "GEMINI_API_KEY environment variable is not set")) 500), []).
Proof.
  intros Hb Hg Ht Hk. now rewrite (POST_validated w body url Hb Hg Ht), Hk.
Qed.

(** X14. The handler answers every request, in one of eleven ways, each
    with its response and its calls: the body cannot be read or is [null]
    (500), the URL is refused (400), the key is missing (500), the fetch
    fails in one of three ways (400), the model call fails (500), the reply
    does not parse (500), it parses to a value of the wrong shape (500), or
    it parses to an analysis result (200). *)
Theorem analyze_answers (w : Analyze.world) :
  exists r t, Analyze.POST w = (inr r, t) /\ Answered w r t.
Proof.
  destruct (requestJson w) as [thrown|body] eqn:Hb.
  { eexists; eexists. split.
    - exact (proj1 (analyze_unexpected_error w) thrown Hb).
    - now apply BodyUnreadable. }
  assert (N : body = JNull \/ body <> JNull)
    by (destruct body; (now left) || (right; discriminate)).
  destruct N as [-> | Hn].
  { eexists; eexists. split.
    - exact (POST_null_body w Hb).
    - now apply BodyNull. }
  destruct (missingOrBlank (get body (str "imageUrl"))) eqn:Hm.
  { eexists; eexists. split.
    - exact (POST_requires_imageUrl w body Hb Hn Hm).
    - now apply (UrlRefused w body). }
  destruct (get body (str "imageUrl")) as [[ | | |url| | ]|] eqn:Hg;
    try discriminate Hm.
  cbn [missingOrBlank] in Hm. apply eqb_neq in Hm.
  destruct (noKey (GEMINI_API_KEY w)) eqn:Hk.
  { eexists; eexists. split.
    - rewrite (POST_validated w body url Hb Hg Hm), Hk. reflexivity.
    - now apply (KeyMissing w body url). }
  destruct (GEMINI_API_KEY w) as [key|] eqn:Hkey; [|discriminate Hk].
  cbn [noKey] in Hk. apply eqb_neq in Hk.
  assert (HV : Validated w url key).
  { unfold Validated. repeat split; try assumption. now exists body. }
  destruct (analyze_fetch_failure w url key HV) as (F1 & F2 & F3).
  destruct (fetch w url) as [thrown|r] eqn:Hf.
  { eexists; eexists. split; [exact (F1 thrown eq_refl)|].
    now apply (FetchThrew w url key). }
  destruct (ok r) eqn:Ho.
  2:{ eexists; eexists. split; [exact (F2 r eq_refl Ho)|].
      now apply (FetchNotOk w url key). }
  destruct (arrayBuffer r) as [thrown|bytes] eqn:Ha.
  { eexists; eexists. split; [exact (F3 r thrown eq_refl Ho Ha)|].
    now apply (BytesThrew w url key r). }
  destruct (generateContent w (requestFor key bytes url)) as [thrown|text] eqn:Hgc.
  { eexists; eexists. split.
    - exact (proj2 (analyze_unexpected_error w) url key r bytes thrown
               HV Hf Ho Ha Hgc).
    - now apply (ModelThrew w url key r bytes). }
  pose proof (Validated_Replied w url key r bytes text HV Hf Ho Ha Hgc) as HR.
  destruct (JSON_parse (extractJson text)) as [v|] eqn:Hp.
  2:{ eexists; eexists. split.
      - exact (proj1 (analyze_unparseable_reply w url key r bytes text HR Hp)).
      - now apply (ReplyUnparsed w url key r bytes text). }
  destruct (isAnalysisResult v) eqn:Hs.
  - eexists; eexists. split.
    + rewrite (POST_replied w url key r bytes text v HR Hp).
      now rewrite (analysisResult_accepted v Hs).
    + now apply (ReplyAccepted w url key r bytes text v).
  - destruct (nonAnalysisResult_refused v (JSON_parse_noNaN _ _ Hp) Hs)
      as [what Hw].
    eexists; eexists. split.
    + rewrite (POST_replied w url key r bytes text v HR Hp). now rewrite Hw.
    + now apply (ReplyRefused w url key r bytes text v what).
Qed.

(** X15. A 200 is never a guess: the handler answers 200 only when it has
    fetched the image, asked the model once, and parsed its reply to a value
    of the analysis-result shape; the body is that value as JSON writes it,
    and is again of the analysis-result shape. *)
Theorem analyze_success_is_valid
    (w : Analyze.world) (r : response) (t : list Analyze.effect) :
  Analyze.POST w = (inr r, t) -> status r = 200 ->
  isAnalysisResult (body r) = true
  /\ exists url key fetchedImage bytes text v,
       Replied w url key fetchedImage bytes text
       /\ JSON_parse (extractJson text) = Some v
       /\ isAnalysisResult v = true
       /\ body r = serialized v
       /\ t = [Fetch url; GenerateContent (requestFor key bytes url)].
Proof.
  intros E S. destruct (analyze_answers w) as (r' & t' & E' & A).
  rewrite E in E'. injection E' as <- <-.
  inversion A; subst; try discriminate S.
  split; [now apply isAnalysisResult_serialized|].
  exists url, key, r0, bytes, text, v.
  split; [assumption|]. split; [assumption|]. split; [assumption|].
  split; reflexivity.
Qed.

(** X16. Every answer is a 200, a 400 or a 500, and every answer that is not
    a 200 has a body with the single property [error]; a request makes no
    outbound call, or one fetch, or one fetch followed by one model call,
    never a model call without a fetch before it. *)
Theorem analyze_error_contract (w : Analyze.world) :
  exists r t,
    Analyze.POST w = (inr r, t)
    /\ (status r = 200
        \/ ((status r = 400 \/ status r = 500)
            /\ exists message, body r = errorBody message))
    /\ (outbound t = []
        \/ (exists url, outbound t = [Fetch url])
        \/ (exists url request,
              outbound t = [Fetch url; GenerateContent request])).
Proof.
  destruct (analyze_answers w) as (r & t & E & A).
  exists r, t. split; [exact E|].
  inversion A; subst; cbn [status body json unexpected fetchFailed invalid];
    split;
    first [ left; reflexivity
          | right; split; [(left; reflexivity) || (right; reflexivity)
                          | eexists; reflexivity] | idtac ];
    first [ left; reflexivity
          | right; left; eexists; reflexivity
          | right; right; eexists; eexists; reflexivity ].
Qed.

Lemma asking_Validated (image : exn + fetchResponse) (reply : exn + jsstring) :
  Validated (asking (Some (str "secret")) image reply) pngUrl (str "secret").
Proof.
  unfold Validated. split.
  - eexists. split; reflexivity.
  - repeat split; try reflexivity; discriminate.
Defined.

Lemma analyze_fetch_failure_witness :
  Analyze.POST (asking (Some (str "secret")) (inr notFound) (inr appleJson))
  = (inr (fetchFailed (str "Failed to fetch image: 404 Not Found")),
     [Fetch pngUrl]).
Proof.
  exact (proj1 (proj2 (analyze_fetch_failure _ _ _
           (asking_Validated (inr notFound) (inr appleJson))))
           notFound eq_refl eq_refl).
Defined.

Lemma analyze_unexpected_error_witness :
  Analyze.POST
    (asking (Some (str "secret")) (inr fetched)
       (inl (JsError (str "429 Too Many Requests"))))
  = (inr (json (errorBody (str "429 Too Many Requests")) 500),
     [Fetch pngUrl;
      GenerateContent
        (requestFor (str "secret") [Byte.x89; Byte.x50; Byte.x4e; Byte.x47]
           pngUrl);
      Analyze.ConsoleError (str "Analyze error:")]).
Proof.
  exact (proj2 (analyze_unexpected_error
                  (asking (Some (str "secret")) (inr fetched)
                     (inl (JsError (str "429 Too Many Requests")))))
           pngUrl (str "secret") fetched [Byte.x89; Byte.x50; Byte.x4e; Byte.x47]
           (JsError (str "429 Too Many Requests"))
           (asking_Validated _ _) eq_refl eq_refl eq_refl eq_refl).
Defined.

Lemma analyze_unparseable_reply_witness :
  Analyze.POST (replying (str "I see an apple."))
  = (inr (json (errorBody
            (str "Failed to parse response as valid JSON. Raw response: I see an apple."))
            500),
     [Fetch pngUrl;
      GenerateContent
        (requestFor (str "secret") [Byte.x89; Byte.x50; Byte.x4e; Byte.x47]
           pngUrl);
      Analyze.ConsoleError (str "Failed to parse Gemini response as JSON:")]).
Proof.
  exact (proj1 (analyze_unparseable_reply _ _ _ _ _ _
                  (replying_Replied (str "I see an apple.")) eq_refl)).
Defined.

Lemma analyze_empty_credential_witness :
  Analyze.POST (asking (Some []) (inr fetched) (inr appleJson))
  = (inr (json (errorBody
       (str "GEMINI_API_KEY environment variable is not set")) 500), []).
Proof.
  refine (analyze_empty_credential
            (asking (Some []) (inr fetched) (inr appleJson))
            _ pngUrl eq_refl eq_refl _ eq_refl).
  discriminate.
Defined.

Lemma analyze_success_is_valid_witness :
  isAnalysisResult appleResult = true.
Proof.
  exact (proj1 (analyze_success_is_valid (replying fencedReply)
                  (json appleResult 200)
                  [Fetch pngUrl;
                   GenerateContent
                     (requestFor (str "secret")
                        [Byte.x89; Byte.x50; Byte.x4e; Byte.x47] pngUrl)]
                  eq_refl eq_refl)).
Defined.

End AnalyzeHandler.

(** ** Extraction and validation, piece by piece *)

Section Extraction.
Import Analyze.

Lemma dropWhile_padding (p : N -> bool) (a s : jsstring) :
  forallb p a = true -> dropWhile p (a ++ s) = dropWhile p s.
Proof.
  induction a as [|c a IH]; [reflexivity|].
  simpl. intro H. apply andb_true_iff in H as [-> H]. now apply IH.
Qed.

(** A text that begins and ends with characters that are not white space
    loses exactly its padding when it is trimmed. *)
Lemma trim_padded (before after core : jsstring) (first final : N) :
  forallb isWhiteSpace before = true -> forallb isWhiteSpace after = true ->
  isWhiteSpace first = false -> isWhiteSpace final = false ->
  trim (before ++ (first :: core ++ [final]) ++ after) = first :: core ++ [final].
Proof.
  intros Hb Ha Hf Hl. unfold trim, dropWhileEnd.
  set (X := first :: core ++ [final]).
  assert (H1 : dropWhile isWhiteSpace (X ++ after) = X ++ after)
    by (subst X; cbn [app dropWhile]; now rewrite Hf).
  assert (H2 : dropWhile isWhiteSpace (rev X) = rev X).
  { subst X. cbn [rev]. rewrite rev_app_distr. cbn [rev app dropWhile].
    now rewrite Hl. }
  rewrite (dropWhile_padding _ _ _ Hb), H1, rev_app_distr.
  rewrite dropWhile_padding by (now rewrite forallb_rev).
  rewrite H2. apply rev_involutive.
Qed.

(** X17. A payload wrapped in a fenced block is recovered whatever it is:
    for every language tag without a line feed, every payload (with line
    feeds, even with fences inside) and every white space around the block,
    the extraction of the block is the trimmed payload. *)
Theorem extract_fenced_payload (before after tag payload : jsstring) :
  forallb isWhiteSpace before = true -> forallb isWhiteSpace after = true ->
  hasLineFeed tag = false ->
  extractJson (before ++ (fence ++ tag ++ 10 :: payload ++ 10 :: fence) ++ after)
  = trim payload.
Proof.
  intros Hb Ha Ht. unfold extractJson.
  assert (T : trim (before ++ (fence ++ tag ++ 10 :: payload ++ 10 :: fence)
                    ++ after)
              = fence ++ tag ++ 10 :: payload ++ 10 :: fence).
  { change (fence ++ tag ++ 10 :: payload ++ 10 :: fence)
      with (96 :: (96 :: 96 :: tag ++ 10 :: payload ++ 10 :: fence)).
    replace (96 :: 96 :: tag ++ 10 :: payload ++ 10 :: fence)
      with ((96 :: 96 :: tag ++ 10 :: payload ++ [10; 96; 96]) ++ [96]).
    - now apply trim_padded.
    - cbn [app]. repeat (rewrite <- app_assoc; cbn [app]). reflexivity. }
  rewrite T. clear T.
  change (startsWith (fence ++ tag ++ 10 :: payload ++ 10 :: fence) (str "```"))
    with (startsWith (tag ++ 10 :: payload ++ 10 :: fence) []).
  rewrite startsWith_nil.
  replace (fence ++ tag ++ 10 :: payload ++ 10 :: fence)
    with ((fence ++ tag) ++ 10 :: payload ++ 10 :: fence)
    by (now rewrite <- app_assoc).
  rewrite split_app, (split_noSep 10 (fence ++ tag)), split_app.
  - cbn [app tl]. change (split 10 fence) with [fence].
    rewrite last_last, removelast_last, length_app.
    replace (0 <? length (split 10 payload) + length [fence])%nat with true
      by (symmetry; apply Nat.ltb_lt; simpl; lia).
    change (eqb (trim fence) (str "```")) with true. cbn [andb].
    now rewrite join_split.
  - unfold fence. cbn [str app existsb]. exact Ht.
Qed.

Lemma extract_fenced_payload_witness :
  extractJson ([32; 10] ++ (fence ++ str "json" ++ 10
                 :: quoted " {'items':[]}| " ++ 10 :: fence) ++ [10])
  = quoted "{'items':[]}".
Proof.
  exact (extract_fenced_payload [32; 10] [10] (str "json")
           (quoted " {'items':[]}| ") eq_refl eq_refl eq_refl).
Defined.

End Extraction.

Section Validation.
Import Analyze.

(** X18. Validation reports the first offending item in array order: the
    items before it, being valid, and the items after it, whatever they are,
    do not change the response, which is the one the offender alone would
    get. *)
Theorem validation_reports_first_offender
    (good rest : list value) (bad : value) (refusal : response) :
  forallb isFoodItem good = true ->
  validateItems [bad] = Some refusal ->
  validateItems (good ++ bad :: rest) = Some refusal
  /\ (forall props,
        lookup (str "items") props = Some (JArray (good ++ bad :: rest)) ->
        validateStructure (JObject props) = refusal).
Proof.
  intros Hg Hb.
  assert (V : validateItems (good ++ bad :: rest) = Some refusal).
  { induction good as [|g good IH]; cbn [app].
    - now rewrite validateItems_cons, Hb.
    - cbn [forallb] in Hg. apply andb_true_iff in Hg as [H1 H2].
      rewrite validateItems_cons, (foodItem_accepted g H1). now apply IH. }
  split; [exact V|].
  intros props Hi. unfold validateStructure.
  cbn [get truthy typeof negb orb].
  change (eqb (str "object") (str "object")) with true. cbn [negb].
  rewrite Hi. cbn [isArray negb elementsOf]. now rewrite V.
Qed.

Lemma validation_reports_first_offender_witness :
  validateItems ([named "apple"; named "pear"]
                 ++ JObject [(str "name", JBool true)] :: [JNull; JString []])
  = Some (invalid "each item must have a 'name' string property").
Proof.
  exact (proj1 (validation_reports_first_offender
                  [named "apple"; named "pear"] [JNull; JString []]
                  (JObject [(str "name", JBool true)])
                  (invalid "each item must have a 'name' string property")
                  eq_refl eq_refl)).
Defined.

End Validation.

(** ** The upload form *)

Section UploadForm.
Import Client.



(** The request of [handleUpload] either yields a URL that is not blank or
    throws; in both cases it is the only call. *)
Lemma upload_result (w : Client.world) (f : file) :
  (exists url, upload w f [] = (inr url, [PostUpload f]) /\ trim url <> [])
  \/ (exists thrown, upload w f [] = (inl thrown, [PostUpload f])).
Proof.
  unfold upload, bind, call, await, ret, throw.
  destruct (fetchUpload w f) as [thrown|response];
    [right; eexists; reflexivity|].
  cbn [app]. destruct (ok response); cbn [negb];
    [|right; eexists; reflexivity].
  destruct (json response) as [thrown|data]; [right; eexists; reflexivity|].
  assert (G : forall chosen : option value,
    (exists url,
       (if negb (truthy chosen)
           || negb (eqb (typeof chosen) (str "string"))
           || eqb (trim (Analyze.stringOf chosen)) []
        then fun t : list effect =>
               (inl (JsError (str "Upload succeeded but no imageUrl was returned")),
                t)
        else fun t => (inr (Analyze.stringOf chosen), t)) [PostUpload f]
       = (inr url, [PostUpload f]) /\ trim url <> [])
    \/ (exists thrown,
       (if negb (truthy chosen)
           || negb (eqb (typeof chosen) (str "string"))
           || eqb (trim (Analyze.stringOf chosen)) []
        then fun t : list effect =>
               (inl (JsError (str "Upload succeeded but no imageUrl was returned")),
                t)
        else fun t : list effect =>
               (@inr exn jsstring (Analyze.stringOf chosen), t)) [PostUpload f]
       = (inl thrown, [PostUpload f]))).
  { intro chosen.
    destruct (negb (truthy chosen)
              || negb (eqb (typeof chosen) (str "string"))
              || eqb (trim (Analyze.stringOf chosen)) []) eqn:C.
    - right. eexists. reflexivity.
    - left. eexists. split; [reflexivity|].
      apply orb_false_iff in C as [_ C]. now apply eqb_neq. }
  destruct data; unfold member; try (right; eexists; reflexivity);
    unfold throw, ret;
    repeat match goal with
           | |- context [if truthy ?v then _ else _] => destruct (truthy v)
           end;
    apply G.
Qed.

(** X19. [handleUpload] always settles.  Without a selected file it only
    reports that one must be selected and sends nothing.  With one it sends
    exactly one request and ends with the uploading flag off and the file,
    preview and copy flag untouched, in one of two states: a URL that is not
    blank is shown and no error is reported, or an error is reported and the
    URL shown before stays as it was. *)
Theorem handleUpload_settles (w : Client.world) (st : state) :
  match selectedFile st with
  | None =>
      handleUpload w st =
        ({| selectedFile := None; previewUrl := previewUrl st;
            uploadedImageUrl := uploadedImageUrl st;
            isUploading := isUploading st;
            error := Some (str "Please select an image first");
            copySuccess := copySuccess st |}, [])
  | Some f =>
      (exists url,
         trim url <> []
         /\ handleUpload w st = (settled st (Some url) None, [PostUpload f]))
      \/ (exists message,
            handleUpload w st
            = (settled st (uploadedImageUrl st) (Some message), [PostUpload f]))
  end.
Proof.
  unfold handleUpload. destruct (selectedFile st) as [f|] eqn:Sel.
  - destruct (upload_result w f) as [[url [E Hu]] | [thrown E]]; rewrite E.
    + left. exists url. split; [exact Hu|]. unfold settled. now rewrite Sel.
    + right. eexists. unfold settled. now rewrite Sel.
  - reflexivity.
Qed.




Lemma isBlobUrl_startsWith (u : jsstring) :
  isBlobUrl (Some u) = startsWith u (str "blob:").
Proof. destruct u; reflexivity. Qed.

(** X21. Selecting a file starts afresh: the file becomes the selected one,
    the URL of an earlier upload and the copy flag are cleared, and the
    uploading flag is left alone.  The previous preview is revoked exactly
    when it is a blob URL, and before the new one is created; the page ends
    with the new preview and no error, or, when the preview cannot be
    created, with no preview and the error that says so.  Either way an
    upload started next sends the file just selected.  An empty selection
    changes nothing. *)
Theorem handleFileChange_resets (w : Client.world) (st : state) (f : file) :
  let st' := fst (handleFileChange w st (Some f)) in
  let calls := snd (handleFileChange w st (Some f)) in
  selectedFile st' = Some f /\ uploadedImageUrl st' = None
  /\ copySuccess st' = false /\ isUploading st' = isUploading st
  /\ ((exists u, createObjectURL w f = inr u
                 /\ previewUrl st' = Some u /\ error st' = None)
      \/ (exists thrown, createObjectURL w f = inl thrown
                 /\ previewUrl st' = None
                 /\ error st' = Some (str "Failed to create image preview")))
  /\ ((exists old, previewUrl st = Some old
                   /\ startsWith old (str "blob:") = true
                   /\ calls = [RevokeObjectURL old; CreateObjectURL f])
      \/ ((forall old, previewUrl st = Some old ->
                       startsWith old (str "blob:") = false)
          /\ calls = [CreateObjectURL f]))
  /\ snd (handleUpload w st') = [PostUpload f]
  /\ handleFileChange w st None = (st, []).
Proof.
  intros st' calls. subst st' calls. unfold handleFileChange.
  assert (R : (exists old, previewUrl st = Some old
                 /\ startsWith old (str "blob:") = true
                 /\ match previewUrl st with
                    | Some u => if isBlobUrl (Some u) then [RevokeObjectURL u] else []
                    | None => []
                    end = [RevokeObjectURL old])
              \/ ((forall old, previewUrl st = Some old ->
                               startsWith old (str "blob:") = false)
                  /\ match previewUrl st with
                     | Some u => if isBlobUrl (Some u) then [RevokeObjectURL u] else []
                     | None => []
                     end = [])).
  { destruct (previewUrl st) as [u|].
    - rewrite isBlobUrl_startsWith.
      destruct (startsWith u (str "blob:")) eqn:B.
      + left. exists u. now repeat split.
      + right. split; [|reflexivity]. now intros old [= <-].
    - right. split; [discriminate|reflexivity]. }
  assert (U : forall st0, selectedFile st0 = Some f ->
                          snd (handleUpload w st0) = [PostUpload f]).
  { intros st0 Sel. unfold handleUpload. rewrite Sel.
    destruct (upload_result w f) as [[url [E _]] | [thrown E]];
      now rewrite E. }
  destruct (createObjectURL w f) as [thrown|u] eqn:C; cbn [fst snd];
    (repeat split; try reflexivity;
     [ first [ left; exists u; now repeat split
             | right; exists thrown; now repeat split ]
     | destruct R as [(old & P & B & ->) | [P ->]];
       [left; exists old; now repeat split | right; now split]
     | now apply U ]).
Qed.

Lemma handleFileChange_resets_witness :
  snd (handleUpload offline
         (fst (handleFileChange offline
                 (showing lunch (Some (str "/uploads/old-1-abc.png")))
                 (Some lunch))))
  = [PostUpload lunch].
Proof.
  exact (proj1 (proj2 (proj2 (proj2 (proj2 (proj2 (proj2
           (handleFileChange_resets offline
              (showing lunch (Some (str "/uploads/old-1-abc.png")))
              lunch)))))))).
Defined.

End UploadForm.
